(** * PasarGuard dashboard: list views, pagination, URL state and search

    A shallow embedding of the list-view logic of the dashboard
    (users table, nodes list, pagination controls, debounced search and
    relative-time texts) together with the properties stated about it.

    JavaScript numbers that hold page indices, limits, counts and ids are
    modelled as [Z]; the one place where [NaN] can arise ([parseInt]) uses
    the type [number] below.  Strings are [String.string]. *)

From Stdlib Require Import ZArith List String Ascii Bool Lia Sorted.
From Stdlib Require Import DecimalString DecimalZ Decimal.
Import ListNotations.

Local Open Scope string_scope.
Local Open Scope list_scope.
Local Open Scope Z_scope.

(* ================================================================== *)
(** ** Pagination window ([getPaginationRange]) *)
(* ================================================================== *)

Module Pagination.

(** [-1] stands for an ellipsis in the rendered list of page links. *)
Definition ELLIPSIS : Z := -1.

Definition delta : Z := 2.

(** [n] successive pushes [i, i+1, ...]: the body of a counting loop. *)
Fixpoint pushFrom (i : Z) (n : nat) : list Z :=
  match n with
  | O => []
  | S n' => i :: pushFrom (i + 1) n'
  end.

(** [for (let i = lo; i <= hi; i++) range.push(i)] *)
Definition pushRange (lo hi : Z) : list Z :=
  pushFrom lo (Z.to_nat (hi - lo + 1)).

(** [getPaginationRange] of [PaginationControls] (users) and of
    [NodePaginationControls] (nodes); the two copies are the same code. *)
Definition getPaginationRange (currentPage totalPages : Z) : list Z :=
  if totalPages <=? 5 then
    (* for (let i = 0; i < totalPages; i++) range.push(i) *)
    pushRange 0 (totalPages - 1)
  else
    let start := Z.max 1 (currentPage - delta) in
    let end_ := Z.min (totalPages - 2) (currentPage + delta) in
    let end_ :=
      if currentPage - delta <=? 1
      then Z.min (totalPages - 2) (start + 2 * delta) else end_ in
    let start :=
      if currentPage + delta >=? totalPages - 2
      then Z.max 1 (totalPages - 3 - 2 * delta) else start in
    [0]
      ++ (if start >? 1 then [ELLIPSIS] else [])
      ++ pushRange start end_
      ++ (if end_ <? totalPages - 2 then [ELLIPSIS] else [])
      ++ (if totalPages >? 1 then [totalPages - 1] else []).

(** The page indices of a window: everything but the ellipsis markers. *)
Definition pages (r : list Z) : list Z :=
  filter (fun x => negb (x =? ELLIPSIS)) r.

(** A well-formed tail of a window whose last listed page is [p]: pages
    go up strictly, and a marker sits only between two pages that are
    not neighbours. *)
Inductive windowTail : Z -> list Z -> Prop :=
| wt_nil p : windowTail p []
| wt_page p q l : p < q -> windowTail q l -> windowTail p (q :: l)
| wt_gap p q l :
    p + 1 < q -> windowTail q l -> windowTail p (ELLIPSIS :: q :: l).

(** Every marker of [r] stands between two listed pages with a gap. *)
Definition ellipsisOnlyAtGaps (r : list Z) : Prop :=
  forall l1 l2, r = l1 ++ ELLIPSIS :: l2 ->
    exists l1' p q l2',
      l1 = l1' ++ [p] /\ l2 = q :: l2' /\
      p <> ELLIPSIS /\ q <> ELLIPSIS /\ p + 1 < q.

End Pagination.

(* ================================================================== *)
(** ** The JavaScript values and built-ins the code relies on *)
(* ================================================================== *)

Module JS.

(** A number that is an integer or [NaN]: what [parseInt] can return
    and what arithmetic on its result yields. *)
Inductive number : Type :=
| Int (z : Z)
| NaN.

(** [Number.MAX_SAFE_INTEGER].  The numbers of the code are doubles; on
    the integers from [-MAX_SAFE_INTEGER] to [MAX_SAFE_INTEGER] their
    sums, products, [toString] and [parseInt] are those of the integers,
    which is what the definitions below compute.  Beyond that range a
    double rounds, and [toString] changes to the exponent form from
    [1e21] on; statements that print, read or multiply numbers are
    made for safe integers. *)
Definition MAX_SAFE_INTEGER : Z := 2 ^ 53 - 1.

Definition safeInteger (z : Z) : Prop :=
  - MAX_SAFE_INTEGER <= z <= MAX_SAFE_INTEGER.

Definition safeNumber (a : number) : Prop :=
  match a with Int z => safeInteger z | NaN => False end.

Definition isNaN (a : number) : bool :=
  match a with NaN => true | Int _ => false end.

(** [Math.max(a, b)]: [NaN] as soon as one argument is [NaN]. *)
Definition Math_max (a b : number) : number :=
  match a, b with
  | Int x, Int y => Int (Z.max x y)
  | _, _ => NaN
  end.

Definition add (a b : number) : number :=
  match a, b with Int x, Int y => Int (x + y) | _, _ => NaN end.

Definition sub (a b : number) : number :=
  match a, b with Int x, Int y => Int (x - y) | _, _ => NaN end.

Definition mul (a b : number) : number :=
  match a, b with Int x, Int y => Int (x * y) | _, _ => NaN end.

(** [a > b]; every comparison with [NaN] is false. *)
Definition gt (a b : number) : bool :=
  match a, b with Int x, Int y => x >? y | _, _ => false end.

(** [a === b] on numbers; [NaN] differs from everything. *)
Definition strictEq (a b : number) : bool :=
  match a, b with Int x, Int y => x =? y | _, _ => false end.

(** [Number.prototype.toString()] of an integer (exact for a safe
    integer; see [MAX_SAFE_INTEGER]). *)
Definition toString (z : Z) : string :=
  NilZero.string_of_int (Z.to_int z).

Definition numberToString (a : number) : string :=
  match a with Int z => toString z | NaN => "NaN" end.

(** A string is truthy when it is not empty. *)
Definition truthy (s : string) : bool :=
  match s with EmptyString => false | String _ _ => true end.

(** [x || undefined] for a string or absent value. *)
Definition orUndefined (x : option string) : option string :=
  match x with
  | Some s => if truthy s then Some s else None
  | None => None
  end.

(** [x || d] for a string or absent value [x] and a string [d]. *)
Definition orElse (x : option string) (d : string) : string :=
  match orUndefined x with Some s => s | None => d end.

Definition isWhiteSpace (c : ascii) : bool :=
  match nat_of_ascii c with
  | 9%nat | 10%nat | 11%nat | 12%nat | 13%nat | 32%nat => true
  | _ => false
  end.

Fixpoint trimStart (s : string) : string :=
  match s with
  | String c s' => if isWhiteSpace c then trimStart s' else s
  | EmptyString => EmptyString
  end.

(** The longest prefix of decimal digits, as a decimal numeral. *)
Fixpoint takeDigits (s : string) : uint :=
  match s with
  | String c s' =>
      match uint_of_char c (Some (takeDigits s')) with
      | Some u => u
      | None => Nil
      end
  | EmptyString => Nil
  end.

(** [parseInt(s, 10)]: leading white space is skipped, one sign is
    accepted, the longest run of digits is read, and the result is
    [NaN] when there is no digit (exact when the digits read are those
    of a safe integer; see [MAX_SAFE_INTEGER]). *)
Definition parseInt (s : string) : number :=
  let s1 := trimStart s in
  let '(neg, s2) :=
    match s1 with
    | String "-" r => (true, r)
    | String "+" r => (false, r)
    | _ => (false, s1)
    end in
  match takeDigits s2 with
  | Nil => NaN
  | u => Int (Z.of_int (if neg then Neg u else Pos u))
  end.

(** [s.startsWith('-')] *)
Definition startsWithDash (s : string) : bool :=
  match s with String "-" _ => true | _ => false end.

(** [s.slice(1)] *)
Definition slice1 (s : string) : string :=
  match s with String _ r => r | EmptyString => EmptyString end.

(** [s.toLowerCase()] on the ASCII letters; other characters are left
    as they are, so text with cased letters outside ASCII is not
    modelled. *)
Definition lowerChar (c : ascii) : ascii :=
  let n := nat_of_ascii c in
  if (65 <=? n)%nat && (n <=? 90)%nat then ascii_of_nat (n + 32) else c.

Fixpoint toLowerCase (s : string) : string :=
  match s with
  | String c s' => String (lowerChar c) (toLowerCase s')
  | EmptyString => EmptyString
  end.

(** [s.includes(t)]: [t] occurs in [s] as a contiguous substring. *)
Fixpoint includes (s t : string) : bool :=
  prefix t s
  || match s with
     | String _ s' => includes s' t
     | EmptyString => false
     end.

(** [l.join(sep)] *)
Fixpoint join (sep : string) (l : list string) : string :=
  match l with
  | [] => EmptyString
  | [x] => x
  | x :: l' => append x (append sep (join sep l'))
  end.

(** [Array.prototype.slice(start, end)]: negative indices count from
    the end, and both bounds are clamped to the array. *)
Definition sliceArray {A} (l : list A) (start end_ : Z) : list A :=
  let len := Z.of_nat (List.length l) in
  let k := if start <? 0 then Z.max (len + start) 0 else Z.min start len in
  let final := if end_ <? 0 then Z.max (len + end_) 0 else Z.min end_ len in
  firstn (Z.to_nat (final - k)) (skipn (Z.to_nat k) l).

(** [URLSearchParams]: an ordered list of name/value pairs. *)
Module URLSearchParams.

Definition t := list (string * string).

Definition empty : t := [].

(** [get(name)]: the first value of that name, or [null]. *)
Fixpoint get (sp : t) (name : string) : option string :=
  match sp with
  | [] => None
  | (k, v) :: sp' => if String.eqb k name then Some v else get sp' name
  end.

(** [getAll(name)]: every value of that name, in order. *)
Definition getAll (sp : t) (name : string) : list string :=
  map snd (filter (fun kv => String.eqb (fst kv) name) sp).

(** [append(name, value)] *)
Definition append (sp : t) (name value : string) : t :=
  sp ++ [(name, value)].

Definition remove (sp : t) (name : string) : t :=
  filter (fun kv => negb (String.eqb (fst kv) name)) sp.

(** [set(name, value)]: the first pair of that name takes the value and
    the other pairs of that name go; a new pair is appended otherwise. *)
Fixpoint set (sp : t) (name value : string) : t :=
  match sp with
  | [] => [(name, value)]
  | (k, v) :: sp' =>
      if String.eqb k name then (k, value) :: remove sp' name
      else (k, v) :: set sp' name value
  end.

End URLSearchParams.

End JS.

(* ================================================================== *)
(** ** Users table: URL state and sorting *)
(* ================================================================== *)

Module UsersTable.
Import JS.

Inductive UserStatus : Type :=
| active | disabled | limited | expired | on_hold.

Definition statusString (st : UserStatus) : string :=
  match st with
  | active => "active"
  | disabled => "disabled"
  | limited => "limited"
  | expired => "expired"
  | on_hold => "on_hold"
  end.

Definition validStatuses : list UserStatus :=
  [active; disabled; limited; expired; on_hold].

(** [statusParam && validStatuses.includes(statusParam) ? statusParam
    : undefined] *)
Definition parseStatus (statusParam : option string) : option UserStatus :=
  match statusParam with
  | Some s => find (fun st => String.eqb (statusString st) s) validStatuses
  | None => None
  end.

Definition DEFAULT_SORT : string := "-created_at".

(** What [parseURLParams] returns. *)
Record URLParams : Type := mkURLParams {
  page : number;
  limit : Z;
  sort : string;
  search : option string;
  status : option UserStatus;
  admin : option (list string);
  group : option (list number);
  isProtocol : bool
}.

(** [l.length > 0 ? l : undefined] *)
Definition nonEmpty {A} (l : list A) : option (list A) :=
  match l with [] => None | _ => Some l end.

Definition parseURLParams (searchParams : URLSearchParams.t)
    (defaultItemsPerPage : Z) : URLParams :=
  let pageParam := URLSearchParams.get searchParams "page" in
  let page :=
    match orUndefined pageParam with
    | Some p => Math_max (Int 0) (sub (parseInt p) (Int 1))
    | None => Int 0
    end in
  let limit :=
    parseInt (orElse (URLSearchParams.get searchParams "limit")
                     (toString defaultItemsPerPage)) in
  let sort := orElse (URLSearchParams.get searchParams "sort") DEFAULT_SORT in
  let search := orUndefined (URLSearchParams.get searchParams "search") in
  let statusParam := URLSearchParams.get searchParams "status" in
  let status := parseStatus statusParam in
  let admin := filter truthy (URLSearchParams.getAll searchParams "admin") in
  let group :=
    filter (fun g => negb (isNaN g))
           (map parseInt (URLSearchParams.getAll searchParams "group")) in
  let isProtocol :=
    match URLSearchParams.get searchParams "is_protocol" with
    | Some v => String.eqb v "true"
    | None => false
    end in
  {| page := Math_max (Int 0) page;
     limit := match limit with
              | Int l => if l >? 0 then l else defaultItemsPerPage
              | NaN => defaultItemsPerPage
              end;
     sort := sort;
     search := search;
     status := status;
     admin := nonEmpty admin;
     group := nonEmpty group;
     isProtocol := isProtocol |}.

(** The [filters] state of the table. *)
Module Filters.
Record t : Type := mk {
  limit : Z;
  sort : string;
  load_sub : bool;
  offset : number;
  search : option string;
  proxy_id : option string;
  is_protocol : bool;
  status : option UserStatus;
  admin : option (list string);
  group : option (list number)
}.

Definition with_sort (f : t) (s : string) : t :=
  mk (limit f) s (load_sub f) (offset f) (search f) (proxy_id f)
     (is_protocol f) (status f) (admin f) (group f).
End Filters.

(** The pieces of component state the URL and the sort depend on. *)
Record View : Type := mkView {
  currentPage : number;
  itemsPerPage : Z;
  filters : Filters.t;
  isSorting : bool
}.

(** [getInitialStateFromURL], after the query string has been parsed. *)
Definition getInitialStateFromURL (urlParams : URLParams) : View :=
  {| currentPage := page urlParams;
     itemsPerPage := limit urlParams;
     filters :=
       {| Filters.limit := limit urlParams;
          Filters.sort := sort urlParams;
          Filters.load_sub := true;
          Filters.offset := mul (page urlParams) (Int (limit urlParams));
          Filters.search := search urlParams;
          Filters.proxy_id :=
            if isProtocol urlParams then orUndefined (search urlParams)
            else None;
          Filters.is_protocol := isProtocol urlParams;
          Filters.status := status urlParams;
          Filters.admin := admin urlParams;
          Filters.group := group urlParams |};
     isSorting := false |}.

(** The search parameters that the write-back effect stores in the
    location; [usersPerPage] is [getUsersPerPageLimitSize()]. *)
Definition writeURLParams (usersPerPage : Z) (v : View)
    : URLSearchParams.t :=
  let f := filters v in
  let sp := URLSearchParams.empty in
  let sp :=
    if gt (currentPage v) (Int 0)
    then URLSearchParams.set sp "page"
           (numberToString (add (currentPage v) (Int 1)))
    else sp in
  let sp :=
    if negb (itemsPerPage v =? usersPerPage)
    then URLSearchParams.set sp "limit" (toString (itemsPerPage v))
    else sp in
  let sp :=
    if truthy (Filters.sort f)
       && negb (String.eqb (Filters.sort f) DEFAULT_SORT)
    then URLSearchParams.set sp "sort" (Filters.sort f)
    else sp in
  let sp :=
    match orUndefined (Filters.search f) with
    | Some s => URLSearchParams.set sp "search" s
    | None => sp
    end in
  let sp :=
    match orUndefined (Filters.proxy_id f) with
    | Some pid =>
        URLSearchParams.set
          (URLSearchParams.set sp "search" pid) "is_protocol" "true"
    | None =>
        if Filters.is_protocol f
        then URLSearchParams.set sp "is_protocol" "true"
        else sp
    end in
  let sp :=
    match Filters.status f with
    | Some st => URLSearchParams.set sp "status" (statusString st)
    | None => sp
    end in
  let sp :=
    match Filters.admin f with
    | Some admins =>
        fold_left (fun acc a => URLSearchParams.append acc "admin" a)
                  admins sp
    | None => sp
    end in
  let sp :=
    match Filters.group f with
    | Some groups =>
        fold_left (fun acc g =>
                     URLSearchParams.append acc "group" (numberToString g))
                  groups sp
    | None => sp
    end in
  sp.

(** The active search term: the protocol id when there is one, the
    free-text search otherwise. *)
Definition activeSearch (f : Filters.t) : option string :=
  match orUndefined (Filters.proxy_id f) with
  | Some pid => Some pid
  | None => orUndefined (Filters.search f)
  end.

Definition protocolFlag (f : Filters.t) : bool :=
  match orUndefined (Filters.proxy_id f) with
  | Some _ => true
  | None => Filters.is_protocol f
  end.

Definition listOf {A} (x : option (list A)) : list A :=
  match x with Some l => l | None => [] end.

(** The layout of the query the write-back effect produces: one
    optional pair per scalar field in a fixed order, then the admins
    and the groups. *)
Definition queryLayout (usersPerPage : Z) (v : View) : URLSearchParams.t :=
  let f := filters v in
  (if gt (currentPage v) (Int 0)
   then [("page", numberToString (add (currentPage v) (Int 1)))] else [])
  ++ (if itemsPerPage v =? usersPerPage
      then [] else [("limit", toString (itemsPerPage v))])
  ++ (if truthy (Filters.sort f)
         && negb (String.eqb (Filters.sort f) DEFAULT_SORT)
      then [("sort", Filters.sort f)] else [])
  ++ match activeSearch f with Some s => [("search", s)] | None => [] end
  ++ (if protocolFlag f then [("is_protocol", "true")] else [])
  ++ match Filters.status f with
     | Some st => [("status", statusString st)]
     | None => []
     end
  ++ map (fun a => ("admin", a)) (listOf (Filters.admin f))
  ++ map (fun g => ("group", numberToString g)) (listOf (Filters.group f)).

(** The invariants of the list state: a page index from 0, a positive
    page size, a sort key, admin names that are not empty and group ids
    that are numbers. *)
Record wellFormed (u : URLParams) : Prop := mkWellFormed {
  wf_page : exists p, page u = Int p /\ 0 <= p;
  wf_limit : 0 < limit u;
  wf_sort : sort u <> "";
  wf_admin : Forall (fun a => truthy a = true) (listOf (admin u));
  wf_group : Forall (fun g => isNaN g = false) (listOf (group u))
}.

(** The same invariants on a state of the view, its numbers being safe
    integers. *)
Record safeView (v : View) : Prop := mkSafeView {
  sv_page : exists p, currentPage v = Int p /\ 0 <= p <= MAX_SAFE_INTEGER;
  sv_limit : 0 < itemsPerPage v <= MAX_SAFE_INTEGER;
  sv_sort : Filters.sort (filters v) <> "";
  sv_admin :
    Forall (fun a => truthy a = true) (listOf (Filters.admin (filters v)));
  sv_group : Forall safeNumber (listOf (Filters.group (filters v)))
}.

(** A state with its empty optional fields read as absent: an empty
    search string, an empty admin list and an empty group list carry
    no filter, and the URL leaves them out. *)
Definition omitEmpty (u : URLParams) : URLParams :=
  {| page := page u;
     limit := limit u;
     sort := sort u;
     search := orUndefined (search u);
     status := status u;
     admin := nonEmpty (listOf (admin u));
     group := nonEmpty (listOf (group u));
     isProtocol := isProtocol u |}.

(** [column.startsWith('-') ? column.slice(1) : column] *)
Definition cleanColumn (column : string) : string :=
  if startsWithDash column then slice1 column else column.

(** The sort key [handleSort] computes from the current one. *)
Definition newSort (current column : string) (fromDropdown : bool)
    : string :=
  let clean := cleanColumn column in
  if fromDropdown then
    if startsWithDash column then
      if String.eqb current (append "-" clean) then DEFAULT_SORT
      else append "-" clean
    else
      if String.eqb current clean then DEFAULT_SORT else clean
  else
    if String.eqb current clean then append "-" clean
    else if String.eqb current (append "-" clean) then DEFAULT_SORT
    else clean.

(** [handleSort(column, fromDropdown)]: nothing happens while a sort is
    being applied; otherwise the lock is taken and the sort key set. *)
Definition handleSort (v : View) (column : string) (fromDropdown : bool)
    : View :=
  if isSorting v then v
  else
    {| currentPage := currentPage v;
       itemsPerPage := itemsPerPage v;
       filters := Filters.with_sort (filters v)
                    (newSort (Filters.sort (filters v)) column fromDropdown);
       isSorting := true |}.

(** The timer started by [handleSort] releases the lock. *)
Definition sortLockExpired (v : View) : View :=
  {| currentPage := currentPage v;
     itemsPerPage := itemsPerPage v;
     filters := filters v;
     isSorting := false |}.

End UsersTable.

(* ================================================================== *)
(** ** Debounced search ([useDebouncedSearch]) *)
(* ================================================================== *)

Module DebouncedSearch.
Import JS.

(** The hook's state at an instant (milliseconds): the echoed input,
    the committed value, the invocation the debouncer holds back with
    the instant its timer is due, and the arguments
    [setDebouncedSearch] has been called with so far, oldest first. *)
Record Hook : Type := mkHook {
  search : string;
  debouncedSearch : option string;
  pending : option (string * Z);
  commitLog : list (option string)
}.

(** [useDebouncedSearch(initialValue, delay)] on mount. *)
Definition init (initialValue : string) : Hook :=
  {| search := initialValue;
     debouncedSearch := None;
     pending := None;
     commitLog := [] |}.

(** The debounced function body: [setDebouncedSearch(value || undefined)]. *)
Definition commit (value : string) (h : Hook) : Hook :=
  {| search := search h;
     debouncedSearch := orUndefined (Some value);
     pending := None;
     commitLog := commitLog h ++ [orUndefined (Some value)] |}.

(** Time passes up to [now]: a timer that is due runs. *)
Definition advance (now : Z) (h : Hook) : Hook :=
  match pending h with
  | Some (value, due) => if due <=? now then commit value h else h
  | None => h
  end.

(** [setSearch(value)] at instant [now]: the input is echoed at once and
    the debouncer drops what it held and restarts its timer. *)
Definition handleSearchChange (delay now : Z) (value : string) (h : Hook)
    : Hook :=
  let h := advance now h in
  {| search := value;
     debouncedSearch := debouncedSearch h;
     pending := Some (value, now + delay);
     commitLog := commitLog h |}.

(** The unmount clean-up: [debouncedSearchRef.current.cancel()]. *)
Definition unmount (h : Hook) : Hook :=
  {| search := search h;
     debouncedSearch := debouncedSearch h;
     pending := None;
     commitLog := commitLog h |}.

(** A sequence of calls [(instant, value)], in the order they happen. *)
Fixpoint run (delay : Z) (calls : list (Z * string)) (h : Hook) : Hook :=
  match calls with
  | [] => h
  | (now, value) :: rest => run delay rest (handleSearchChange delay now value h)
  end.

(** Calls that follow one another, from instant [t] on, with gaps
    shorter than the delay. *)
Fixpoint rapid (delay t : Z) (calls : list (Z * string)) : Prop :=
  match calls with
  | [] => True
  | (t', _) :: rest => t <= t' /\ t' - t < delay /\ rapid delay t' rest
  end.

End DebouncedSearch.

(* ================================================================== *)
(** ** Nodes list: local search, paging and page clamping *)
(* ================================================================== *)

Module NodesList.
Import JS.

Definition NODES_PER_PAGE : Z := 15.

(** The node states of the API client; the list view only passes them
    on. *)
Inductive NodeStatus : Type :=
| connected | connecting | error | node_disabled | limited.

(** The fields of a node the list view reads or passes on. *)
Record NodeResponse : Type := mkNode {
  id : Z;
  name : string;
  address : string;
  port : option Z;
  node_status : NodeStatus;
  connection_type : string;
  server_ca : string;
  keep_alive : Z
}.

Record NodesResponse : Type := mkNodesResponse {
  nodes : list NodeResponse;
  total : Z
}.

(** The [filters] state: what the list is fetched with. *)
Record Filters : Type := mkFilters {
  limit : Z;
  offset : Z;
  search : option string;
  status : option (list NodeStatus);
  core_id : option Z
}.

(** A [Partial<Filters>]: a field is left out ([None]) or given, and an
    optional field may be given as [undefined] ([Some None]). *)
Record PartialFilters : Type := mkPartial {
  p_limit : option Z;
  p_offset : option Z;
  p_search : option (option string);
  p_status : option (option (list NodeStatus));
  p_core_id : option (option Z)
}.

(** [{ ...prev, ...newFilters }] *)
Definition merge (prev : Filters) (newFilters : PartialFilters) : Filters :=
  {| limit := match p_limit newFilters with Some x => x | None => limit prev end;
     offset := match p_offset newFilters with Some x => x | None => offset prev end;
     search := match p_search newFilters with Some x => x | None => search prev end;
     status := match p_status newFilters with Some x => x | None => status prev end;
     core_id := match p_core_id newFilters with Some x => x | None => core_id prev end |}.

Definition with_offset (f : Filters) (o : Z) : Filters :=
  {| limit := limit f; offset := o; search := search f;
     status := status f; core_id := core_id f |}.

(** The component state and what the query hook reports. *)
Record State : Type := mkState {
  currentPage : Z;
  isChangingPage : bool;
  allNodes : list NodeResponse;
  localSearchTerm : string;
  filters : Filters;
  nodesResponse : option NodesResponse;
  isLoading : bool;
  isFetching : bool;
  wasFetchingRef : bool;
  isFirstLoadRef : bool;
  previousTotalPagesRef : Z;
  isAutoRefreshingRef : bool
}.

Definition initialState : State :=
  {| currentPage := 0;
     isChangingPage := false;
     allNodes := [];
     localSearchTerm := "";
     filters := {| limit := NODES_PER_PAGE; offset := 0; search := None;
                   status := None; core_id := None |};
     nodesResponse := None;
     isLoading := true;
     isFetching := true;
     wasFetchingRef := false;
     isFirstLoadRef := true;
     previousTotalPagesRef := 0;
     isAutoRefreshingRef := false |}.

Definition set_currentPage (st : State) (p : Z) : State :=
  mkState p (isChangingPage st) (allNodes st) (localSearchTerm st)
    (filters st) (nodesResponse st) (isLoading st) (isFetching st)
    (wasFetchingRef st) (isFirstLoadRef st) (previousTotalPagesRef st)
    (isAutoRefreshingRef st).

Definition set_isChangingPage (st : State) (b : bool) : State :=
  mkState (currentPage st) b (allNodes st) (localSearchTerm st)
    (filters st) (nodesResponse st) (isLoading st) (isFetching st)
    (wasFetchingRef st) (isFirstLoadRef st) (previousTotalPagesRef st)
    (isAutoRefreshingRef st).

Definition set_allNodes (st : State) (l : list NodeResponse) : State :=
  mkState (currentPage st) (isChangingPage st) l (localSearchTerm st)
    (filters st) (nodesResponse st) (isLoading st) (isFetching st)
    (wasFetchingRef st) (isFirstLoadRef st) (previousTotalPagesRef st)
    (isAutoRefreshingRef st).

Definition set_localSearchTerm (st : State) (s : string) : State :=
  mkState (currentPage st) (isChangingPage st) (allNodes st) s
    (filters st) (nodesResponse st) (isLoading st) (isFetching st)
    (wasFetchingRef st) (isFirstLoadRef st) (previousTotalPagesRef st)
    (isAutoRefreshingRef st).

Definition set_filters (st : State) (f : Filters) : State :=
  mkState (currentPage st) (isChangingPage st) (allNodes st)
    (localSearchTerm st) f (nodesResponse st) (isLoading st) (isFetching st)
    (wasFetchingRef st) (isFirstLoadRef st) (previousTotalPagesRef st)
    (isAutoRefreshingRef st).

(** What the query hook reports changes: a response arrives, a fetch
    starts or ends. *)
Definition set_query (st : State) (r : option NodesResponse)
    (loading fetching : bool) : State :=
  mkState (currentPage st) (isChangingPage st) (allNodes st)
    (localSearchTerm st) (filters st) r loading fetching
    (wasFetchingRef st) (isFirstLoadRef st) (previousTotalPagesRef st)
    (isAutoRefreshingRef st).

Definition set_refs (st : State) (wasFetching isFirstLoad : bool)
    (previousTotalPages : Z) (isAutoRefreshing : bool) : State :=
  mkState (currentPage st) (isChangingPage st) (allNodes st)
    (localSearchTerm st) (filters st) (nodesResponse st) (isLoading st)
    (isFetching st) wasFetching isFirstLoad previousTotalPages
    isAutoRefreshing.

(** [nodesResponse?.total || 0] *)
Definition totalNodesFromResponse (st : State) : Z :=
  match nodesResponse st with Some r => total r | None => 0 end.

(** [nodesResponse?.nodes || []] *)
Definition responseNodes (st : State) : list NodeResponse :=
  match nodesResponse st with Some r => nodes r | None => [] end.

Definition hasSearch (x : option string) : bool :=
  match orUndefined x with Some _ => true | None => false end.

Definition shouldUseLocalSearch (st : State) : bool :=
  (totalNodesFromResponse st >? 0)
  && (totalNodesFromResponse st <=? NODES_PER_PAGE)
  && negb (hasSearch (search (filters st))).

(** The predicate of the local filter, on the lowercased term. *)
Definition nodeMatches (searchLower : string) (node : NodeResponse) : bool :=
  includes (toLowerCase (name node)) searchLower
  || includes (toLowerCase (address node)) searchLower
  || match port node with
     | Some p => includes (toString p) searchLower
     | None => false
     end.

Definition filteredNodes (st : State) : list NodeResponse :=
  if shouldUseLocalSearch st && truthy (localSearchTerm st)
     && (Z.of_nat (List.length (allNodes st)) >? 0)
  then
    let searchLower := toLowerCase (localSearchTerm st) in
    filter (nodeMatches searchLower) (allNodes st)
  else responseNodes st.

Definition paginatedNodes (st : State) : list NodeResponse :=
  if shouldUseLocalSearch st && truthy (localSearchTerm st)
  then
    let start := currentPage st * NODES_PER_PAGE in
    let end_ := start + NODES_PER_PAGE in
    sliceArray (filteredNodes st) start end_
  else filteredNodes st.

Definition totalNodes (st : State) : Z :=
  if shouldUseLocalSearch st && truthy (localSearchTerm st)
  then Z.of_nat (List.length (filteredNodes st))
  else totalNodesFromResponse st.

(** [Math.ceil(totalNodes / NODES_PER_PAGE)] *)
Definition calculatedTotalPages (st : State) : Z :=
  - ((- totalNodes st) / NODES_PER_PAGE).

Definition isBackgroundRefetch (st : State) : bool :=
  isFetching st && negb (isChangingPage st) && negb (isFirstLoadRef st)
  && match nodesResponse st with Some _ => true | None => false end.

Definition isPageLoading (st : State) : bool :=
  isChangingPage st
  || (isFetching st && negb (isFirstLoadRef st)
      && negb (shouldUseLocalSearch st) && negb (isBackgroundRefetch st)).

Definition totalPages (st : State) : Z :=
  if calculatedTotalPages st >? 0 then calculatedTotalPages st
  else if isPageLoading st then previousTotalPagesRef st else 0.

(** [handleFilterChange(newFilters)] *)
Definition handleFilterChange (st : State) (newFilters : PartialFilters)
    : State :=
  let searchValue :=
    match p_search newFilters with
    | Some (Some s) => Some s
    | _ => search (filters st)
    end in
  let st1 := set_localSearchTerm st
               (match orUndefined searchValue with Some s => s | None => "" end) in
  if shouldUseLocalSearch st && hasSearch searchValue then
    set_currentPage st1 0
  else
    let st2 := set_filters st1 (merge (filters st) newFilters) in
    match p_offset newFilters with
    | Some o => if o =? 0 then set_currentPage st2 0 else st2
    | None => st2
    end.

(** [handlePageChange(newPage)] *)
Definition handlePageChange (st : State) (newPage : Z) : State :=
  if (newPage =? currentPage st) || isChangingPage st then st
  else if shouldUseLocalSearch st && truthy (localSearchTerm st) then
    set_currentPage st newPage
  else
    set_filters
      (set_currentPage (set_isChangingPage st true) newPage)
      (with_offset (filters st) (newPage * NODES_PER_PAGE)).

(** The effect that keeps the full small set for local search. *)
Definition cacheEffect (st : State) : State :=
  let st1 :=
    match nodesResponse st with
    | Some _ =>
        if isFirstLoadRef st
        then set_refs st (wasFetchingRef st) false
               (previousTotalPagesRef st) (isAutoRefreshingRef st)
        else st
    | None => st
    end in
  match nodesResponse st with
  | Some r =>
      if shouldUseLocalSearch st && negb (hasSearch (search (filters st)))
         && (offset (filters st) =? 0)
      then set_allNodes st1 (nodes r) else st1
  | None => st1
  end.

(** The effect that ends a page change when its fetch has finished. *)
Definition fetchEffect (st : State) : State :=
  let auto1 :=
    if isFetching st && negb (isChangingPage st)
       && negb (isFirstLoadRef st)
       && match nodesResponse st with Some _ => true | None => false end
    then true else isAutoRefreshingRef st in
  let done := negb (isFetching st) && wasFetchingRef st && isChangingPage st in
  let was1 := if done then false else wasFetchingRef st in
  let was2 := if isFetching st then true else was1 in
  let auto2 := if negb (isFetching st) && auto1 then false else auto1 in
  let st1 := if done then set_isChangingPage st false else st in
  set_refs st1 was2 (isFirstLoadRef st) (previousTotalPagesRef st) auto2.

Definition previousTotalPagesEffect (st : State) : State :=
  if calculatedTotalPages st >? 0
  then set_refs st (wasFetchingRef st) (isFirstLoadRef st)
         (calculatedTotalPages st) (isAutoRefreshingRef st)
  else st.

(** The effect that brings the page back into range. *)
Definition clampEffect (st : State) : State :=
  if (calculatedTotalPages st >? 0)
     && (currentPage st >=? calculatedTotalPages st)
  then
    let lastPage := calculatedTotalPages st - 1 in
    set_filters (set_currentPage st lastPage)
      (with_offset (filters st) (lastPage * NODES_PER_PAGE))
  else st.

(** [handleAdvanceSearchSubmit(values)] *)
Definition handleAdvanceSearchSubmit (st : State)
    (v_status : option (list NodeStatus)) (v_core_id : option Z) : State :=
  set_currentPage
    (set_filters st
       {| limit := limit (filters st);
          offset := 0;
          search := search (filters st);
          status := match v_status with
                    | Some (x :: l) => Some (x :: l)
                    | _ => None
                    end;
          core_id := match v_core_id with
                     | Some c => if c =? 0 then None else Some c
                     | None => None
                     end |})
    0.

Definition handleClearAdvanceSearch (st : State) : State :=
  set_currentPage
    (set_filters st
       {| limit := limit (filters st);
          offset := 0;
          search := search (filters st);
          status := None;
          core_id := None |})
    0.

(** What can happen to the list: the user acts through the rendered
    controls, the query hook reports, an effect runs. *)
Inductive Event : Type :=
| FilterChange (newFilters : PartialFilters)
| ClickPrevious
| ClickNext
| ClickPageLink (i : nat)
| AdvanceSearchSubmit (v_status : option (list NodeStatus))
                      (v_core_id : option Z)
| ClearAdvanceSearch
| QueryUpdate (r : option NodesResponse) (loading fetching : bool)
| RunCacheEffect
| RunFetchEffect
| RunPreviousTotalPagesEffect
| RunClampEffect.

(** [NodePaginationControls] is rendered when there is more than one
    page; a disabled button does not react. *)
Definition paginationShown (st : State) : bool := totalPages st >? 1.

Definition dispatch (st : State) (ev : Event) : State :=
  match ev with
  | FilterChange nf => handleFilterChange st nf
  | ClickPrevious =>
      if paginationShown st
         && negb ((currentPage st =? 0) || isPageLoading st)
      then handlePageChange st (currentPage st - 1) else st
  | ClickNext =>
      if paginationShown st
         && negb ((currentPage st =? totalPages st - 1)
                  || (totalPages st =? 0) || isPageLoading st)
      then handlePageChange st (currentPage st + 1) else st
  | ClickPageLink i =>
      match nth_error
              (Pagination.getPaginationRange (currentPage st) (totalPages st))
              i with
      | Some pageNumber =>
          if paginationShown st
             && negb (pageNumber =? Pagination.ELLIPSIS)
             && negb (isPageLoading st)
          then handlePageChange st pageNumber else st
      | None => st
      end
  | AdvanceSearchSubmit s c => handleAdvanceSearchSubmit st s c
  | ClearAdvanceSearch => handleClearAdvanceSearch st
  | QueryUpdate r l f => set_query st r l f
  | RunCacheEffect => cacheEffect st
  | RunFetchEffect => fetchEffect st
  | RunPreviousTotalPagesEffect => previousTotalPagesEffect st
  | RunClampEffect => clampEffect st
  end.

(** The states the list can be in. *)
Inductive reachable : State -> Prop :=
| reach_init : reachable initialState
| reach_step st ev : reachable st -> reachable (dispatch st ev).

(** [t] occurs in [s]. *)
Definition Substring (t s : string) : Prop :=
  exists pre post, s = append pre (append t post).

End NodesList.

(* ================================================================== *)
(** ** Relative-time texts *)
(* ================================================================== *)

Module RelativeTime.
Import JS.

Inductive TimeUnit : Type :=
| year | month | day | hour | minute | second.

(** The elapsed time, unit by unit. *)
Record Units : Type := mkUnits {
  years : Z;
  months : Z;
  days : Z;
  hours : Z;
  minutes : Z;
  seconds : Z
}.

(** One listed unit: its count and which unit it is. *)
Definition Slot : Type := (Z * TimeUnit)%type.

(** [parts.push(x)] *)
Definition push {A} (parts : list A) (x : A) : list A := parts ++ [x].

(** The translation key of a unit: the plural one unless the count is 1. *)
Definition unitKey (n : Z) (u : TimeUnit) : string :=
  let plural := negb (n =? 1) in
  append "time."
    match u with
    | year => if plural then "years" else "year"
    | month => if plural then "months" else "month"
    | day => if plural then "days" else "day"
    | hour => if plural then "hours" else "hour"
    | minute => if plural then "mins" else "min"
    | second => if plural then "seconds" else "second"
    end.

(** The units the tooltip of [OnlineBadge] lists. *)
Definition tooltipSlots (u : Units) : list Slot :=
  let parts := [] in
  let parts := if years u >? 0 then push parts (years u, year) else parts in
  let parts := if months u >? 0 then push parts (months u, month) else parts in
  let parts := if days u >? 0 then push parts (days u, day) else parts in
  let parts :=
    if (hours u >? 0) && (Z.of_nat (List.length parts) <? 2)
    then push parts (hours u, hour) else parts in
  let parts :=
    if (minutes u >? 0) && (Z.of_nat (List.length parts) <? 2)
    then push parts (minutes u, minute) else parts in
  let parts :=
    if (seconds u >? 0) && (Z.of_nat (List.length parts) =? 0)
    then push parts (seconds u, second) else parts in
  parts.

(** The units [useRelativeExpiryDate] lists. *)
Definition expirySlots (u : Units) : list Slot :=
  let durationSlots := [] in
  let durationSlots :=
    if years u >? 0 then push durationSlots (years u, year)
    else durationSlots in
  let durationSlots :=
    if months u >? 0 then push durationSlots (months u, month)
    else durationSlots in
  let durationSlots :=
    if days u >? 0 then push durationSlots (days u, day)
    else durationSlots in
  if Z.of_nat (List.length durationSlots) =? 0 then
    let durationSlots :=
      if hours u >? 0 then push durationSlots (hours u, hour)
      else durationSlots in
    let durationSlots :=
      if minutes u >? 0 then push durationSlots (minutes u, minute)
      else durationSlots in
    durationSlots
  else durationSlots.

Record DateInfo : Type := mkDateInfo {
  status : string;
  time : string
}.

Section Formatters.

(** The date library and the translation function the formatters call:
    [a.diff(b, unit)], [a.add(n, unit)], [a.isAfter(b)], [a.isBefore(b)]
    and [t(key)]. *)
Variable instant : Type.
Variable diff : instant -> instant -> TimeUnit -> Z.
Variable add : instant -> Z -> TimeUnit -> instant.
Variable isAfter isBefore : instant -> instant -> bool.
Variable t : string -> string.

(** The chain of calendar-aware differences: whole years, then whole
    months after those years, then days, hours, minutes and seconds. *)
Definition breakDown (later earlier : instant) : Units :=
  let years := Z.abs (diff later earlier year) in
  let months := Z.abs (diff later (add earlier years year) month) in
  let days :=
    Z.abs (diff later (add (add earlier years year) months month) day) in
  let hours :=
    Z.abs (diff later
             (add (add (add earlier years year) months month) days day)
             hour) in
  let minutes :=
    Z.abs (diff later
             (add (add (add (add earlier years year) months month) days day)
                  hours hour)
             minute) in
  let seconds :=
    Z.abs (diff later
             (add (add (add (add (add earlier years year) months month)
                             days day) hours hour) minutes minute)
             second) in
  mkUnits years months days hours minutes seconds.

(** One part of the text: the count, a space and the translated unit. *)
Definition renderSlot (sl : Slot) : string :=
  append (toString (fst sl))
    (append " " (t (unitKey (fst sl) (snd sl)))).

(** [getTooltipText] of [OnlineBadge]. *)
Definition getTooltipText (lastOnline : option instant)
    (currentTime : instant) : string :=
  match lastOnline with
  | None => t "notConnectedYet"
  | Some lastOnlineTime =>
      let diffInSeconds := diff currentTime lastOnlineTime second in
      if diffInSeconds <=? 60 then t "online"
      else
        let parts :=
          map renderSlot (tooltipSlots (breakDown currentTime lastOnlineTime)) in
        if Z.of_nat (List.length parts) =? 0 then t "time.ago"
        else append (join ", " parts) (append " " (t "time.ago"))
  end.

(** [useRelativeExpiryDate] *)
Definition useRelativeExpiryDate (expiryDate : option instant)
    (now : instant) : DateInfo :=
  match expiryDate with
  | None => {| status := ""; time := "" |}
  | Some target =>
      let after := isAfter target now in
      let earlier := if isBefore target now then target else now in
      let later := if isAfter target now then target else now in
      let u := breakDown later earlier in
      let durationSlots := map renderSlot (expirySlots u) in
      {| status := if after then t "expires" else t "expired";
         time :=
           if negb after && (Z.of_nat (List.length durationSlots) =? 0)
              && (minutes u <? 1)
           then t "time.justNow"
           else append (join ", " durationSlots)
                  (if after then "" else append " " (t "time.ago")) |}
  end.

End Formatters.

(** The non-zero units among years, months and days, largest first. *)
Definition listed (n : Z) (u : TimeUnit) : list Slot :=
  if n >? 0 then [(n, u)] else [].

Definition calendarSlots (u : Units) : list Slot :=
  listed (years u) year ++ listed (months u) month ++ listed (days u) day.

(** The date library is not part of the sources.  [UTC] gives its
    calendar-aware arithmetic for instants in UTC (milliseconds since
    the epoch, proleptic Gregorian calendar), so that the formatters can
    be run on dates. *)
Module UTC.

Definition MS_SECOND : Z := 1000.
Definition MS_MINUTE : Z := 60000.
Definition MS_HOUR : Z := 3600000.
Definition MS_DAY : Z := 86400000.

Definition isLeap (y : Z) : bool :=
  (y mod 4 =? 0) && (negb (y mod 100 =? 0) || (y mod 400 =? 0)).

(** Days of month [m] (0 = January) of year [y]. *)
Definition daysInMonth (y m : Z) : Z :=
  if m =? 1 then (if isLeap y then 29 else 28)
  else if (m =? 3) || (m =? 5) || (m =? 8) || (m =? 10) then 30
  else 31.

(** Days since the epoch of the civil date [y]-[m]-[d] ([m] from 1). *)
Definition daysFromCivil (y m d : Z) : Z :=
  let y' := if m <=? 2 then y - 1 else y in
  let era := y' / 400 in
  let yoe := y' - era * 400 in
  let doy := (153 * (m + (if m >? 2 then -3 else 9)) + 2) / 5 + d - 1 in
  let doe := yoe * 365 + yoe / 4 - yoe / 100 + doy in
  era * 146097 + doe - 719468.

(** The civil date (year, month from 1, day) of a day number. *)
Definition civilFromDays (z : Z) : Z * Z * Z :=
  let z := z + 719468 in
  let era := z / 146097 in
  let doe := z - era * 146097 in
  let yoe := (doe - doe / 1460 + doe / 36524 - doe / 146096) / 365 in
  let y := yoe + era * 400 in
  let doy := doe - (365 * yoe + yoe / 4 - yoe / 100) in
  let mp := (5 * doy + 2) / 153 in
  let d := doy - (153 * mp + 2) / 5 + 1 in
  let m := if mp <? 10 then mp + 3 else mp - 9 in
  (if m <=? 2 then y + 1 else y, m, d).

Definition instant : Type := Z.

Definition utc (y m d hh mm ss : Z) : instant :=
  daysFromCivil y m d * MS_DAY + hh * MS_HOUR + mm * MS_MINUTE
  + ss * MS_SECOND.

Definition civil (i : instant) : Z * Z * Z := civilFromDays (i / MS_DAY).

Definition yearOf (i : instant) : Z := fst (fst (civil i)).
Definition monthOf (i : instant) : Z := snd (fst (civil i)) - 1.
Definition dateOf (i : instant) : Z := snd (civil i).

Definition addMonths (i : instant) (n : Z) : instant :=
  let total := yearOf i * 12 + monthOf i + n in
  let y := total / 12 in
  let m := total mod 12 in
  let d := Z.min (dateOf i) (daysInMonth y m) in
  daysFromCivil y (m + 1) d * MS_DAY + i mod MS_DAY.

(** Modelled from the spec: [a.add(n, unit)] of the date library, which
    is missing from the sources; calendar-aware: adding months or years
    keeps the day of the month, cut to the length of the target month. *)
Definition add (i : instant) (n : Z) (u : TimeUnit) : instant :=
  match u with
  | year => addMonths i (12 * n)
  | month => addMonths i n
  | day => i + n * MS_DAY
  | hour => i + n * MS_HOUR
  | minute => i + n * MS_MINUTE
  | second => i + n * MS_SECOND
  end.

(** The month difference of [a] and [b] as a fraction, for
    [dateOf a >= dateOf b]. *)
Definition monthDiffAnchored (a b : instant) : Z * Z :=
  let wholeMonthDiff :=
    (yearOf b - yearOf a) * 12 + (monthOf b - monthOf a) in
  let anchor := addMonths a wholeMonthDiff in
  let c := b - anchor <? 0 in
  let anchor2 := addMonths a (wholeMonthDiff + (if c then -1 else 1)) in
  let den := if c then anchor - anchor2 else anchor2 - anchor in
  (- (wholeMonthDiff * den + (b - anchor)), den).

Definition monthDiff (a b : instant) : Z * Z :=
  if dateOf a <? dateOf b
  then let '(n, d) := monthDiffAnchored b a in (- n, d)
  else monthDiffAnchored a b.

(** Modelled from the spec: [a.diff(b, unit)] of the date library, which
    is missing from the sources; calendar-aware for months and years
    (counted between month anchors, not by a fixed length), and cut
    towards zero. *)
Definition diff (a b : instant) (u : TimeUnit) : Z :=
  match u with
  | year => let '(n, d) := monthDiff a b in Z.quot n (12 * d)
  | month => let '(n, d) := monthDiff a b in Z.quot n d
  | day => Z.quot (a - b) MS_DAY
  | hour => Z.quot (a - b) MS_HOUR
  | minute => Z.quot (a - b) MS_MINUTE
  | second => Z.quot (a - b) MS_SECOND
  end.

Definition isAfter (a b : instant) : bool := a >? b.
Definition isBefore (a b : instant) : bool := a <? b.

(** Translation keys left as they are. *)
Definition keys (key : string) : string := key.

End UTC.

End RelativeTime.

(* ================================================================== *)
(** ** Sample data used in the examples *)
(* ================================================================== *)

Module Samples.
Import JS NodesList.

Definition frankfurt : NodeResponse :=
  mkNode 1 "Frankfurt-1" "10.0.0.5" (Some 62050) connected "grpc" "" 20000.

Definition tokyo : NodeResponse :=
  mkNode 2 "Tokyo" "tokyo.example.org" (Some 443) connected "grpc" "" 20000.

Definition twoNodes : NodesResponse :=
  {| nodes := [frankfurt; tokyo]; total := 2 |}.

(** The list after its first response (two nodes) has been cached. *)
Definition loaded : State :=
  dispatch (dispatch initialState (QueryUpdate (Some twoNodes) false false))
           RunCacheEffect.

Definition typed (term : string) : PartialFilters :=
  {| p_limit := None; p_offset := Some 0; p_search := Some (Some term);
     p_status := None; p_core_id := None |}.

(** A list on its fourth page whose total has shrunk to 20 nodes. *)
Definition shrunk : State :=
  set_query
    (set_filters (set_currentPage initialState 3)
       (with_offset (filters initialState) 45))
    (Some {| nodes := []; total := 20 |}) false false.

End Samples.

(* ================================================================== *)
(** ** The page links and buttons of the pagination controls *)
(* ================================================================== *)

Module Pager.

Inductive Click : Type :=
| Previous
| Next
| Link (i : nat).

(** The page a click on [PaginationControls] / [NodePaginationControls]
    passes to [onPageChange]; [None] when the control is disabled or is
    an ellipsis. *)
Definition target (currentPage totalPages : Z) (isLoading : bool)
    (c : Click) : option Z :=
  match c with
  | Previous =>
      if (currentPage =? 0) || isLoading then None
      else Some (currentPage - 1)
  | Next =>
      if (currentPage =? totalPages - 1) || (totalPages =? 0) || isLoading
      then None else Some (currentPage + 1)
  | Link i =>
      match nth_error (Pagination.getPaginationRange currentPage totalPages) i
      with
      | Some pageNumber =>
          if (pageNumber =? Pagination.ELLIPSIS) || isLoading then None
          else Some pageNumber
      | None => None
      end
  end.

End Pager.

(* ================================================================== *)
(** ** The location hash that carries the users query *)
(* ================================================================== *)

Module HashURL.
Import JS.

(** The part of [s] before the first [?] and, when there is one, the
    part after it: [s.indexOf('?')] with [s.substring(...)], and
    [s.split('?')[0]]. *)
Fixpoint cut (s : string) : string * option string :=
  match s with
  | EmptyString => (EmptyString, None)
  | String c r =>
      if Ascii.eqb c "?" then (EmptyString, Some r)
      else let '(before, after) := cut r in (String c before, after)
  end.

(** The text [getSearchParams] hands to [URLSearchParams]; the empty
    text when the hash has no [?]. *)
Definition queryOf (hash : string) : string :=
  match snd (cut hash) with Some q => q | None => EmptyString end.

(** [hash.split('?')[0]] *)
Definition hashPath (hash : string) : string := fst (cut hash).

(** The hash [updateURLParams] installs, [query] being
    [params.toString()]. *)
Definition newHash (hash query : string) : string :=
  if truthy query then append (hashPath hash) (String "?" query)
  else hashPath hash.

End HashURL.

(* ================================================================== *)
(** ** Users table: handlers and effects *)
(* ================================================================== *)

Module UsersView.
Import JS UsersTable.

(** A [Partial<typeof filters>]. *)
Record PartialFilters : Type := mkPartial {
  p_limit : option Z;
  p_sort : option string;
  p_load_sub : option bool;
  p_offset : option number;
  p_search : option (option string);
  p_proxy_id : option (option string);
  p_is_protocol : option bool;
  p_status : option (option UserStatus);
  p_admin : option (option (list string));
  p_group : option (option (list number))
}.

Definition or_prev {A} (x : option A) (prev : A) : A :=
  match x with Some a => a | None => prev end.

(** [{ ...prev, ...newFilters }] *)
Definition merge (prev : Filters.t) (nf : PartialFilters) : Filters.t :=
  Filters.mk
    (or_prev (p_limit nf) (Filters.limit prev))
    (or_prev (p_sort nf) (Filters.sort prev))
    (or_prev (p_load_sub nf) (Filters.load_sub prev))
    (or_prev (p_offset nf) (Filters.offset prev))
    (or_prev (p_search nf) (Filters.search prev))
    (or_prev (p_proxy_id nf) (Filters.proxy_id prev))
    (or_prev (p_is_protocol nf) (Filters.is_protocol prev))
    (or_prev (p_status nf) (Filters.status prev))
    (or_prev (p_admin nf) (Filters.admin prev))
    (or_prev (p_group nf) (Filters.group prev)).

(** [a === b] for a string or [undefined]. *)
Definition sameText (a b : option string) : bool :=
  match a, b with
  | Some x, Some y => String.eqb x y
  | None, None => true
  | _, _ => false
  end.

Definition sameStatus (a b : option UserStatus) : bool :=
  match a, b with
  | Some x, Some y => String.eqb (statusString x) (statusString y)
  | None, None => true
  | _, _ => false
  end.

(** Equal numbers as a dependency list compares them ([Object.is]). *)
Definition sameValue (a b : number) : bool :=
  match a, b with
  | Int x, Int y => x =? y
  | NaN, NaN => true
  | _, _ => false
  end.

Fixpoint sameList {A} (eq : A -> A -> bool) (l1 l2 : list A) : bool :=
  match l1, l2 with
  | [], [] => true
  | x :: r1, y :: r2 => eq x y && sameList eq r1 r2
  | _, _ => false
  end.

(** [JSON.stringify(a) === JSON.stringify(b)] for an optional array. *)
Definition sameJSON {A} (eq : A -> A -> bool) (a b : option (list A)) : bool :=
  match a, b with
  | Some l1, Some l2 => sameList eq l1 l2
  | None, None => true
  | _, _ => false
  end.

Definition set_page (v : View) (p : number) : View :=
  mkView p (itemsPerPage v) (filters v) (isSorting v).

Definition set_itemsPerPage (v : View) (n : Z) : View :=
  mkView (currentPage v) n (filters v) (isSorting v).

Definition set_filters (v : View) (f : Filters.t) : View :=
  mkView (currentPage v) (itemsPerPage v) f (isSorting v).

(** [handleFilterChange(newFilters)] *)
Definition handleFilterChange (v : View) (newFilters : PartialFilters)
    : View :=
  let prev := filters v in
  let updated := merge prev newFilters in
  let updated :=
    match p_search newFilters with
    | Some s =>
        let searchChanged :=
          negb (sameText s (Filters.search prev))
          && negb (sameText s (Filters.proxy_id prev)) in
        if searchChanged then
          if Filters.is_protocol prev then
            Filters.mk (Filters.limit updated) (Filters.sort updated)
              (Filters.load_sub updated) (Int 0) None s
              (Filters.is_protocol updated) (Filters.status updated)
              (Filters.admin updated) (Filters.group updated)
          else
            Filters.mk (Filters.limit updated) (Filters.sort updated)
              (Filters.load_sub updated) (Int 0) s None
              (Filters.is_protocol updated) (Filters.status updated)
              (Filters.admin updated) (Filters.group updated)
        else
          Filters.mk (Filters.limit updated) (Filters.sort updated)
            (Filters.load_sub updated) (Filters.offset prev)
            (Filters.search updated) (Filters.proxy_id updated)
            (Filters.is_protocol updated) (Filters.status updated)
            (Filters.admin updated) (Filters.group updated)
    | None => updated
    end in
  let v1 := set_filters v updated in
  match p_search newFilters with
  | Some (Some s) =>
      if negb (sameText (Some s) (Filters.search prev))
         && negb (sameText (Some s) (Filters.proxy_id prev))
      then set_page v1 (Int 0) else v1
  | _ => v1
  end.

(** What the search box of [Filters] sends: [{ search, offset: 0 }]. *)
Definition searchChange (term : string) : PartialFilters :=
  {| p_limit := None; p_sort := None; p_load_sub := None;
     p_offset := Some (Int 0); p_search := Some (Some term);
     p_proxy_id := None; p_is_protocol := None; p_status := None;
     p_admin := None; p_group := None |}.

(** The value given to [handleStatusFilter]: ['0'], [''] or a status. *)
Inductive StatusValue : Type :=
| AllStatuses
| NoValue
| OneStatus (st : UserStatus).

(** [handleStatusFilter(value)] *)
Definition handleStatusFilter (v : View) (value : StatusValue) : View :=
  let prev := filters v in
  let st := match value with
            | AllStatuses | NoValue => None
            | OneStatus x => Some x
            end in
  set_page
    (set_filters v
       (Filters.mk (Filters.limit prev) (Filters.sort prev)
          (Filters.load_sub prev) (Int 0) (Filters.search prev)
          (Filters.proxy_id prev) (Filters.is_protocol prev) st
          (Filters.admin prev) (Filters.group prev)))
    (Int 0).

(** The values of the advanced-search form. *)
Record AdvanceSearchFormValue : Type := mkAdvance {
  a_is_protocol : bool;
  a_admin : option (list string);
  a_group : option (list number);
  a_status : StatusValue
}.

(** [handleAdvanceSearchSubmit(values)] *)
Definition handleAdvanceSearchSubmit (v : View)
    (values : AdvanceSearchFormValue) : View :=
  let prev := filters v in
  set_page
    (set_filters v
       (Filters.mk (Filters.limit prev) (Filters.sort prev)
          (Filters.load_sub prev) (Int 0) (Filters.search prev)
          (Filters.proxy_id prev) (a_is_protocol values)
          (match a_status values with
           | OneStatus x => Some x
           | _ => None
           end)
          (match a_admin values with
           | Some (x :: l) => Some (x :: l)
           | _ => None
           end)
          (match a_group values with
           | Some (x :: l) => Some (x :: l)
           | _ => None
           end)))
    (Int 0).

(** [onClearAdvanceSearch] *)
Definition handleClearAdvanceSearch (v : View) : View :=
  let prev := filters v in
  set_page
    (set_filters v
       (Filters.mk (Filters.limit prev) (Filters.sort prev)
          (Filters.load_sub prev) (Int 0) (Filters.search prev)
          (Filters.proxy_id prev) (Filters.is_protocol prev) None None None))
    (Int 0).

(** [handlePageChange(newPage)]; [isChangingPage] is raised and lowered
    within the handler, so it is never set when a handler starts. *)
Definition handlePageChange (v : View) (newPage : number) : View :=
  if strictEq newPage (currentPage v) then v else set_page v newPage.

(** [handleItemsPerPageChange(value)] *)
Definition handleItemsPerPageChange (v : View) (value : Z) : View :=
  set_page (set_itemsPerPage v value) (Int 0).

(** The effect that follows [currentPage] and [itemsPerPage]. *)
Definition syncEffect (v : View) : View :=
  let prev := filters v in
  set_filters v
    (Filters.mk (itemsPerPage v) (Filters.sort prev) (Filters.load_sub prev)
       (mul (currentPage v) (Int (itemsPerPage v))) (Filters.search prev)
       (Filters.proxy_id prev) (Filters.is_protocol prev)
       (Filters.status prev) (Filters.admin prev) (Filters.group prev)).

Definition with_searchFields (f : Filters.t) (se pid : option string)
    (proto : bool) : Filters.t :=
  Filters.mk (Filters.limit f) (Filters.sort f) (Filters.load_sub f)
    (Filters.offset f) se pid proto
    (Filters.status f) (Filters.admin f) (Filters.group f).

Definition with_status (f : Filters.t) (st : option UserStatus)
    : Filters.t :=
  Filters.mk (Filters.limit f) (Filters.sort f) (Filters.load_sub f)
    (Filters.offset f) (Filters.search f) (Filters.proxy_id f)
    (Filters.is_protocol f) st (Filters.admin f) (Filters.group f).

Definition with_admin (f : Filters.t) (a : option (list string))
    : Filters.t :=
  Filters.mk (Filters.limit f) (Filters.sort f) (Filters.load_sub f)
    (Filters.offset f) (Filters.search f) (Filters.proxy_id f)
    (Filters.is_protocol f) (Filters.status f) a (Filters.group f).

Definition with_group (f : Filters.t) (g : option (list number))
    : Filters.t :=
  Filters.mk (Filters.limit f) (Filters.sort f) (Filters.load_sub f)
    (Filters.offset f) (Filters.search f) (Filters.proxy_id f)
    (Filters.is_protocol f) (Filters.status f) (Filters.admin f) g.

(** The updates [handleHashChange] queues on [filters], one for each
    field of the query that differs from the [filters] it was rendered
    with; each takes the state left by the one before it. *)
Definition adoptSort (u : URLParams) (f prev : Filters.t) : Filters.t :=
  if negb (String.eqb (sort u) (Filters.sort f))
  then Filters.with_sort prev (sort u) else prev.

Definition adoptSearch (u : URLParams) (f prev : Filters.t) : Filters.t :=
  if negb (sameText (search u) (Filters.search f))
     && negb (sameText (search u) (Filters.proxy_id f))
  then
    if isProtocol u then with_searchFields prev None (search u) true
    else with_searchFields prev (search u) None false
  else prev.

Definition adoptStatus (u : URLParams) (f prev : Filters.t) : Filters.t :=
  if negb (sameStatus (status u) (Filters.status f))
  then with_status prev (status u) else prev.

Definition adoptAdmin (u : URLParams) (f prev : Filters.t) : Filters.t :=
  if negb (sameJSON String.eqb (admin u) (Filters.admin f))
  then with_admin prev (admin u) else prev.

Definition adoptGroup (u : URLParams) (f prev : Filters.t) : Filters.t :=
  if negb (sameJSON sameValue (group u) (Filters.group f))
  then with_group prev (group u) else prev.

(** [handleHashChange], outside the initialisation window. *)
Definition handleHashChange (v : View) (searchParams : URLSearchParams.t)
    : View :=
  let f := filters v in
  let urlParams := parseURLParams searchParams (itemsPerPage v) in
  let v1 :=
    if negb (strictEq (page urlParams) (currentPage v))
    then set_page v (page urlParams) else v in
  let v2 :=
    if negb (limit urlParams =? itemsPerPage v)
    then set_itemsPerPage v1 (limit urlParams) else v1 in
  set_filters v2
    (adoptGroup urlParams f
       (adoptAdmin urlParams f
          (adoptStatus urlParams f
             (adoptSearch urlParams f
                (adoptSort urlParams f f))))).

(** What the user and the browser can do to the table. *)
Inductive Event : Type :=
| TypeSearch (term : string)
| PickStatus (value : StatusValue)
| SubmitAdvanceSearch (values : AdvanceSearchFormValue)
| ClearAdvanceSearch
| ChangePage (newPage : number)
| ChangeItemsPerPage (value : Z)
| Sort (column : string) (fromDropdown : bool)
| SortLockExpired
| HashChange (searchParams : URLSearchParams.t).

Definition handle (v : View) (ev : Event) : View :=
  match ev with
  | TypeSearch term => handleFilterChange v (searchChange term)
  | PickStatus value => handleStatusFilter v value
  | SubmitAdvanceSearch values => handleAdvanceSearchSubmit v values
  | ClearAdvanceSearch => handleClearAdvanceSearch v
  | ChangePage p => handlePageChange v p
  | ChangeItemsPerPage n => handleItemsPerPageChange v n
  | Sort column fromDropdown => handleSort v column fromDropdown
  | SortLockExpired => sortLockExpired v
  | HashChange sp => handleHashChange v sp
  end.

(** One event and the render that follows it: the effect on
    [currentPage, itemsPerPage] runs when one of the two has changed. *)
Definition step (v : View) (ev : Event) : View :=
  let v' := handle v ev in
  if sameValue (currentPage v') (currentPage v)
     && (itemsPerPage v' =? itemsPerPage v)
  then v' else syncEffect v'.

(** The states of the table after it was mounted on some query. *)
Inductive reachable : View -> Prop :=
| reach_mount sp usersPerPage :
    reachable (getInitialStateFromURL (parseURLParams sp usersPerPage))
| reach_step v ev : reachable v -> reachable (step v ev).

(** The offset follows the page: [offset = currentPage * itemsPerPage],
    with [limit = itemsPerPage]. *)
Definition offsetFollowsPage (v : View) : Prop :=
  Filters.offset (filters v) = mul (currentPage v) (Int (itemsPerPage v))
  /\ Filters.limit (filters v) = itemsPerPage v.

(** [hasActiveAdvanceFilters] and [getActiveFiltersCount] of [Filters]. *)
Definition hasActiveAdvanceFilters (f : Filters.t) : bool :=
  match Filters.admin f with Some (_ :: _) => true | _ => false end
  || match Filters.group f with Some (_ :: _) => true | _ => false end
  || match Filters.status f with Some _ => true | None => false end.

Definition getActiveFiltersCount (f : Filters.t) : Z :=
  let count := 0 in
  let count :=
    match Filters.admin f with Some (_ :: _) => count + 1 | _ => count end in
  let count :=
    match Filters.group f with Some (_ :: _) => count + 1 | _ => count end in
  let count :=
    match Filters.status f with Some _ => count + 1 | None => count end in
  count.

(** The search fields after a hash change. *)
Definition adoptedSearch (f : Filters.t) (u : URLParams)
    : option string * option string * bool :=
  if negb (sameText (search u) (Filters.search f))
     && negb (sameText (search u) (Filters.proxy_id f))
  then if isProtocol u then (None, search u, true)
       else (search u, None, false)
  else (Filters.search f, Filters.proxy_id f, Filters.is_protocol f).

End UsersView.

(* ================================================================== *)
(** ** Order-keeping selections of a list *)
(* ================================================================== *)

Module Seqs.

(** [l1] is [l2] with some entries left out. *)
Inductive Subsequence {A : Type} : list A -> list A -> Prop :=
| sub_nil l : Subsequence [] l
| sub_take x l1 l2 : Subsequence l1 l2 -> Subsequence (x :: l1) (x :: l2)
| sub_skip x l1 l2 : Subsequence l1 l2 -> Subsequence l1 (x :: l2).

End Seqs.

(* ================================================================== *)
(** ** Debounced search: what a call can commit *)
(* ================================================================== *)

Module DebouncedLog.
Import JS DebouncedSearch.

(** The value a call commits if its timer gets to run. *)
Definition committedValue (call : Z * string) : option string :=
  orUndefined (Some (snd call)).

(** What the debouncer currently holds back, as a commit to come. *)
Definition heldBack (h : Hook) : list (option string) :=
  match pending h with
  | Some (value, _) => [orUndefined (Some value)]
  | None => []
  end.

End DebouncedLog.

(* ================================================================== *)
(** ** Node filters: the badge on the filter button *)
(* ================================================================== *)

Module NodeFilters.
Import NodesList.

(** [hasActiveAdvanceFilters] of [NodeFilters] *)
Definition hasActiveAdvanceFilters (f : Filters) : bool :=
  match status f with Some (_ :: _) => true | _ => false end
  || match core_id f with Some _ => true | None => false end.

(** [getActiveFiltersCount] of [NodeFilters] *)
Definition getActiveFiltersCount (f : Filters) : Z :=
  let count := 0 in
  let count :=
    match status f with Some (_ :: _) => count + 1 | _ => count end in
  let count :=
    match core_id f with Some _ => count + 1 | None => count end in
  count.

(** The page indices [0 .. n-1]. *)
Definition pageIndices (n : Z) : list Z :=
  map Z.of_nat (seq 0 (Z.to_nat n)).

End NodeFilters.

(* ================================================================== *)
(** ** Relative time with one unit *)
(* ================================================================== *)

Module RelativeTimeShort.
Import JS RelativeTime.

Section Texts.

Variable instant : Type.
Variable diff : instant -> instant -> TimeUnit -> Z.
Variable add : instant -> Z -> TimeUnit -> instant.
Variable t : string -> string.

(** The text of [OnlineStatus] and of [formatTimeAgo], once the last
    contact is more than a minute ago: the first unit that is not zero,
    seconds when every larger one is. *)
Definition timeAgoText (u : Units) : string :=
  if years u >? 0 then
    append (toString (years u))
      (append " " (append (t (unitKey (years u) year))
                     (append " " (t "time.ago"))))
  else if months u >? 0 then
    append (toString (months u))
      (append " " (append (t (unitKey (months u) month))
                     (append " " (t "time.ago"))))
  else if days u >? 0 then
    append (toString (days u))
      (append " " (append (t (unitKey (days u) day))
                     (append " " (t "time.ago"))))
  else if hours u >? 0 then
    append (toString (hours u))
      (append " " (append (t (unitKey (hours u) hour))
                     (append " " (t "time.ago"))))
  else if minutes u >? 0 then
    append (toString (minutes u))
      (append " " (append (t (unitKey (minutes u) minute))
                     (append " " (t "time.ago"))))
  else
    append (toString (seconds u))
      (append " " (append (t (unitKey (seconds u) second))
                     (append " " (t "time.ago")))).

(** The text of [OnlineStatus]. *)
Definition onlineStatusText (lastOnline : option instant)
    (currentTime : instant) : string :=
  match lastOnline with
  | None => t "notConnectedYet"
  | Some lastOnlineTime =>
      let diffInSeconds := diff currentTime lastOnlineTime second in
      if diffInSeconds <=? 60 then t "online"
      else timeAgoText (breakDown instant diff add currentTime lastOnlineTime)
  end.

(** [formatTimeAgo(timestamp, t)] of the subscription clients dialog. *)
Definition formatTimeAgo (pastTime currentTime : instant) : string :=
  let diffInSeconds := diff currentTime pastTime second in
  if diffInSeconds <=? 60 then t "justNow"
  else timeAgoText (breakDown instant diff add currentTime pastTime).

(** [getOnlineTimeText] of the username column: a number and a unit
    letter, or nothing while the user is online or was never seen. *)
Definition shortText (u : Units) : string :=
  if years u >? 0 then append (toString (years u)) "y"
  else if months u >? 0 then append (toString (months u)) "mo"
  else if days u >? 0 then append (toString (days u)) "d"
  else if hours u >? 0 then append (toString (hours u)) "h"
  else if minutes u >? 0 then append (toString (minutes u)) "m"
  else append (toString (seconds u)) "s".

Definition getOnlineTimeText (onlineAt : option instant)
    (currentTime : instant) : option string :=
  match onlineAt with
  | None => None
  | Some lastOnlineTime =>
      let diffInSeconds := diff currentTime lastOnlineTime second in
      if diffInSeconds <=? 60 then None
      else Some (shortText
                   (breakDown instant diff add currentTime lastOnlineTime))
  end.

End Texts.

(** The unit letters of [getOnlineTimeText]. *)
Definition unitLetter (u : TimeUnit) : string :=
  match u with
  | year => "y" | month => "mo" | day => "d"
  | hour => "h" | minute => "m" | second => "s"
  end.

End RelativeTimeShort.

(* ================================================================== *)
(** ** Days and seconds ([dateUtils]) *)
(* ================================================================== *)

Module DateUtils.

Definition SECONDS_A_DAY : Z := 24 * 60 * 60.

(** [Math.round] of the fraction [n / d] with [d > 0]: the nearest
    integer, halves going up. *)
Definition roundDiv (n d : Z) : Z := (2 * n + d) / (2 * d).

(** [daysToSeconds(days)] for a whole number of days, on which
    [Math.round] changes nothing; the product is that of the code as
    long as it is a safe integer ([JS.MAX_SAFE_INTEGER]). *)
Definition daysToSeconds (days : option Z) : option Z :=
  match days with
  | None => None
  | Some d => if d =? 0 then None else Some (d * SECONDS_A_DAY)
  end.

(** [secondsToDays(seconds)] for a whole number of seconds that is a
    safe integer, where the rounded quotient of the code is the nearest
    integer of the exact one. *)
Definition secondsToDays (seconds : option Z) : option Z :=
  match seconds with
  | None => None
  | Some s => if s =? 0 then None else Some (roundDiv s SECONDS_A_DAY)
  end.

End DateUtils.

(* ================================================================== *)
(** ** The selector panel of the bulk pages *)
(* ================================================================== *)

Module SelectorPanel.
Import JS.

(** [SelectorItem]: a group carries a [name], a user or an admin a
    [username]. *)
Inductive SelectorItem : Type :=
| Group (id : Z) (name : string)
| User (id : Z) (username : string).

Inductive SearchKey : Type := KName | KUsername.

(** [item[itemValueKey]], the key being ['id']. *)
Definition itemId (item : SelectorItem) : Z :=
  match item with Group id _ => id | User id _ => id end.

(** The text the search looks at: the field [searchKey] names when the
    item has it, the empty string otherwise. *)
Definition searchValue (searchKey : SearchKey) (item : SelectorItem) : string :=
  match searchKey, item with
  | KName, Group _ name => name
  | KUsername, User _ username => username
  | _, _ => ""
  end.

(** [selected.includes(id)] *)
Definition includesId (selected : list Z) (id : Z) : bool :=
  existsb (Z.eqb id) selected.

(** [handleSelectAll]: what it passes to [setSelected]. *)
Definition handleSelectAll (items : list SelectorItem) : list Z :=
  filter (fun id => negb (id =? -1)) (map itemId items).

(** [handleDeselectAll] *)
Definition handleDeselectAll : list Z := [].

(** [filteredItems] *)
Definition filteredItems (items : list SelectorItem) (searchKey : SearchKey)
    (search : string) : list SelectorItem :=
  filter (fun item =>
            includes (toLowerCase (searchValue searchKey item))
                     (toLowerCase search))
         items.

(** [handleItemToggle(id)]: what it passes to [setSelected]. *)
Definition handleItemToggle (selected : list Z) (id : Z) : list Z :=
  if includesId selected id
  then filter (fun selectedId => negb (selectedId =? id)) selected
  else selected ++ [id].

(** [allFilteredSelected] *)
Definition allFilteredSelected (items : list SelectorItem)
    (searchKey : SearchKey) (search : string) (selected : list Z) : bool :=
  (Z.of_nat (List.length (filteredItems items searchKey search)) >? 0)
  && forallb (fun item => includesId selected (itemId item))
       (filteredItems items searchKey search).

(** A run of clicks on items, from the first to the last. *)
Definition toggles (selected : list Z) (clicks : list Z) : list Z :=
  fold_left handleItemToggle clicks selected.

End SelectorPanel.

(* ================================================================== *)
(** ** The first message of a tree of form errors *)
(* ================================================================== *)

Module FormErrors.
Import JS.

(** The values an error object of the form library is made of.  The
    properties of an object are listed in the order of [Object.keys];
    their names are distinct. *)
#[local] Set Warnings "-register-all".

Inductive Value : Type :=
| VUndefined
| VNull
| VBool (b : bool)
| VNumber (n : number)
| VString (s : string)
| VArray (items : list Value)
| VObject (props : list (string * Value)).

(** [!v] is false *)
Definition truthyValue (v : Value) : bool :=
  match v with
  | VUndefined | VNull => false
  | VBool b => b
  | VNumber (Int z) => negb (z =? 0)
  | VNumber NaN => false
  | VString s => truthy s
  | VArray _ | VObject _ => true
  end.

(** [obj[key]] *)
Fixpoint getProp (props : list (string * Value)) (key : string)
    : option Value :=
  match props with
  | [] => None
  | (k, v) :: rest => if String.eqb k key then Some v else getProp rest key
  end.

(** [extractFirstMessage(errObj)] of [onInvalid] *)
Fixpoint extractFirstMessage (errObj : Value) : option string :=
  if negb (truthyValue errObj) then None
  else
    match errObj with
    | VArray items =>
        (fix each (l : list Value) : option string :=
           match l with
           | [] => None
           | item :: rest =>
               match extractFirstMessage item with
               | Some msg => if truthy msg then Some msg else each rest
               | None => each rest
               end
           end) items
    | VObject props =>
        let keys :=
          (fix each (l : list (string * Value)) : option string :=
             match l with
             | [] => None
             | (_, v) :: rest =>
                 match extractFirstMessage v with
                 | Some msg => if truthy msg then Some msg else each rest
                 | None => each rest
                 end
             end) props in
        match getProp props "message" with
        | Some (VString message) =>
            if truthy message then Some message else keys
        | _ => keys
        end
    | _ => None
    end.

(** [w] is [v] or lies inside it, under array entries and object
    properties. *)
Inductive Within : Value -> Value -> Prop :=
| within_here v : Within v v
| within_item items item w :
    In item items -> Within item w -> Within (VArray items) w
| within_prop props k v w :
    In (k, v) props -> Within v w -> Within (VObject props) w.

(** [w] is an object whose [message] is the non-empty string [m]. *)
Definition carries (w : Value) (m : string) : Prop :=
  exists props,
    w = VObject props /\ getProp props "message" = Some (VString m)
    /\ m <> "".

End FormErrors.

(* ================================================================== *)
(** ** The subscription clients dialog *)
(* ================================================================== *)

Module SubscriptionClients.
Import JS.

Record ClientInfo : Type := mkClientInfo {
  name : string;
  isKnownClient : bool
}.

(** [list.includes(s)] on an array of strings *)
Definition includesString (l : list string) (s : string) : bool :=
  existsb (String.eqb s) l.

(** The second part of [detectOS]: what is known of the client app. *)
Definition detectOSFromClient (clientInfo : option ClientInfo) : string :=
  match clientInfo with
  | Some ci =>
      if isKnownClient ci then
        let clientName := toLowerCase (name ci) in
        if includesString
             ["v2rayng"; "pharos"; "napsternetv"; "oneclick"; "matsuri";
              "sagernet"; "nekobox"; "foxray"; "xraypb"] clientName
        then "Android"
        else if includesString ["shadowrocket"; "quantumult"; "surge"]
                  clientName
        then "iOS"
        else if String.eqb clientName "v2rayn" then "Windows"
        else if String.eqb clientName "streisand" then "Linux"
        else if String.eqb clientName "v2box"
                || includesString ["hiddify"; "fairvpn"] clientName
        then "Android"
        else "Unknown"
      else "Unknown"
  | None => "Unknown"
  end.

(** [detectOS(userAgent, clientInfo)] *)
Definition detectOS (userAgent : string) (clientInfo : option ClientInfo)
    : string :=
  let ua := toLowerCase userAgent in
  if includes ua "ubuntu" then "Ubuntu"
  else if includes ua "debian" then "Debian"
  else if includes ua "centos" then "CentOS"
  else if includes ua "rhel" || includes ua "red hat" then "RHEL"
  else if includes ua "fedora" then "Fedora"
  else if includes ua "opensuse" || includes ua "suse" then "openSUSE"
  else if includes ua "arch" then "Arch"
  else if includes ua "manjaro" then "Manjaro"
  else if includes ua "gentoo" then "Gentoo"
  else if includes ua "slackware" then "Slackware"
  else if includes ua "iphone" || includes ua "ipad" || includes ua "ipod"
          || includes ua "ios" || includes ua "darwin"
          || includes ua "cfnetwork"
          || (includes ua "mobile safari"
              && (includes ua "version/" || includes ua "cpu iphone os"))
  then "iOS"
  else if includes ua "android" then "Android"
  else if includes ua "windows nt" || includes ua "windows phone"
          || includes ua "win32" || includes ua "win64"
          || (includes ua "windows" && negb (includes ua "windows phone"))
  then "Windows"
  else if includes ua "mac os x" || includes ua "macos"
          || includes ua "macintosh" || includes ua "mac_powerpc"
          || includes ua "macintel"
  then "macOS"
  else if includes ua "cros" || includes ua "chromebook" then "Chrome OS"
  else if includes ua "freebsd" then "FreeBSD"
  else if includes ua "openbsd" then "OpenBSD"
  else if includes ua "netbsd" then "NetBSD"
  else if includes ua "linux" && negb (includes ua "android") then "Linux"
  else if includes ua "solaris" || includes ua "sunos" then "Solaris"
  else if includes ua "hp-ux" || includes ua "hpu" then "HP-UX"
  else if includes ua "aix" then "AIX"
  else detectOSFromClient clientInfo.

Definition DEFAULT_BADGE : string := "bg-gray-400 hover:bg-gray-500".

(** [getOSBadgeColor(os)] *)
Definition getOSBadgeColor (os : string) : string :=
  let key := toLowerCase os in
  if String.eqb key "windows" then "bg-blue-500 hover:bg-blue-600"
  else if String.eqb key "macos" then "bg-gray-500 hover:bg-gray-600"
  else if String.eqb key "android" then "bg-green-500 hover:bg-green-600"
  else if String.eqb key "ios" then "bg-purple-500 hover:bg-purple-600"
  else if String.eqb key "linux" then "bg-orange-500 hover:bg-orange-600"
  else if String.eqb key "ubuntu" then "bg-orange-600 hover:bg-orange-700"
  else if String.eqb key "debian" then "bg-red-500 hover:bg-red-600"
  else if String.eqb key "centos" then "bg-purple-600 hover:bg-purple-700"
  else if String.eqb key "rhel" then "bg-red-600 hover:bg-red-700"
  else if String.eqb key "fedora" then "bg-blue-600 hover:bg-blue-700"
  else if String.eqb key "opensuse" then "bg-green-600 hover:bg-green-700"
  else if String.eqb key "arch" then "bg-blue-700 hover:bg-blue-800"
  else if String.eqb key "manjaro" then "bg-emerald-600 hover:bg-emerald-700"
  else if String.eqb key "gentoo" then "bg-purple-700 hover:bg-purple-800"
  else if String.eqb key "slackware" then "bg-blue-800 hover:bg-blue-900"
  else if String.eqb key "chrome os" then "bg-yellow-600 hover:bg-yellow-700"
  else if String.eqb key "freebsd" then "bg-red-700 hover:bg-red-800"
  else if String.eqb key "openbsd" then "bg-orange-700 hover:bg-orange-800"
  else if String.eqb key "netbsd" then "bg-yellow-700 hover:bg-yellow-800"
  else if String.eqb key "solaris" then "bg-orange-800 hover:bg-orange-900"
  else if String.eqb key "hp-ux" then "bg-gray-600 hover:bg-gray-700"
  else if String.eqb key "aix" then "bg-indigo-600 hover:bg-indigo-700"
  else DEFAULT_BADGE.

(** The names [detectOS] gives to systems it recognises from a Linux
    distribution keyword. *)
Definition distributions : list string :=
  ["Ubuntu"; "Debian"; "CentOS"; "RHEL"; "Fedora"; "openSUSE"; "Arch"].

(** The names [detectOS] can give. *)
Definition osNames : list string :=
  distributions
  ++ ["Manjaro"; "Gentoo"; "Slackware"; "iOS"; "Android"; "Windows"; "macOS";
      "Chrome OS"; "FreeBSD"; "OpenBSD"; "NetBSD"; "Linux"; "Solaris";
      "HP-UX"; "AIX"; "Unknown"].

Definition itemsPerPage : Z := 20.

(** [Math.ceil(subUpdateList.count / itemsPerPage)], 0 while there is no
    list. *)
Definition totalPages (subUpdateList : option Z) : Z :=
  match subUpdateList with
  | Some count => - ((- count) / itemsPerPage)
  | None => 0
  end.

Definition hasNextPage (subUpdateList : option Z) (currentPage : Z) : bool :=
  currentPage <? totalPages subUpdateList - 1.

Definition hasPrevPage (currentPage : Z) : bool := currentPage >? 0.

Definition handleNextPage (subUpdateList : option Z) (currentPage : Z) : Z :=
  if hasNextPage subUpdateList currentPage then currentPage + 1
  else currentPage.

Definition handlePrevPage (currentPage : Z) : Z :=
  if hasPrevPage currentPage then currentPage - 1 else currentPage.

Inductive PageClick : Type := ClickNext | ClickPrev.

Definition click (subUpdateList : option Z) (currentPage : Z)
    (c : PageClick) : Z :=
  match c with
  | ClickNext => handleNextPage subUpdateList currentPage
  | ClickPrev => handlePrevPage currentPage
  end.

(** The dialog opens on page 0; [clicks] are the clicks since. *)
Definition pageAfter (subUpdateList : option Z) (clicks : list PageClick) : Z :=
  fold_left (click subUpdateList) clicks 0.

End SubscriptionClients.

(* ================================================================== *)
(** ** The bulk wizard: expiry amounts and targets *)
(* ================================================================== *)

Module BulkFlow.
Import JS.

Inductive ExpiryUnit : Type := seconds | minutes | hours | days | months.

Inductive Operation : Type := add | subtract.

Inductive BulkOperationType : Type := proxy | data | expire | groups.

Inductive GroupsOperation : Type := gadd | gremove.

(** The effect on [expireAmount] and [expireUnit]: what it passes to
    [setExpireSeconds]; the amount is a whole number whose seconds are a
    safe integer ([JS.MAX_SAFE_INTEGER]). *)
Definition expireSecondsEffect (expireAmount : option Z)
    (expireUnit : ExpiryUnit) : option Z :=
  match expireAmount with
  | None => None
  | Some num =>
      if num <=? 0 then None
      else
        let seconds := num in
        let seconds :=
          match expireUnit with
          | minutes => num * 60
          | hours => num * 3600
          | days => num * 86400
          | months => num * 2592000
          | seconds => seconds
          end in
        Some seconds
  end.

(** The [amount] of the expire payload:
    [expireOperation === 'subtract' ? -expireSeconds! : expireSeconds] *)
Definition expirePayloadAmount (expireOperation : Operation)
    (expireSeconds : option Z) : option number :=
  match expireOperation, expireSeconds with
  | subtract, Some s => Some (Int (- s))
  | subtract, None => Some NaN
  | add, Some s => Some (Int s)
  | add, None => None
  end.

(** [canProceedToNext()] at step 1 of an expire operation *)
Definition canProceedExpireStep1 (expireAmount : option Z) : bool :=
  match expireAmount with Some a => a >? 0 | None => false end.

(** [canProceedToNext()] at step 2 of an expire operation *)
Definition canProceedExpireStep2 (expireSeconds : option Z) : bool :=
  match expireSeconds with Some _ => true | None => false end.

(** [formatTime(seconds)] on a whole number of seconds that is a safe
    integer *)
Definition formatTime (secs : Z) : string :=
  if secs <? 60 then append (toString secs) "s"
  else if secs <? 3600
  then append (toString (DateUtils.roundDiv secs 60)) "m"
  else if secs <? 86400
  then append (toString (DateUtils.roundDiv secs 3600)) "h"
  else if secs <? 2592000
  then append (toString (DateUtils.roundDiv secs 86400)) "d"
  else append (toString (DateUtils.roundDiv secs 2592000)) "mo".

(** The selections the targets are counted from. *)
Record Targets : Type := mkTargets {
  selectedGroups : list Z;
  selectedUsers : list Z;
  selectedAdmins : list Z;
  selectedHasGroups : list Z
}.

Definition len (l : list Z) : Z := Z.of_nat (List.length l).

(** [handleApply]: [true] when it opens the confirmation dialog,
    [false] when it shows the no-targets error instead. *)
Definition handleApply (operationType : BulkOperationType)
    (groupsOperation : GroupsOperation) (sel : Targets) : bool :=
  let totalTargets :=
    len (selectedUsers sel) + len (selectedAdmins sel)
    + len (selectedGroups sel) + len (selectedHasGroups sel) in
  match operationType, groupsOperation with
  | groups, gremove => negb (totalTargets =? 0)
  | _, _ => true
  end.

(** [totalTargets] of the confirmation dialog *)
Definition totalTargets (operationType : BulkOperationType) (sel : Targets)
    : Z :=
  len (selectedUsers sel) + len (selectedAdmins sel)
  + len (selectedGroups sel)
  + match operationType with
    | groups => len (selectedHasGroups sel)
    | _ => 0
    end.

(** [isApplyToAll]: the dialog asks about ALL users, admins and groups. *)
Definition isApplyToAll (operationType : BulkOperationType) (sel : Targets)
    : bool :=
  totalTargets operationType sel =? 0.

(** [nextStep] and [prevStep] *)
Definition nextStep (currentStep : Z) : Z :=
  if currentStep <? 3 then currentStep + 1 else currentStep.

Definition prevStep (currentStep : Z) : Z :=
  if currentStep >? 1 then currentStep - 1 else currentStep.

End BulkFlow.

(* ================================================================== *)
(** ** Thousands separators ([formatByte]) *)
(* ================================================================== *)

Module FormatByte.
Import JS.

Definition isDigit (c : ascii) : bool :=
  let n := nat_of_ascii c in (48 <=? n)%nat && (n <=? 57)%nat.

(** A word character of a regular expression: a letter, a digit or
    the underscore. *)
Definition isWordChar (c : ascii) : bool :=
  let n := nat_of_ascii c in
  isDigit c
  || ((65 <=? n)%nat && (n <=? 90)%nat)
  || ((97 <=? n)%nat && (n <=? 122)%nat)
  || (n =? 95)%nat.

(** The number of digits a string starts with. *)
Fixpoint digitRun (s : string) : nat :=
  match s with
  | String c rest => if isDigit c then S (digitRun rest) else 0%nat
  | EmptyString => 0%nat
  end.

(** [(?=(\d{3})+(?!\d))]: what follows starts with one or more groups
    of three digits and then no further digit, that is, with a run of
    digits whose length is a multiple of three and not zero. *)
Definition lookahead (s : string) : bool :=
  let run := digitRun s in
  (0 <? run)%nat && (run mod 3 =? 0)%nat.

(** [\B]: the characters before and after the position are both word
    characters or both not; the ends of the string count as not. *)
Definition notWordBoundary (prev : option ascii) (s : string) : bool :=
  Bool.eqb
    (match prev with Some c => isWordChar c | None => false end)
    (match s with String c _ => isWordChar c | EmptyString => false end).

(** [s.replace(/\B(?=(\d{3})+(?!\d))/g, ',')] from a position on, [prev]
    being the character before it: a comma is put at every position
    the expression matches. *)
Fixpoint replaceFrom (prev : option ascii) (s : string) : string :=
  let mark :=
    if notWordBoundary prev s && lookahead s then "," else "" in
  match s with
  | String c rest => append mark (String c (replaceFrom (Some c) rest))
  | EmptyString => mark
  end.

(** [numberWithCommas(x)] of a whole number that is a safe integer
    ([MAX_SAFE_INTEGER]), or of [null] or [undefined]. *)
Definition numberWithCommas (x : option Z) : string :=
  match x with
  | None => "0"
  | Some z => replaceFrom None (toString z)
  end.

(** The digit [d] as a character, and a number below 1000 as three
    digits. *)
Definition digitChar (d : Z) : ascii := ascii_of_nat (48 + Z.to_nat d).

Definition threeDigits (r : Z) : string :=
  String (digitChar (r / 100))
    (String (digitChar (r / 10 mod 10)) (String (digitChar (r mod 10)) "")).

Fixpoint allDigits (s : string) : bool :=
  match s with
  | String c rest => isDigit c && allDigits rest
  | EmptyString => true
  end.

(** The same three digits as a decimal numeral. *)
Definition mkdigit (d : Z) (l : uint) : uint :=
  match d with
  | 0 => D0 l | 1 => D1 l | 2 => D2 l | 3 => D3 l | 4 => D4 l
  | 5 => D5 l | 6 => D6 l | 7 => D7 l | 8 => D8 l | _ => D9 l
  end.

Definition digits3 (r : Z) : uint :=
  mkdigit (r / 100) (mkdigit (r / 10 mod 10) (mkdigit (r mod 10) Nil)).

End FormatByte.

(* ================================================================== *)
(** ** The date picker: picking a day and a time *)
(* ================================================================== *)

Module DatePicker.

(** A [Date] is its time value read in local time, in milliseconds;
    the offset of the time zone is taken as constant, so a local day
    has [MS_PER_DAY] milliseconds. *)
Definition Date : Type := Z.

Definition MS_PER_DAY : Z := 86400000.

(** [new Date(d.getFullYear(), d.getMonth(), d.getDate())]: the start
    of the local day of [d]. *)
Definition dateOnly (d : Date) : Date := d / MS_PER_DAY * MS_PER_DAY.

Definition getHours (d : Date) : Z := d / 3600000 mod 24.
Definition getMinutes (d : Date) : Z := d / 60000 mod 60.
Definition getSeconds (d : Date) : Z := d / 1000 mod 60.
Definition getMilliseconds (d : Date) : Z := d mod 1000.

(** [d.setHours(h, m, s, ms)]: the day of [d] with that time. *)
Definition setHours (d : Date) (h m s ms : Z) : Date :=
  dateOnly d + (h * 3600000 + m * 60000 + s * 1000 + ms).

(** [a.toDateString() === b.toDateString()] *)
Definition sameDay (a b : Date) : bool := a / MS_PER_DAY =? b / MS_PER_DAY.

(** [handleDateSelect(selectedDate)]: the date it stores and reports,
    [None] for [undefined]. *)
Definition handleDateSelect (minDate internalDate : option Date)
    (showTime : bool) (now : Date) (selectedDate : option Date)
    : option Date :=
  match selectedDate with
  | None => None
  | Some selectedDate =>
      let today := dateOnly now in
      let selectedDateOnly := dateOnly selectedDate in
      let past :=
        match minDate with
        | None => selectedDateOnly <? today
        | Some _ => false
        end in
      let selectedDate := if past then now else selectedDate in
      let selectedDateOnly :=
        if past then dateOnly selectedDate else selectedDateOnly in
      let isToday := selectedDateOnly =? today in
      Some
        (if isToday then setHours selectedDate 23 59 59 999
         else
           match internalDate, showTime with
           | Some internalDate, false =>
               setHours selectedDate (getHours internalDate)
                 (getMinutes internalDate) (getSeconds internalDate)
                 (getMilliseconds internalDate)
           | _, _ =>
               setHours selectedDate (getHours now) (getMinutes now)
                 (getSeconds now) (getMilliseconds now)
           end)
  end.

(** [handleTimeChange]: the time field gives hours and minutes;
    seconds and milliseconds stay.  [None] when nothing is stored. *)
Definition handleTimeChange (internalDate : option Date) (now : Date)
    (value : option (Z * Z)) : option Date :=
  match internalDate, value with
  | Some internalDate, Some (hours, minutes) =>
      let newDate :=
        setHours internalDate hours minutes (getSeconds internalDate)
          (getMilliseconds internalDate) in
      Some (if sameDay newDate now && (newDate <? now) then now else newDate)
  | _, _ => None
  end.

End DatePicker.

(* ================================================================== *)
(** * Properties *)
(* ================================================================== *)

(** ** The pagination window *)

Module PaginationProps.
Import Pagination.

Example window_20_10 :
  getPaginationRange 10 20 = [0; -1; 8; 9; 10; 11; 12; -1; 19].
Proof. reflexivity. Qed.

Example window_10_0 :
  getPaginationRange 0 10 = [0; 1; 2; 3; 4; 5; -1; 9].
Proof. reflexivity. Qed.

Example window_3 : getPaginationRange 7 3 = [0; 1; 2].
Proof. reflexivity. Qed.

Lemma pushFrom_length i n : List.length (pushFrom i n) = n.
Proof.
  revert i; induction n as [|n IH]; intros i; simpl; [reflexivity|].
  now rewrite IH.
Qed.

Lemma pushFrom_In i n x :
  In x (pushFrom i n) <-> i <= x < i + Z.of_nat n.
Proof.
  revert i; induction n as [|n IH]; intros i; simpl.
  - split; [tauto | lia].
  - rewrite IH. lia.
Qed.

Lemma pushFrom_seq i n :
  pushFrom i n = map (fun k => i + Z.of_nat k) (seq 0 n).
Proof.
  revert i; induction n as [|n IH]; intros i; simpl; [reflexivity|].
  rewrite IH, <- seq_shift, map_map. f_equal; [lia|].
  apply map_ext; intros k; lia.
Qed.

Lemma pushFrom_pages i n : 0 <= i -> pages (pushFrom i n) = pushFrom i n.
Proof.
  revert i; induction n as [|n IH]; intros i Hi; simpl; [reflexivity|].
  unfold pages in *; simpl.
  destruct (Z.eqb_spec i ELLIPSIS) as [E|_]; [unfold ELLIPSIS in E; lia|].
  simpl. now rewrite IH by lia.
Qed.

Lemma windowTail_weaken p p' l :
  p' <= p -> windowTail p l -> windowTail p' l.
Proof.
  intros Hle H; destruct H; constructor; auto; lia.
Qed.

Lemma windowTail_range n : forall p s rest,
  p < s ->
  windowTail (s + Z.of_nat n - 1) rest ->
  windowTail p (pushFrom s n ++ rest).
Proof.
  induction n as [|n IH]; intros p s rest Hps Hrest; simpl.
  - apply windowTail_weaken with (p := s + Z.of_nat 0 - 1); [lia | exact Hrest].
  - apply wt_page; [exact Hps|].
    apply IH; [lia|].
    replace (s + 1 + Z.of_nat n - 1) with (s + Z.of_nat (S n) - 1) by lia.
    exact Hrest.
Qed.

Lemma windowTail_above p l :
  0 <= p -> windowTail p l -> Forall (fun x => p < x) (pages l).
Proof.
  intros Hp H; induction H as [p|p q l Hpq H IH|p q l Hpq H IH].
  - constructor.
  - unfold pages; simpl.
    destruct (Z.eqb_spec q ELLIPSIS) as [E|_]; [unfold ELLIPSIS in E; lia|].
    simpl; constructor; [exact Hpq|].
    specialize (IH ltac:(lia)).
    eapply Forall_impl; [|exact IH]. simpl; intros; lia.
  - unfold pages; simpl.
    destruct (Z.eqb_spec q ELLIPSIS) as [E|_]; [unfold ELLIPSIS in E; lia|].
    simpl; constructor; [lia|].
    specialize (IH ltac:(lia)).
    eapply Forall_impl; [|exact IH]. simpl; intros; lia.
Qed.

Lemma windowTail_sorted p l :
  0 <= p -> windowTail p l -> StronglySorted Z.lt (p :: pages l).
Proof.
  intros Hp H; induction H as [p|p q l Hpq H IH|p q l Hpq H IH].
  - repeat constructor.
  - pose proof (windowTail_above p (q :: l) Hp (wt_page _ _ _ Hpq H)) as Hab.
    constructor; [|exact Hab].
    specialize (IH ltac:(lia)).
    unfold pages in *; simpl in *.
    destruct (Z.eqb_spec q ELLIPSIS) as [E|_]; [unfold ELLIPSIS in E; lia|].
    exact IH.
  - pose proof (windowTail_above p _ Hp (wt_gap _ _ _ Hpq H)) as Hab.
    constructor; [|exact Hab].
    specialize (IH ltac:(lia)).
    unfold pages in *; simpl in *.
    destruct (Z.eqb_spec q ELLIPSIS) as [E|_]; [unfold ELLIPSIS in E; lia|].
    exact IH.
Qed.

Lemma windowTail_gaps p l :
  0 <= p -> windowTail p l -> ellipsisOnlyAtGaps (p :: l).
Proof.
  intros Hp H; induction H as [p|p q l Hpq H IH|p q l Hpq H IH];
    intros l1 l2 E.
  - destruct l1 as [|a [|b l1]]; simpl in E; try discriminate E.
    injection E as E. unfold ELLIPSIS in *; lia.
  - destruct l1 as [|a l1]; simpl in E; injection E as E1 E2.
    + unfold ELLIPSIS in *; lia.
    + destruct (IH ltac:(lia) l1 l2 E2)
        as (l1' & a' & b & l2' & -> & -> & Ha & Hb & Hab).
      exists (p :: l1'), a', b, l2'. subst a. repeat split; auto.
  - destruct l1 as [|a l1]; simpl in E; injection E as E1 E2.
    + unfold ELLIPSIS in *; lia.
    + subst a. destruct l1 as [|e l1]; simpl in E2.
      * injection E2 as E4. exists [], p, q, l. subst l2.
        repeat split; unfold ELLIPSIS in *; lia.
      * injection E2 as E3 E4. destruct (IH ltac:(lia) l1 l2 E4)
          as (l1' & a & b & l2' & -> & -> & Ha & Hb & Hab).
        exists (p :: e :: l1'), a, b, l2'. repeat split; auto.
Qed.

Lemma last_cons_In (l : list Z) : forall z d, In (last (z :: l) d) (z :: l).
Proof.
  induction l as [|a l IH]; intros z d.
  - now left.
  - right. change (last (z :: a :: l) d) with (last (a :: l) d). apply IH.
Qed.

(** The shape behind all the invariants: the window starts at page 0 and
    continues with a well-formed tail. *)
Lemma window_shape currentPage totalPages :
  0 <= currentPage < totalPages ->
  exists l, getPaginationRange currentPage totalPages = 0 :: l
            /\ windowTail 0 l.
Proof.
  intros Hcp. unfold getPaginationRange, pushRange, delta.
  destruct (Z.leb_spec totalPages 5) as [Hs|Hb].
  - replace (totalPages - 1 - 0 + 1) with totalPages by lia.
    destruct (Z.to_nat totalPages) as [|k] eqn:Ek; [lia|].
    simpl. eexists; split; [reflexivity|].
    rewrite <- (app_nil_r (pushFrom _ _)).
    apply windowTail_range; [lia | constructor].
  - set (e := if currentPage - 2 <=? 1 then _ else _).
    set (s := if currentPage + 2 >=? totalPages - 2 then _ else _).
    assert (Hs : 1 <= s /\ s <= e /\ e <= totalPages - 2).
    { subst s e.
      destruct (Z.leb_spec (currentPage - 2) 1);
        destruct (Z.geb_spec (currentPage + 2) (totalPages - 2)); lia. }
    destruct Hs as (Hs1 & Hse & He).
    assert (Hlast : windowTail e
              ((if e <? totalPages - 2 then [ELLIPSIS] else [])
               ++ (if totalPages >? 1 then [totalPages - 1] else []))).
    { destruct (Z.gtb_spec totalPages 1); [|lia].
      destruct (Z.ltb_spec e (totalPages - 2)); simpl.
      - apply wt_gap; [lia | constructor].
      - apply wt_page; [lia | constructor]. }
    simpl. eexists; split; [reflexivity|].
    destruct (Z.to_nat (e - s + 1)) as [|k] eqn:Ek; [lia|].
    assert (Hk : s + 1 + Z.of_nat k - 1 = e) by lia.
    destruct (Z.gtb_spec s 1); simpl.
    + apply wt_gap; [lia|].
      apply windowTail_range; [lia|]. rewrite Hk. exact Hlast.
    + apply wt_page; [lia|].
      apply windowTail_range; [lia|]. rewrite Hk. exact Hlast.
Qed.

Lemma window_length currentPage totalPages :
  0 <= currentPage < totalPages ->
  (List.length (getPaginationRange currentPage totalPages) <= 9)%nat.
Proof.
  intros Hcp. unfold getPaginationRange, pushRange, delta.
  destruct (Z.leb_spec totalPages 5).
  - rewrite pushFrom_length. lia.
  - set (e := if currentPage - 2 <=? 1 then _ else _).
    set (s := if currentPage + 2 >=? totalPages - 2 then _ else _).
    rewrite !length_app, pushFrom_length.
    destruct (Z.ltb_spec e (totalPages - 2)); destruct (Z.gtb_spec s 1);
      destruct (Z.gtb_spec totalPages 1); subst s e;
      destruct (Z.leb_spec (currentPage - 2) 1);
      destruct (Z.geb_spec (currentPage + 2) (totalPages - 2));
      simpl List.length; lia.
Qed.

Lemma window_ends currentPage totalPages :
  5 < totalPages ->
  hd_error (getPaginationRange currentPage totalPages) = Some 0
  /\ last (getPaginationRange currentPage totalPages) ELLIPSIS
     = totalPages - 1.
Proof.
  intros Hb. unfold getPaginationRange.
  destruct (Z.leb_spec totalPages 5); [lia|].
  split; [reflexivity|].
  destruct (Z.gtb_spec totalPages 1); [|lia].
  rewrite !app_assoc. apply last_last.
Qed.

(** C6: with at most five pages the window lists every page
    [0 .. totalPages-1] (nothing when there is no page) and has no
    ellipsis, whatever the current page is. *)
Theorem small_window_lists_all_pages currentPage totalPages :
  totalPages <= 5 ->
  getPaginationRange currentPage totalPages
    = map Z.of_nat (seq 0 (Z.to_nat totalPages))
  /\ ~ In ELLIPSIS (getPaginationRange currentPage totalPages).
Proof.
  intros Hs. unfold getPaginationRange, pushRange.
  destruct (Z.leb_spec totalPages 5); [|lia].
  replace (totalPages - 1 - 0 + 1) with totalPages by lia.
  split.
  - rewrite pushFrom_seq. apply map_ext; intros k; lia.
  - rewrite pushFrom_In. unfold ELLIPSIS; lia.
Qed.

Lemma small_window_lists_all_pages_witness :
  3 <= 5 /\ getPaginationRange 7 3 = [0; 1; 2]
  /\ getPaginationRange 0 0 = [].
Proof.
  split; [lia|]. split.
  - exact (proj1 (small_window_lists_all_pages 7 3 ltac:(lia))).
  - exact (proj1 (small_window_lists_all_pages 0 0 ltac:(lia))).
Defined.

(** C5: for a current page inside [0, totalPages) the listed page
    indices go up strictly (markers aside), the window has at most
    [2*delta + 5 = 9] entries, it starts with page 0 and ends with page
    [totalPages-1] once there are more than five pages, and an ellipsis
    stands only between two listed pages that are not neighbours. *)
Theorem window_invariants currentPage totalPages :
  0 <= currentPage < totalPages ->
  let r := getPaginationRange currentPage totalPages in
  StronglySorted Z.lt (pages r)
  /\ (List.length r <= Z.to_nat (2 * delta + 5))%nat
  /\ (5 < totalPages ->
      hd_error r = Some 0 /\ last r ELLIPSIS = totalPages - 1
      /\ In 0 r /\ In (totalPages - 1) r)
  /\ ellipsisOnlyAtGaps r.
Proof.
  intros Hcp r.
  destruct (window_shape currentPage totalPages Hcp) as (l & El & Hl).
  repeat split.
  - subst r; rewrite El.
    change (pages (0 :: l)) with (0 :: pages l).
    apply windowTail_sorted; [lia | exact Hl].
  - exact (window_length currentPage totalPages Hcp).
  - now apply window_ends.
  - now apply window_ends.
  - subst r; rewrite El; now left.
  - destruct (window_ends currentPage totalPages H) as [_ E].
    subst r. rewrite <- E. rewrite El. apply last_cons_In.
  - subst r; rewrite El. apply windowTail_gaps; [lia | exact Hl].
Qed.

Lemma window_invariants_witness :
  0 <= 10 < 20
  /\ StronglySorted Z.lt (pages (getPaginationRange 10 20))
  /\ (List.length (getPaginationRange 10 20) <= 9)%nat.
Proof.
  split; [lia|].
  pose proof (window_invariants 10 20 ltac:(lia)) as (Hs & Hl & _).
  split; [exact Hs | exact Hl].
Defined.

(** Whatever the arguments, a listed entry is a marker or a page index
    from 0. *)
Lemma window_entries currentPage totalPages x :
  In x (getPaginationRange currentPage totalPages) ->
  x = ELLIPSIS \/ 0 <= x.
Proof.
  unfold getPaginationRange, pushRange, delta.
  destruct (Z.leb_spec totalPages 5).
  - rewrite pushFrom_In. lia.
  - rewrite !in_app_iff, pushFrom_In. simpl.
    intros [[<-|[]] | [Hi | [Hi | [Hi | Hi]]]].
    + lia.
    + destruct (_ >? 1); simpl in Hi; intuition.
    + destruct (Z.geb_spec (currentPage + 2) (totalPages - 2)); lia.
    + destruct (_ <? _); simpl in Hi; intuition.
    + destruct (Z.gtb_spec totalPages 1); simpl in Hi; [|tauto].
      destruct Hi as [<-|[]]. lia.
Qed.

End PaginationProps.

(** ** JavaScript built-ins *)

Module JSProps.
Import JS.

Example parseInt_examples :
  parseInt "12" = Int 12 /\ parseInt "  -7px" = Int (-7)
  /\ parseInt "+3" = Int 3 /\ parseInt "abc" = NaN
  /\ parseInt "" = NaN /\ parseInt "-" = NaN /\ parseInt "007" = Int 7.
Proof. repeat split; reflexivity. Qed.

Example toString_examples :
  toString 0 = "0" /\ toString 42 = "42" /\ toString (-15) = "-15".
Proof. repeat split; reflexivity. Qed.

Lemma takeDigits_string_of_uint u :
  takeDigits (NilEmpty.string_of_uint u) = u.
Proof.
  induction u as [|u IH|u IH|u IH|u IH|u IH|u IH|u IH|u IH|u IH|u IH];
    simpl; [reflexivity| rewrite IH; reflexivity ..].
Qed.

Lemma trimStart_string_of_uint u :
  trimStart (NilEmpty.string_of_uint u) = NilEmpty.string_of_uint u.
Proof. destruct u; reflexivity. Qed.

Lemma parseInt_unsigned u :
  u <> Nil -> parseInt (NilEmpty.string_of_uint u) = Int (Z.of_int (Pos u)).
Proof.
  intros Hu. unfold parseInt. rewrite trimStart_string_of_uint.
  assert (E : (match NilEmpty.string_of_uint u with
               | String "-" r => (true, r)
               | String "+" r => (false, r)
               | _ => (false, NilEmpty.string_of_uint u)
               end) = (false, NilEmpty.string_of_uint u))
    by (destruct u; reflexivity).
  rewrite E, takeDigits_string_of_uint.
  destruct u; [contradiction | reflexivity ..].
Qed.

Lemma parseInt_negative u :
  u <> Nil ->
  parseInt (String "-" (NilEmpty.string_of_uint u)) = Int (Z.of_int (Neg u)).
Proof.
  intros Hu. unfold parseInt.
  change (trimStart (String "-" (NilEmpty.string_of_uint u)))
    with (String "-" (NilEmpty.string_of_uint u)).
  cbv iota beta. rewrite takeDigits_string_of_uint.
  destruct u; [contradiction | reflexivity ..].
Qed.

Lemma nilzero_nonnil u :
  u <> Nil -> NilZero.string_of_uint u = NilEmpty.string_of_uint u.
Proof. destruct u; [contradiction | reflexivity ..]. Qed.

(** Printing an integer and reading it back gives the integer. *)
Lemma parseInt_toString z : parseInt (toString z) = Int z.
Proof.
  unfold toString. rewrite <- (DecimalZ.of_to z) at 2.
  destruct z as [|p|p]; [reflexivity| |]; simpl Z.to_int;
    pose proof (DecimalPos.Unsigned.to_uint_nonnil p) as Hn;
    unfold NilZero.string_of_int; rewrite (nilzero_nonnil _ Hn).
  - now apply parseInt_unsigned.
  - now apply parseInt_negative.
Qed.

Lemma toString_truthy z : truthy (toString z) = true.
Proof.
  unfold toString.
  destruct z as [|p|p]; [reflexivity| |]; simpl Z.to_int;
    pose proof (DecimalPos.Unsigned.to_uint_nonnil p) as Hn;
    unfold NilZero.string_of_int; rewrite (nilzero_nonnil _ Hn);
    [destruct (Pos.to_uint p); [contradiction | reflexivity ..] | reflexivity].
Qed.

Lemma orUndefined_truthy s : truthy s = true -> orUndefined (Some s) = Some s.
Proof. intros H; simpl; now rewrite H. Qed.

Lemma orUndefined_idem x : orUndefined (orUndefined x) = orUndefined x.
Proof.
  destruct x as [s|]; simpl; [|reflexivity].
  destruct (truthy s) eqn:E; simpl; [now rewrite E | reflexivity].
Qed.

Lemma orUndefined_Some x s : orUndefined x = Some s -> truthy s = true.
Proof.
  destruct x as [s'|]; simpl; [|discriminate].
  destruct (truthy s') eqn:E; [|discriminate]. now intros [= <-].
Qed.

Lemma truthy_nonempty s : truthy s = true <-> s <> "".
Proof. destruct s; simpl; split; congruence. Qed.

(** [slice] on a page: the page-th run of [n] entries. *)
Lemma sliceArray_page {A} (l : list A) p n :
  0 <= p -> 0 < n ->
  sliceArray l (p * n) (p * n + n)
  = firstn (Z.to_nat n) (skipn (Z.to_nat p * Z.to_nat n) l).
Proof.
  intros Hp Hn. unfold sliceArray.
  destruct (Z.ltb_spec (p * n) 0) as [H|_]; [nia|].
  destruct (Z.ltb_spec (p * n + n) 0) as [H|_]; [nia|].
  set (len := Z.of_nat (List.length l)).
  assert (E : (Z.to_nat p * Z.to_nat n)%nat = Z.to_nat (p * n))
    by (rewrite Z2Nat.inj_mul; lia).
  rewrite E.
  destruct (Z_le_gt_dec (p * n) len) as [Hle | Hgt].
  - rewrite (Z.min_l (p * n) len) by lia.
    destruct (Z_le_gt_dec (p * n + n) len) as [Hle2 | Hgt2].
    + rewrite (Z.min_l (p * n + n) len) by lia. f_equal. lia.
    + rewrite (Z.min_r (p * n + n) len) by lia.
      rewrite (firstn_all2 (n := Z.to_nat n)).
      * apply firstn_all2. rewrite length_skipn. subst len. lia.
      * rewrite length_skipn. subst len. lia.
  - rewrite (Z.min_r (p * n) len) by lia.
    rewrite (Z.min_r (p * n + n) len) by nia.
    rewrite Z.sub_diag. cbn [Z.to_nat firstn].
    rewrite (skipn_all2 (n := Z.to_nat (p * n))); [now rewrite firstn_nil|].
    subst len. lia.
Qed.

End JSProps.

(** ** Users table: the URL round trip *)

Module UsersTableProps.
Import JS JSProps UsersTable.

Lemma get_app sp1 sp2 k :
  URLSearchParams.get (sp1 ++ sp2) k
  = match URLSearchParams.get sp1 k with
    | Some v => Some v
    | None => URLSearchParams.get sp2 k
    end.
Proof.
  induction sp1 as [|[k' v'] sp1 IH]; simpl; [reflexivity|].
  destruct (String.eqb k' k); [reflexivity | exact IH].
Qed.

Lemma getAll_app sp1 sp2 k :
  URLSearchParams.getAll (sp1 ++ sp2) k
  = URLSearchParams.getAll sp1 k ++ URLSearchParams.getAll sp2 k.
Proof.
  unfold URLSearchParams.getAll. now rewrite filter_app, map_app.
Qed.

Lemma fold_append {A} (k : string) (f : A -> string) (l : list A) :
  forall sp,
    fold_left (fun acc a => URLSearchParams.append acc k (f a)) l sp
    = sp ++ map (fun a => (k, f a)) l.
Proof.
  induction l as [|a l IH]; intros sp; simpl.
  - now rewrite app_nil_r.
  - rewrite IH. unfold URLSearchParams.append.
    now rewrite <- app_assoc.
Qed.

Lemma get_tagged_other {A} k k' (f : A -> string) l :
  String.eqb k k' = false ->
  URLSearchParams.get (map (fun a => (k, f a)) l) k' = None.
Proof.
  intros E; induction l as [|a l IH]; simpl; [reflexivity|].
  now rewrite E.
Qed.

Lemma getAll_tagged_other {A} k k' (f : A -> string) l :
  String.eqb k k' = false ->
  URLSearchParams.getAll (map (fun a => (k, f a)) l) k' = [].
Proof.
  intros E; unfold URLSearchParams.getAll.
  induction l as [|a l IH]; simpl; [reflexivity|].
  now rewrite E.
Qed.

Lemma getAll_tagged_same {A} k (f : A -> string) l :
  URLSearchParams.getAll (map (fun a => (k, f a)) l) k = map f l.
Proof.
  unfold URLSearchParams.getAll.
  induction l as [|a l IH]; simpl; [reflexivity|].
  rewrite String.eqb_refl. simpl. now rewrite IH.
Qed.

Lemma writeURLParams_layout usersPerPage v :
  writeURLParams usersPerPage v = queryLayout usersPerPage v.
Proof.
  unfold writeURLParams, queryLayout, activeSearch, protocolFlag, listOf.
  destruct (Filters.group (filters v)) as [gs|];
    destruct (Filters.admin (filters v)) as [ads|];
    rewrite ?fold_append, ?app_nil_r;
    rewrite ?app_assoc; repeat (f_equal; []);
    rewrite <- ?app_assoc;
    destruct (gt (currentPage v) (Int 0));
    destruct (itemsPerPage v =? usersPerPage);
    destruct (truthy (Filters.sort (filters v))
              && negb (String.eqb (Filters.sort (filters v)) DEFAULT_SORT));
    destruct (orUndefined (Filters.search (filters v)));
    destruct (orUndefined (Filters.proxy_id (filters v)));
    destruct (Filters.is_protocol (filters v));
    destruct (Filters.status (filters v));
    reflexivity.
Qed.

Ltac layout_get :=
  unfold queryLayout, activeSearch, protocolFlag;
  rewrite ?get_app, ?getAll_app;
  rewrite ?get_tagged_other by reflexivity;
  match goal with
  | v : View |- _ =>
      destruct (gt (currentPage v) (Int 0));
      destruct (itemsPerPage v =? _);
      destruct (truthy (Filters.sort (filters v))
                && negb (String.eqb (Filters.sort (filters v)) DEFAULT_SORT));
      destruct (orUndefined (Filters.proxy_id (filters v)));
      destruct (orUndefined (Filters.search (filters v)));
      destruct (Filters.is_protocol (filters v));
      destruct (Filters.status (filters v))
  end;
  rewrite ?app_nil_r; reflexivity.

Lemma layout_page d v :
  URLSearchParams.get (queryLayout d v) "page"
  = if gt (currentPage v) (Int 0)
    then Some (numberToString (add (currentPage v) (Int 1))) else None.
Proof. layout_get. Qed.

Lemma layout_limit d v :
  URLSearchParams.get (queryLayout d v) "limit"
  = if itemsPerPage v =? d then None else Some (toString (itemsPerPage v)).
Proof. layout_get. Qed.

Lemma layout_sort d v :
  URLSearchParams.get (queryLayout d v) "sort"
  = if truthy (Filters.sort (filters v))
       && negb (String.eqb (Filters.sort (filters v)) DEFAULT_SORT)
    then Some (Filters.sort (filters v)) else None.
Proof. layout_get. Qed.

Lemma layout_search d v :
  URLSearchParams.get (queryLayout d v) "search" = activeSearch (filters v).
Proof. layout_get. Qed.

Lemma layout_is_protocol d v :
  URLSearchParams.get (queryLayout d v) "is_protocol"
  = if protocolFlag (filters v) then Some "true" else None.
Proof. layout_get. Qed.

Lemma layout_status d v :
  URLSearchParams.get (queryLayout d v) "status"
  = option_map statusString (Filters.status (filters v)).
Proof. layout_get. Qed.

Lemma getAll_tagged_id k (l : list string) :
  URLSearchParams.getAll (map (fun a => (k, a)) l) k = l.
Proof.
  rewrite (getAll_tagged_same k (fun a => a)). apply map_id.
Qed.

Lemma layout_admin d v :
  URLSearchParams.getAll (queryLayout d v) "admin"
  = listOf (Filters.admin (filters v)).
Proof.
  unfold queryLayout. rewrite !getAll_app.
  rewrite getAll_tagged_id.
  rewrite (getAll_tagged_other "group" "admin") by reflexivity.
  layout_get.
Qed.

Lemma layout_group d v :
  URLSearchParams.getAll (queryLayout d v) "group"
  = map numberToString (listOf (Filters.group (filters v))).
Proof.
  unfold queryLayout. rewrite !getAll_app.
  rewrite (getAll_tagged_same "group").
  rewrite (getAll_tagged_other "admin" "group") by reflexivity.
  layout_get.
Qed.

Lemma parseStatus_statusString st :
  parseStatus (Some (statusString st)) = Some st.
Proof. destruct st; reflexivity. Qed.

Lemma filter_truthy_all l :
  Forall (fun a => truthy a = true) l -> filter truthy l = l.
Proof.
  induction 1 as [|a l Ha _ IH]; simpl; [reflexivity|].
  now rewrite Ha, IH.
Qed.

Lemma groups_read_back gs :
  Forall (fun g => isNaN g = false) gs ->
  filter (fun g => negb (isNaN g)) (map parseInt (map numberToString gs))
  = gs.
Proof.
  induction 1 as [|g gs Hg _ IH]; simpl; [reflexivity|].
  destruct g as [z|]; [|discriminate].
  simpl. rewrite parseInt_toString. simpl. now rewrite IH.
Qed.

(** Reading back what the write-back effect stored, for any state of
    the view that meets the invariants of the list state. *)
Lemma parse_write_view d v :
  (exists p, currentPage v = Int p /\ 0 <= p) ->
  0 < itemsPerPage v ->
  Filters.sort (filters v) <> "" ->
  Forall (fun a => truthy a = true) (listOf (Filters.admin (filters v))) ->
  Forall (fun g => isNaN g = false) (listOf (Filters.group (filters v))) ->
  parseURLParams (writeURLParams d v) d
  = {| page := currentPage v;
       limit := itemsPerPage v;
       sort := Filters.sort (filters v);
       search := activeSearch (filters v);
       status := Filters.status (filters v);
       admin := nonEmpty (listOf (Filters.admin (filters v)));
       group := nonEmpty (listOf (Filters.group (filters v)));
       isProtocol := protocolFlag (filters v) |}.
Proof.
  intros (p & Ep & Hp) Hl Hs Ha Hg.
  rewrite writeURLParams_layout. unfold parseURLParams.
  rewrite layout_page, layout_limit, layout_sort, layout_search,
    layout_is_protocol, layout_status, layout_admin, layout_group.
  f_equal.
  - rewrite Ep. simpl. destruct (Z.gtb_spec p 0) as [Hp0|Hp0].
    + rewrite orUndefined_truthy by apply toString_truthy.
      rewrite parseInt_toString. simpl. f_equal. lia.
    + simpl. f_equal. lia.
  - destruct (Z.eqb_spec (itemsPerPage v) d) as [E|E].
    + unfold orElse; simpl. rewrite parseInt_toString. rewrite <- E.
      now destruct (itemsPerPage v >? 0).
    + unfold orElse. rewrite orUndefined_truthy by apply toString_truthy.
      rewrite parseInt_toString.
      destruct (Z.gtb_spec (itemsPerPage v) 0); [reflexivity | lia].
  - apply truthy_nonempty in Hs. rewrite Hs. simpl.
    destruct (String.eqb_spec (Filters.sort (filters v)) DEFAULT_SORT)
      as [E|E]; simpl.
    + now rewrite E.
    + unfold orElse. now rewrite orUndefined_truthy.
  - unfold activeSearch.
    destruct (orUndefined (Filters.proxy_id (filters v))) eqn:E1.
    + apply orUndefined_truthy. eapply orUndefined_Some; exact E1.
    + apply orUndefined_idem.
  - destruct (Filters.status (filters v)) as [st|]; simpl; [|reflexivity].
    destruct st; reflexivity.
  - now rewrite filter_truthy_all.
  - now rewrite groups_read_back.
  - now destruct (protocolFlag (filters v)).
Qed.

Lemma parse_write_init d u :
  wellFormed u ->
  parseURLParams (writeURLParams d (getInitialStateFromURL u)) d
  = omitEmpty u.
Proof.
  intros [Hp Hl Hs Ha Hg].
  rewrite parse_write_view; simpl; auto.
  unfold omitEmpty, activeSearch, protocolFlag; simpl. f_equal.
  - destruct (isProtocol u); simpl; [|reflexivity].
    rewrite orUndefined_idem. now destruct (orUndefined (search u)).
  - destruct (isProtocol u); simpl; [|reflexivity].
    now destruct (orUndefined (orUndefined (search u))).
Qed.

Lemma listOf_nonEmpty {A} (l : list A) : listOf (nonEmpty l) = l.
Proof. destruct l; reflexivity. Qed.

Lemma safeNumber_notNaN g : safeNumber g -> isNaN g = false.
Proof. destruct g; [reflexivity | intros []]. Qed.

Lemma safeView_invariants v :
  safeView v ->
  (exists p, currentPage v = Int p /\ 0 <= p)
  /\ 0 < itemsPerPage v
  /\ Filters.sort (filters v) <> ""
  /\ Forall (fun a => truthy a = true) (listOf (Filters.admin (filters v)))
  /\ Forall (fun g => isNaN g = false) (listOf (Filters.group (filters v))).
Proof.
  intros [(p & Ep & Hp) Hl Hs Ha Hg].
  split; [exists p; split; [exact Ep | lia]|].
  split; [lia|]. split; [exact Hs|]. split; [exact Ha|].
  eapply Forall_impl; [|exact Hg]. intros g. apply safeNumber_notNaN.
Qed.





Lemma Math_max_lower x z : Math_max (Int 0) x = Int z -> 0 <= z.
Proof. destruct x; simpl; [intros [= <-]; lia | discriminate]. Qed.

Lemma orElse_truthy x d : truthy d = true -> truthy (orElse x d) = true.
Proof.
  intros Hd. unfold orElse.
  destruct (orUndefined x) eqn:E; [|exact Hd].
  eapply orUndefined_Some; exact E.
Qed.

(** Every state the parser yields from a query with a numeric page
    meets the invariants, and has no empty optional field. *)
Lemma parsed_state_wellFormed sp d :
  0 < d ->
  page (parseURLParams sp d) <> NaN ->
  wellFormed (parseURLParams sp d)
  /\ omitEmpty (parseURLParams sp d) = parseURLParams sp d.
Proof.
  intros Hd Hpage. split.
  - constructor.
    + destruct (page (parseURLParams sp d)) as [z|] eqn:E; [|contradiction].
      exists z; split; [reflexivity|].
      unfold parseURLParams in E; cbn [page] in E.
      eapply Math_max_lower; exact E.
    + simpl.
      destruct (parseInt _) as [l|]; [|exact Hd].
      destruct (Z.gtb_spec l 0); lia.
    + simpl. apply truthy_nonempty, orElse_truthy. reflexivity.
    + simpl. rewrite listOf_nonEmpty.
      apply Forall_forall. intros a Ha. now apply filter_In in Ha.
    + simpl. rewrite listOf_nonEmpty.
      apply Forall_forall. intros g Hg. apply filter_In in Hg.
      destruct Hg as [_ Hg]. now destruct (isNaN g).
  - unfold omitEmpty, parseURLParams; simpl.
    now rewrite orUndefined_idem, !listOf_nonEmpty.
Qed.

(** The state loaded from a query with a numeric page survives being
    written back and parsed again. *)
Corollary parse_write_parse sp d :
  0 < d ->
  page (parseURLParams sp d) <> NaN ->
  parseURLParams
    (writeURLParams d (getInitialStateFromURL (parseURLParams sp d))) d
  = parseURLParams sp d.
Proof.
  intros Hd Hp.
  destruct (parsed_state_wellFormed sp d Hd Hp) as [W C].
  now rewrite parse_write_init.
Qed.

(** On a hash change the parser is given the current page size as the
    default; the page size written by the effect is read back then
    too. *)
Lemma hashchange_limit usersPerPage v :
  0 < itemsPerPage v ->
  limit (parseURLParams (writeURLParams usersPerPage v) (itemsPerPage v))
  = itemsPerPage v.
Proof.
  intros Hl. rewrite writeURLParams_layout.
  unfold parseURLParams; cbn [limit]. rewrite layout_limit.
  destruct (itemsPerPage v =? usersPerPage).
  - unfold orElse; simpl. rewrite parseInt_toString.
    now destruct (itemsPerPage v >? 0).
  - unfold orElse. rewrite orUndefined_truthy by apply toString_truthy.
    rewrite parseInt_toString.
    destruct (Z.gtb_spec (itemsPerPage v) 0); [reflexivity | lia].
Qed.

(** *** Invalid query values *)

(** A status outside the five known ones gives no status filter. *)
Lemma invalid_status_is_dropped sp d :
  (forall st, URLSearchParams.get sp "status" <> Some (statusString st)) ->
  status (parseURLParams sp d) = None.
Proof.
  intros H. simpl. unfold parseStatus.
  destruct (URLSearchParams.get sp "status") as [s|]; [|reflexivity].
  destruct (find _ validStatuses) as [st|] eqn:E; [|reflexivity].
  apply find_some in E. destruct E as [_ E].
  apply String.eqb_eq in E. subst s. now elim (H st).
Qed.

(** A limit that is not a number, or not positive, gives the default. *)
Lemma invalid_limit_is_default sp d s :
  URLSearchParams.get sp "limit" = Some s ->
  parseInt s = NaN \/ (exists l, parseInt s = Int l /\ l <= 0) ->
  limit (parseURLParams sp d) = d.
Proof.
  intros E H. simpl. rewrite E. unfold orElse, orUndefined.
  destruct (truthy s).
  - destruct H as [-> | (l & -> & Hl)]; [reflexivity|].
    destruct (Z.gtb_spec l 0); [lia | reflexivity].
  - rewrite parseInt_toString. now destruct (d >? 0).
Qed.

(** Group entries that are not numbers never reach the state. *)
Lemma invalid_groups_are_dropped sp d :
  Forall (fun g => exists z, g = Int z) (listOf (group (parseURLParams sp d))).
Proof.
  simpl. rewrite listOf_nonEmpty. apply Forall_forall.
  intros g Hg. apply filter_In in Hg. destruct Hg as [_ Hg].
  destruct g as [z|]; [now exists z | discriminate].
Qed.

(** When the page is present, the parser answers [NaN] exactly when the
    value does not start with a number. *)
Lemma page_of_query sp d s :
  URLSearchParams.get sp "page" = Some s -> truthy s = true ->
  page (parseURLParams sp d)
  = match parseInt s with
    | Int p => Int (Z.max 0 (p - 1))
    | NaN => NaN
    end.
Proof.
  intros E Ht. simpl. rewrite E. simpl. rewrite Ht.
  destruct (parseInt s) as [p|]; simpl; [|reflexivity].
  f_equal. lia.
Qed.

(** C2: for the query [page=abc] the parser does not fall back to the
    first page: [Math.max(0, NaN)] is [NaN], and the page index of the
    state, as well as the offset computed from it, is [NaN]. *)
Theorem nonnumeric_page_yields_NaN :
  let u := parseURLParams [("page", "abc")] 20 in
  page u = NaN
  /\ page u <> Int 0
  /\ currentPage (getInitialStateFromURL u) = NaN
  /\ Filters.offset (filters (getInitialStateFromURL u)) = NaN.
Proof. repeat split; try reflexivity. discriminate. Qed.

(** *** Sorting *)

Example sort_cycle_username :
  newSort DEFAULT_SORT "username" false = "username"
  /\ newSort "username" "username" false = "-username"
  /\ newSort "-username" "username" false = DEFAULT_SORT
  /\ newSort "-expire" "-expire" true = DEFAULT_SORT
  /\ newSort "expire" "-expire" true = "-expire".
Proof. repeat split; reflexivity. Qed.

Lemma dash_differs c : append "-" c <> c.
Proof.
  intros E. apply (f_equal String.length) in E. simpl in E.
  induction (String.length c); [discriminate | injection E as E; auto].
Qed.

Lemma dash_cleanColumn column :
  startsWithDash column = true -> append "-" (cleanColumn column) = column.
Proof.
  unfold cleanColumn. destruct column as [|a r]; simpl; [discriminate|].
  destruct (Ascii.eqb_spec a "-"%char) as [->|N]; [reflexivity|].
  destruct a as [[] [] [] [] [] [] [] []]; simpl; try discriminate.
  now elim N.
Qed.

Lemma plain_cleanColumn column :
  startsWithDash column = false -> cleanColumn column = column.
Proof. unfold cleanColumn. now intros ->. Qed.

(** [handleSort] changes nothing but the sort key and the lock. *)
Lemma handleSort_frame v column fromDropdown :
  let v' := handleSort v column fromDropdown in
  currentPage v' = currentPage v /\ itemsPerPage v' = itemsPerPage v
  /\ Filters.limit (filters v') = Filters.limit (filters v)
  /\ Filters.offset (filters v') = Filters.offset (filters v)
  /\ Filters.search (filters v') = Filters.search (filters v)
  /\ Filters.proxy_id (filters v') = Filters.proxy_id (filters v)
  /\ Filters.is_protocol (filters v') = Filters.is_protocol (filters v)
  /\ Filters.status (filters v') = Filters.status (filters v)
  /\ Filters.admin (filters v') = Filters.admin (filters v)
  /\ Filters.group (filters v') = Filters.group (filters v).
Proof.
  unfold handleSort. destruct (isSorting v); simpl; repeat split.
Qed.

(** While a sort is being applied, a further call is ignored. *)
Lemma handleSort_locked v column fromDropdown :
  isSorting v = true -> handleSort v column fromDropdown = v.
Proof. unfold handleSort. now intros ->. Qed.

(** C7: with no sort being applied, a header click ([fromDropdown =
    false]) on a column moves the sort key through the cycle: not on
    this column -> [column] (ascending) -> [-column] (descending) ->
    the default [-created_at]; a dropdown choice ([fromDropdown = true])
    of a direction sets that direction, and choosing the active one
    again goes straight back to the default. *)
Theorem handleSort_cycle v column :
  isSorting v = false ->
  let current := Filters.sort (filters v) in
  let c := cleanColumn column in
  let clicked := Filters.sort (filters (handleSort v column false)) in
  let chosen := Filters.sort (filters (handleSort v column true)) in
  (current <> c -> current <> append "-" c -> clicked = c)
  /\ (current = c -> clicked = append "-" c)
  /\ (current = append "-" c -> clicked = DEFAULT_SORT)
  /\ (current = column -> chosen = DEFAULT_SORT)
  /\ (current <> column -> chosen = column)
  /\ (startsWithDash column = false -> c = column).
Proof.
  intros Hlock current c clicked chosen.
  subst clicked chosen. unfold handleSort. rewrite Hlock.
  cbn [filters Filters.with_sort Filters.sort].
  fold current. unfold newSort. fold c.
  change (append "-" c) with (String "-"%char c).
  repeat split.
  - intros N1 N2.
    destruct (String.eqb_spec current c); [contradiction|].
    destruct (String.eqb_spec current (String "-"%char c)); [contradiction|].
    reflexivity.
  - intros E. destruct (String.eqb_spec current c); [reflexivity|].
    contradiction.
  - intros E. destruct (String.eqb_spec current c) as [E'|_].
    + rewrite E' in E. symmetry in E. now apply (dash_differs c) in E.
    + destruct (String.eqb_spec current (String "-"%char c));
        [reflexivity | contradiction].
  - intros E. destruct (startsWithDash column) eqn:D.
    + pose proof (dash_cleanColumn _ D) as Ec. fold c in Ec.
      change (append "-" c) with (String "-"%char c) in Ec. rewrite Ec.
      destruct (String.eqb_spec current column); [reflexivity|contradiction].
    + pose proof (plain_cleanColumn _ D) as Ec. fold c in Ec. rewrite Ec.
      destruct (String.eqb_spec current column); [reflexivity|contradiction].
  - intros N. destruct (startsWithDash column) eqn:D.
    + pose proof (dash_cleanColumn _ D) as Ec. fold c in Ec.
      change (append "-" c) with (String "-"%char c) in Ec. rewrite Ec.
      destruct (String.eqb_spec current column); [contradiction|reflexivity].
    + pose proof (plain_cleanColumn _ D) as Ec. fold c in Ec. rewrite Ec.
      destruct (String.eqb_spec current column); [contradiction|reflexivity].
  - apply plain_cleanColumn.
Qed.

Lemma handleSort_cycle_witness :
  let v0 := getInitialStateFromURL (parseURLParams [] 20) in
  let v1 := sortLockExpired (handleSort v0 "expire" false) in
  let v2 := sortLockExpired (handleSort v1 "expire" false) in
  let v3 := sortLockExpired (handleSort v2 "expire" false) in
  isSorting v0 = false
  /\ Filters.sort (filters v0) = "-created_at"
  /\ Filters.sort (filters v1) = "expire"
  /\ Filters.sort (filters v2) = "-expire"
  /\ Filters.sort (filters v3) = "-created_at".
Proof.
  intros v0 v1 v2 v3.
  split; [reflexivity|]. split; [reflexivity|].
  pose proof (handleSort_cycle v0 "expire" eq_refl) as (H1 & _).
  pose proof (handleSort_cycle v1 "expire" eq_refl) as (_ & H2 & _).
  pose proof (handleSort_cycle v2 "expire" eq_refl) as (_ & _ & H3 & _).
  split; [apply H1; discriminate|].
  split; [apply H2; reflexivity | apply H3; reflexivity].
Defined.

End UsersTableProps.

(** ** Debounced search *)

Module DebouncedSearchProps.
Import JS DebouncedSearch.

Example typing_abc :
  let h := advance 1000
             (run 300 [(0, "a"); (120, "ab"); (250, "abc")] (init "")) in
  search h = "abc" /\ debouncedSearch h = Some "abc"
  /\ commitLog h = [Some "abc"].
Proof. repeat split; reflexivity. Qed.

Example slow_typing_commits_twice :
  commitLog (advance 1000 (run 300 [(0, "a"); (400, "ab")] (init "")))
  = [Some "a"; Some "ab"].
Proof. reflexivity. Qed.

Lemma last_cons_default {A} (l : list A) : forall a d,
  last (a :: l) d = last l a.
Proof.
  induction l as [|c l IH]; intros a d; [reflexivity|].
  change (last (a :: c :: l) d) with (last (c :: l) d).
  now rewrite !IH.
Qed.

(** Through a rapid sequence nothing is committed, and at its end the
    debouncer holds the last value, due one delay after the last call. *)
Lemma run_rapid delay : forall rest t v h,
  pending h = Some (v, t + delay) ->
  search h = v ->
  rapid delay t rest ->
  let h' := run delay rest h in
  let last_call := last rest (t, v) in
  pending h' = Some (snd last_call, fst last_call + delay)
  /\ search h' = snd last_call
  /\ debouncedSearch h' = debouncedSearch h
  /\ commitLog h' = commitLog h.
Proof.
  induction rest as [|[t' v'] rest IH]; intros t v h Hp Hs Hr.
  - simpl. repeat split; [exact Hp | exact Hs].
  - cbn [run]. destruct Hr as (Hle & Hgap & Hr).
    set (h1 := handleSearchChange delay t' v' h).
    assert (E1 : pending h1 = Some (v', t' + delay)) by reflexivity.
    assert (E2 : debouncedSearch h1 = debouncedSearch h
                 /\ commitLog h1 = commitLog h).
    { subst h1. unfold handleSearchChange, advance. rewrite Hp.
      destruct (Z.leb_spec (t + delay) t'); [lia|]. split; reflexivity. }
    destruct (IH t' v' h1 E1 eq_refl Hr) as (I1 & I2 & I3 & I4).
    destruct E2 as [E2 E3].
    rewrite last_cons_default.
    repeat split; [exact I1 | exact I2 | congruence | congruence].
Qed.

(** C3, as the code has it: after a burst of [setSearch] calls whose
    gaps are all shorter than the delay, nothing is committed before
    the delay has elapsed since the last call; then exactly one commit
    happens, of the last value only, an empty last value being
    committed as [undefined], which is also the initial unset state. *)
Theorem debounce_commits_last_once delay t1 v1 rest h0 :
  pending h0 = None ->
  rapid delay t1 rest ->
  let calls := (t1, v1) :: rest in
  let tn := fst (last calls (t1, v1)) in
  let vn := snd (last calls (t1, v1)) in
  let h := run delay calls h0 in
  search h = vn
  /\ (forall T, T < tn + delay ->
        debouncedSearch (advance T h) = debouncedSearch h0
        /\ commitLog (advance T h) = commitLog h0)
  /\ (forall T, tn + delay <= T ->
        debouncedSearch (advance T h) = orUndefined (Some vn)
        /\ commitLog (advance T h) = commitLog h0 ++ [orUndefined (Some vn)]
        /\ pending (advance T h) = None).
Proof.
  intros Hp Hr calls tn vn h.
  set (h1 := handleSearchChange delay t1 v1 h0).
  assert (E1 : pending h1 = Some (v1, t1 + delay)) by reflexivity.
  assert (E2 : debouncedSearch h1 = debouncedSearch h0
               /\ commitLog h1 = commitLog h0).
  { subst h1. unfold handleSearchChange, advance. rewrite Hp.
    split; reflexivity. }
  destruct E2 as [E2 E3].
  destruct (run_rapid delay rest t1 v1 h1 E1 eq_refl Hr) as (I1 & I2 & I3 & I4).
  assert (El : last calls (t1, v1) = last rest (t1, v1))
    by (subst calls; apply last_cons_default).
  subst tn vn. rewrite El.
  change h with (run delay rest h1).
  split; [exact I2|]. split.
  - intros T HT. unfold advance. rewrite I1.
    destruct (Z.leb_spec (fst (last rest (t1, v1)) + delay) T); [lia|].
    split; congruence.
  - intros T HT. unfold advance. rewrite I1.
    destruct (Z.leb_spec (fst (last rest (t1, v1)) + delay) T); [|lia].
    unfold commit; cbn [debouncedSearch commitLog pending].
    repeat split. now rewrite I4, E3.
Qed.

Lemma debounce_commits_last_once_witness :
  let h := run 300 [(0, "a"); (120, "ab"); (250, "abc")] (init "") in
  rapid 300 0 [(120, "ab"); (250, "abc")]
  /\ commitLog (advance 549 h) = []
  /\ commitLog (advance 550 h) = [Some "abc"]
  /\ debouncedSearch (advance 550 h) = Some "abc".
Proof.
  intros h.
  assert (R : rapid 300 0 [(120, "ab"); (250, "abc")])
    by (simpl; repeat split; lia).
  split; [exact R|].
  pose proof (debounce_commits_last_once 300 0 "a"
                [(120, "ab"); (250, "abc")] (init "") eq_refl R)
    as (_ & Hbefore & Hafter).
  split; [exact (proj2 (Hbefore 549 ltac:(simpl; lia)))|].
  destruct (Hafter 550 ltac:(simpl; lia)) as (Hd & Hl & _).
  split; [exact Hl | exact Hd].
Defined.

(** The claim as worded fails on an empty last value: clearing the
    input commits [undefined], not the empty string, so the committed
    value is the one the hook started with. *)
Lemma empty_last_value_commits_unset :
  let h := advance 1000 (run 300 [(0, "a"); (100, "")] (init "")) in
  search h = ""
  /\ debouncedSearch h <> Some ""
  /\ debouncedSearch h = debouncedSearch (init "")
  /\ commitLog h = [None].
Proof. repeat split; try reflexivity. discriminate. Qed.

(** After the unmount clean-up the held-back value is never committed. *)
Lemma unmount_cancels h T :
  advance T (unmount h) = unmount h
  /\ commitLog (unmount h) = commitLog h
  /\ debouncedSearch (unmount h) = debouncedSearch h.
Proof. repeat split. Qed.

End DebouncedSearchProps.

(** ** Nodes list *)

Module NodesListProps.
Import JS JSProps NodesList.

Lemma prefix_spec t : forall s,
  prefix t s = true <-> exists post, s = append t post.
Proof.
  induction t as [|a t IH]; intros s.
  - destruct s; simpl; split; auto; intros _; eexists; reflexivity.
  - destruct s as [|b s]; simpl.
    + split; [discriminate | intros [post E]; discriminate E].
    + destruct (ascii_dec a b) as [->|N].
      * rewrite IH. split; intros [post E]; exists post.
        -- now rewrite E.
        -- now injection E.
      * split; [discriminate | intros [post E]; injection E as E1 _].
        now elim N.
Qed.

(** [includes] decides the occurrence of a substring. *)
Lemma includes_spec s : forall t, includes s t = true <-> Substring t s.
Proof.
  induction s as [|a s IH]; intros t.
  - cbn [includes]. rewrite orb_false_r, prefix_spec. split.
    + intros [post E]. exists "", post. exact E.
    + intros (pre & post & E). destruct pre; [|discriminate E].
      now exists post.
  - cbn [includes]. rewrite orb_true_iff, prefix_spec, IH. split.
    + intros [[post E] | (pre & post & E)].
      * exists "", post. exact E.
      * exists (String a pre), post. simpl. now rewrite E.
    + intros (pre & post & E). destruct pre as [|b pre].
      * left. now exists post.
      * right. exists pre, post. now injection E.
Qed.

Example includes_examples :
  includes "frankfurt-1" "furt" = true
  /\ includes "frankfurt-1" "" = true
  /\ includes "frankfurt-1" "Furt" = false
  /\ includes (toLowerCase "FrankFurt-1") (toLowerCase "FURT") = true
  /\ includes (toString 62050) "205" = true.
Proof. repeat split; reflexivity. Qed.

Lemma nodeMatches_spec searchLower node :
  nodeMatches searchLower node = true <->
  Substring searchLower (toLowerCase (name node))
  \/ Substring searchLower (toLowerCase (address node))
  \/ exists p, port node = Some p /\ Substring searchLower (toString p).
Proof.
  unfold nodeMatches. rewrite !orb_true_iff, !includes_spec.
  destruct (port node) as [p|].
  - rewrite includes_spec. split.
    + intros [[H|H]|H]; auto. right; right. now exists p.
    + intros [H|[H|(q & [= <-] & H)]]; auto.
  - split.
    + intros [[H|H]|H]; auto. discriminate.
    + intros [H|[H|(q & [=] & _)]]; auto.
Qed.

(** C10: a node passes the local filter exactly when the lowercased
    term occurs in its lowercased name, or in its lowercased address, or
    in the decimal text of its port; the letter case of the term plays
    no role, and no other field of the node does. *)
Theorem node_matches_iff term node :
  let searchLower := toLowerCase term in
  (nodeMatches searchLower node = true <->
     Substring searchLower (toLowerCase (name node))
     \/ Substring searchLower (toLowerCase (address node))
     \/ exists p, port node = Some p /\ Substring searchLower (toString p))
  /\ (forall term', toLowerCase term' = searchLower ->
        nodeMatches (toLowerCase term') node = nodeMatches searchLower node)
  /\ (forall node',
        name node' = name node -> address node' = address node ->
        port node' = port node ->
        nodeMatches searchLower node' = nodeMatches searchLower node).
Proof.
  intros searchLower. split; [apply nodeMatches_spec|]. split.
  - now intros term' ->.
  - intros node' En Ea Ep. unfold nodeMatches. now rewrite En, Ea, Ep.
Qed.

Lemma node_matches_iff_witness :
  nodeMatches (toLowerCase "FRANK") Samples.frankfurt = true
  /\ nodeMatches (toLowerCase "0.0.5") Samples.frankfurt = true
  /\ nodeMatches (toLowerCase "205") Samples.frankfurt = true
  /\ nodeMatches (toLowerCase "grpc") Samples.frankfurt = false
  /\ (Substring "frank" "frankfurt-1"
      \/ Substring "frank" "10.0.0.5"
      \/ exists p, Some 62050 = Some p /\ Substring "frank" (toString p)).
Proof.
  repeat split; try reflexivity.
  exact (proj1 (proj1 (node_matches_iff "FRANK" Samples.frankfurt)) eq_refl).
Defined.

(** The local filter keeps the nodes of the cached set, in order. *)
Lemma filteredNodes_local st :
  shouldUseLocalSearch st = true ->
  truthy (localSearchTerm st) = true ->
  allNodes st <> [] ->
  filteredNodes st
  = filter (nodeMatches (toLowerCase (localSearchTerm st))) (allNodes st).
Proof.
  intros H1 H2 H3. unfold filteredNodes. rewrite H1, H2. simpl.
  destruct (allNodes st); [contradiction|reflexivity].
Qed.

Lemma paginatedNodes_local st :
  shouldUseLocalSearch st = true ->
  truthy (localSearchTerm st) = true ->
  paginatedNodes st
  = sliceArray (filteredNodes st)
      (currentPage st * NODES_PER_PAGE)
      (currentPage st * NODES_PER_PAGE + NODES_PER_PAGE).
Proof. intros H1 H2. unfold paginatedNodes. now rewrite H1, H2. Qed.

(** C4: while the server total is between 1 and the page size and no
    server-side search is active, a search term is applied in memory:
    entering or changing the term leaves the fetch filters alone and
    shows the first 15 of the matching cached nodes, changing the page
    leaves the fetch filters alone, and the rendered page is the
    matching nodes without the first [currentPage * 15] of them, cut
    after 15: the slice [currentPage*15, currentPage*15+15). *)
Theorem local_search_in_memory st term newFilters newPage :
  shouldUseLocalSearch st = true ->
  truthy term = true ->
  p_search newFilters = Some (Some term) ->
  let st' := handleFilterChange st newFilters in
  filters st' = filters st
  /\ nodesResponse st' = nodesResponse st
  /\ localSearchTerm st' = term
  /\ currentPage st' = 0
  /\ shouldUseLocalSearch st' = true
  /\ (allNodes st <> [] ->
      paginatedNodes st'
      = firstn (Z.to_nat NODES_PER_PAGE)
          (filter (nodeMatches (toLowerCase term)) (allNodes st)))
  /\ (truthy (localSearchTerm st) = true ->
      filters (handlePageChange st newPage) = filters st
      /\ nodesResponse (handlePageChange st newPage) = nodesResponse st
      /\ (0 <= currentPage st ->
          paginatedNodes st
          = firstn (Z.to_nat NODES_PER_PAGE)
              (skipn (Z.to_nat (currentPage st) * Z.to_nat NODES_PER_PAGE)
                 (filteredNodes st)))
      /\ (allNodes st <> [] ->
          filteredNodes st
          = filter (nodeMatches (toLowerCase (localSearchTerm st)))
              (allNodes st))).
Proof.
  intros Hlocal Hterm Hnf st'.
  assert (E : st' = set_currentPage (set_localSearchTerm st term) 0).
  { subst st'. unfold handleFilterChange. rewrite Hnf, Hlocal.
    unfold hasSearch. rewrite (orUndefined_truthy _ Hterm). reflexivity. }
  assert (Hlocal' : shouldUseLocalSearch st' = true)
    by (rewrite E; exact Hlocal).
  assert (Hterm' : truthy (localSearchTerm st') = true)
    by (rewrite E; exact Hterm).
  split; [now rewrite E|]. split; [now rewrite E|].
  split; [now rewrite E|]. split; [now rewrite E|].
  split; [exact Hlocal'|]. split.
  - intros Hcache.
    rewrite (paginatedNodes_local st' Hlocal' Hterm').
    rewrite (filteredNodes_local st' Hlocal' Hterm')
      by (rewrite E; exact Hcache).
    rewrite E.
    change (currentPage (set_currentPage (set_localSearchTerm st term) 0))
      with 0.
    rewrite sliceArray_page by (unfold NODES_PER_PAGE; lia).
    reflexivity.
  - intros Hcur. split; [|split; [|split]].
    + unfold handlePageChange.
      destruct ((newPage =? currentPage st) || isChangingPage st);
        [reflexivity|].
      now rewrite Hlocal, Hcur.
    + unfold handlePageChange.
      destruct ((newPage =? currentPage st) || isChangingPage st);
        [reflexivity|].
      now rewrite Hlocal, Hcur.
    + intros Hpage. rewrite (paginatedNodes_local st Hlocal Hcur).
      now rewrite sliceArray_page by (unfold NODES_PER_PAGE; lia).
    + now apply filteredNodes_local.
Qed.

Lemma local_search_in_memory_witness :
  let st := Samples.loaded in
  let st' := handleFilterChange st (Samples.typed "TOK") in
  shouldUseLocalSearch st = true
  /\ filters st' = filters st
  /\ paginatedNodes st' = [Samples.tokyo]
  /\ filters (handlePageChange st' 1) = filters st.
Proof.
  cbv zeta.
  split; [reflexivity|].
  pose proof (local_search_in_memory Samples.loaded "TOK"
                (Samples.typed "TOK") 1 eq_refl eq_refl eq_refl)
    as (Hf & _ & _ & _ & Hl & Hp & _).
  split; [exact Hf|].
  split; [rewrite Hp; [reflexivity | discriminate]|].
  pose proof (local_search_in_memory
                (handleFilterChange Samples.loaded (Samples.typed "TOK"))
                "TOK" (Samples.typed "TOK") 1 Hl eq_refl eq_refl)
    as (_ & _ & _ & _ & _ & _ & Hpage).
  destruct (Hpage eq_refl) as (Hq & _).
  now rewrite Hq.
Defined.

(** Clearing the term from the first page does not change what is
    fetched either. *)
Lemma local_search_clear st :
  shouldUseLocalSearch st = true ->
  search (filters st) = None ->
  offset (filters st) = 0 ->
  let cleared := {| p_limit := None; p_offset := Some 0;
                    p_search := Some None; p_status := None;
                    p_core_id := None |} in
  filters (handleFilterChange st cleared) = filters st
  /\ localSearchTerm (handleFilterChange st cleared) = "".
Proof.
  intros Hlocal Hs Ho cleared. unfold handleFilterChange. simpl.
  rewrite Hs. simpl. rewrite andb_false_r. simpl.
  unfold merge; simpl. split; [|reflexivity].
  destruct (filters st) as [l o se stt c]; simpl in *. now subst.
Qed.

(** The cache effect stores the nodes of a small, unsearched first
    page. *)
Lemma cacheEffect_caches st r :
  nodesResponse st = Some r ->
  shouldUseLocalSearch st = true ->
  offset (filters st) = 0 ->
  allNodes (cacheEffect st) = nodes r.
Proof.
  intros Hr Hlocal Ho. unfold cacheEffect. rewrite Hr, Hlocal, Ho.
  unfold shouldUseLocalSearch in Hlocal.
  apply andb_true_iff in Hlocal. destruct Hlocal as [_ ->]. simpl.
  now destruct (isFirstLoadRef st).
Qed.

(** *** The page index *)

Lemma handlePageChange_page st p :
  currentPage (handlePageChange st p) = p
  \/ currentPage (handlePageChange st p) = currentPage st.
Proof.
  unfold handlePageChange.
  destruct ((p =? currentPage st) || isChangingPage st); [now right|].
  destruct (shouldUseLocalSearch st && truthy (localSearchTerm st));
    now left.
Qed.

Lemma handleFilterChange_page st nf :
  currentPage (handleFilterChange st nf) = 0
  \/ currentPage (handleFilterChange st nf) = currentPage st.
Proof.
  unfold handleFilterChange.
  destruct (shouldUseLocalSearch st && hasSearch _); [now left|].
  destruct (p_offset nf) as [o|]; [|now right].
  destruct (o =? 0); [now left | now right].
Qed.

Lemma clampEffect_page st :
  0 <= currentPage st -> 0 <= currentPage (clampEffect st).
Proof.
  intros H. unfold clampEffect.
  destruct (Z.gtb_spec (calculatedTotalPages st) 0); simpl; [|exact H].
  destruct (currentPage st >=? calculatedTotalPages st); simpl; lia.
Qed.

Lemma dispatch_page st ev :
  0 <= currentPage st -> 0 <= currentPage (dispatch st ev).
Proof.
  intros H. destruct ev; simpl.
  - destruct (handleFilterChange_page st newFilters) as [-> | ->]; lia.
  - destruct (paginationShown st); simpl; [|exact H].
    destruct (Z.eqb_spec (currentPage st) 0); simpl; [exact H|].
    destruct (isPageLoading st); simpl; [exact H|].
    destruct (handlePageChange_page st (currentPage st - 1)) as [-> | ->];
      lia.
  - destruct (paginationShown st && _); [|exact H].
    destruct (handlePageChange_page st (currentPage st + 1)) as [-> | ->];
      lia.
  - destruct (nth_error _ i) as [pageNumber|] eqn:E; [|exact H].
    apply nth_error_In, PaginationProps.window_entries in E.
    destruct (paginationShown st); simpl; [|exact H].
    destruct (Z.eqb_spec pageNumber Pagination.ELLIPSIS); simpl; [exact H|].
    destruct (isPageLoading st); simpl; [exact H|].
    destruct (handlePageChange_page st pageNumber) as [-> | ->]; lia.
  - lia.
  - lia.
  - exact H.
  - unfold cacheEffect.
    destruct (nodesResponse st); [|exact H].
    destruct (isFirstLoadRef st);
      destruct (shouldUseLocalSearch st && _ && _); exact H.
  - unfold fetchEffect.
    destruct (negb (isFetching st) && wasFetchingRef st && isChangingPage st);
      exact H.
  - unfold previousTotalPagesEffect.
    destruct (calculatedTotalPages st >? 0); exact H.
  - now apply clampEffect_page.
Qed.

(** C8: the page index of the nodes list never goes below 0, and when
    the page count is positive and no larger than the page index, the
    clamp effect sets the page to the last one and the fetch offset to
    that page's first row. *)
Theorem page_index_bounds :
  (forall st, reachable st -> 0 <= currentPage st)
  /\ (forall st,
        0 < calculatedTotalPages st ->
        calculatedTotalPages st <= currentPage st ->
        currentPage (clampEffect st) = calculatedTotalPages st - 1
        /\ offset (filters (clampEffect st))
           = (calculatedTotalPages st - 1) * NODES_PER_PAGE).
Proof.
  split.
  - intros st R. induction R as [|st ev R IH].
    + simpl; lia.
    + now apply dispatch_page.
  - intros st Hpos Hle. unfold clampEffect.
    destruct (Z.gtb_spec (calculatedTotalPages st) 0); [|lia].
    destruct (Z.geb_spec (currentPage st) (calculatedTotalPages st)); [|lia].
    split; reflexivity.
Qed.

Lemma page_index_bounds_witness :
  reachable Samples.loaded
  /\ 0 <= currentPage Samples.loaded
  /\ calculatedTotalPages Samples.shrunk = 2
  /\ currentPage Samples.shrunk = 3
  /\ currentPage (clampEffect Samples.shrunk) = 1
  /\ offset (filters (clampEffect Samples.shrunk)) = 15.
Proof.
  assert (R : reachable Samples.loaded) by (repeat constructor).
  split; [exact R|].
  split; [exact (proj1 page_index_bounds _ R)|].
  split; [reflexivity|]. split; [reflexivity|].
  exact (proj2 page_index_bounds Samples.shrunk
           ltac:(vm_compute; reflexivity) ltac:(vm_compute; discriminate)).
Defined.

End NodesListProps.

(** ** Relative-time texts *)

Module RelativeTimeProps.
Import JS RelativeTime.

Example utc_epoch :
  UTC.utc 1970 1 1 0 0 0 = 0
  /\ UTC.civil (UTC.utc 2024 2 29 13 5 7) = (2024, 2, 29)
  /\ UTC.add (UTC.utc 2024 1 31 0 0 0) 1 month = UTC.utc 2024 2 29 0 0 0
  /\ UTC.diff (UTC.utc 2021 3 4 0 0 0) (UTC.utc 2020 1 1 0 0 0) year = 1
  /\ UTC.diff (UTC.utc 2021 3 4 0 0 0) (UTC.utc 2020 1 1 0 0 0) month = 14
  /\ UTC.diff (UTC.utc 2020 1 1 0 0 0) (UTC.utc 2021 3 4 0 0 0) month = -14.
Proof. repeat split; vm_compute; reflexivity. Qed.

Example breakDown_example :
  breakDown UTC.instant UTC.diff UTC.add
    (UTC.utc 2021 3 4 7 30 15) (UTC.utc 2020 1 1 0 0 0)
  = mkUnits 1 2 3 7 30 15.
Proof. vm_compute. reflexivity. Qed.

Lemma tooltipSlots_form u :
  tooltipSlots u
  = calendarSlots u
    ++ firstn (2 - List.length (calendarSlots u))
         (listed (hours u) hour ++ listed (minutes u) minute)
    ++ (if (Z.of_nat (List.length (calendarSlots u)) =? 0)
           && negb (hours u >? 0) && negb (minutes u >? 0)
        then listed (seconds u) second else []).
Proof.
  unfold tooltipSlots, calendarSlots, listed, push.
  destruct (years u >? 0); destruct (months u >? 0); destruct (days u >? 0);
    destruct (hours u >? 0); destruct (minutes u >? 0);
    destruct (seconds u >? 0); reflexivity.
Qed.

Lemma expirySlots_form u :
  expirySlots u
  = calendarSlots u
    ++ (if Z.of_nat (List.length (calendarSlots u)) =? 0
        then listed (hours u) hour ++ listed (minutes u) minute else []).
Proof.
  unfold expirySlots, calendarSlots, listed, push.
  destruct (years u >? 0); destruct (months u >? 0); destruct (days u >? 0);
    destruct (hours u >? 0); destruct (minutes u >? 0); reflexivity.
Qed.

Lemma calendarSlots_length u : (List.length (calendarSlots u) <= 3)%nat.
Proof.
  unfold calendarSlots, listed.
  destruct (years u >? 0); destruct (months u >? 0); destruct (days u >? 0);
    simpl; lia.
Qed.

Lemma listed_In m w n unit :
  In (n, unit) (listed m w) <-> 0 < n /\ n = m /\ unit = w.
Proof.
  unfold listed. destruct (Z.gtb_spec m 0); simpl; split.
  - intros [[= <- <-]|[]]. auto.
  - intros (_ & -> & ->). now left.
  - intros [].
  - intros (H1 & -> & _). lia.
Qed.

Lemma calendarSlots_In u n unit :
  In (n, unit) (calendarSlots u) <->
  0 < n /\ ((unit = year /\ n = years u) \/ (unit = month /\ n = months u)
            \/ (unit = day /\ n = days u)).
Proof.
  unfold calendarSlots. rewrite !in_app_iff, !listed_In. tauto.
Qed.

Lemma append_empty_r (s : string) : append s "" = s.
Proof. induction s as [|c s IH]; simpl; [reflexivity | now rewrite IH]. Qed.

(** An expiry text that lists no unit is less than a minute away. *)
Lemma expirySlots_nil u : expirySlots u = [] -> (minutes u <? 1) = true.
Proof.
  unfold expirySlots, push.
  destruct (years u >? 0); destruct (months u >? 0); destruct (days u >? 0);
    destruct (hours u >? 0); destruct (Z.gtb_spec (minutes u) 0);
    simpl; try discriminate.
  intros _. apply Z.ltb_lt. lia.
Qed.

(** C9, as the code has it: both texts list every non-zero unit among
    years, months and days, so up to three units; the expiry text adds
    hours and minutes only when those three are all zero; the tooltip
    adds hours, then minutes, while fewer than two units are listed, and
    seconds only when nothing else is listed; a unit takes its plural
    key unless its count is 1.  For every pair of instants the parts
    are joined with a comma; the tooltip reads "online" up to 60 seconds
    and ends with the "ago" word after that; the expiry text of a past
    date ends with the "ago" word, or reads "just now" when no unit is
    listed, and the expiry text of a future date is the list of its
    units alone, measured from now to the date. *)
Theorem relative_time_units
    (instant : Type) (diff : instant -> instant -> TimeUnit -> Z)
    (add : instant -> Z -> TimeUnit -> instant)
    (isAfter isBefore : instant -> instant -> bool)
    (t : string -> string) (now other : instant) (u : Units) :
  (* which units are listed *)
  tooltipSlots u
  = calendarSlots u
    ++ firstn (2 - List.length (calendarSlots u))
         (listed (hours u) hour ++ listed (minutes u) minute)
    ++ (if (Z.of_nat (List.length (calendarSlots u)) =? 0)
           && negb (hours u >? 0) && negb (minutes u >? 0)
        then listed (seconds u) second else [])
  /\ expirySlots u
     = calendarSlots u
       ++ (if Z.of_nat (List.length (calendarSlots u)) =? 0
           then listed (hours u) hour ++ listed (minutes u) minute else [])
  /\ (forall n unit,
        In (n, unit) (calendarSlots u) <->
        0 < n /\ ((unit = year /\ n = years u)
                  \/ (unit = month /\ n = months u)
                  \/ (unit = day /\ n = days u)))
  /\ (List.length (tooltipSlots u) <= 3)%nat
  /\ (List.length (expirySlots u) <= 3)%nat
  (* plural forms *)
  /\ (forall n unit,
        unitKey n unit
        = append "time."
            (if n =? 1
             then match unit with
                  | year => "year" | month => "month" | day => "day"
                  | hour => "hour" | minute => "min" | second => "second"
                  end
             else match unit with
                  | year => "years" | month => "months" | day => "days"
                  | hour => "hours" | minute => "mins" | second => "seconds"
                  end))
  (* the texts *)
  /\ (let slots := tooltipSlots (breakDown instant diff add now other) in
      getTooltipText instant diff add t (Some other) now
      = if diff now other second <=? 60 then t "online"
        else match slots with
             | [] => t "time.ago"
             | _ :: _ =>
                 append (join ", " (map (renderSlot t) slots))
                   (append " " (t "time.ago"))
             end)
  /\ getTooltipText instant diff add t None now = t "notConnectedYet"
  /\ (let after := isAfter other now in
      let earlier := if isBefore other now then other else now in
      let later := if after then other else now in
      let slots := expirySlots (breakDown instant diff add later earlier) in
      useRelativeExpiryDate instant diff add isAfter isBefore t
        (Some other) now
      = {| status := if after then t "expires" else t "expired";
           time :=
             if after then join ", " (map (renderSlot t) slots)
             else match slots with
                  | [] => t "time.justNow"
                  | _ :: _ =>
                      append (join ", " (map (renderSlot t) slots))
                        (append " " (t "time.ago"))
                  end |})
  /\ useRelativeExpiryDate instant diff add isAfter isBefore t None now
     = {| status := ""; time := "" |}.
Proof.
  split; [apply tooltipSlots_form|].
  split; [apply expirySlots_form|].
  split; [intros n unit; apply calendarSlots_In|].
  split.
  { unfold tooltipSlots, push.
    destruct (years u >? 0); destruct (months u >? 0);
      destruct (days u >? 0); destruct (hours u >? 0);
      destruct (minutes u >? 0); destruct (seconds u >? 0); simpl; lia. }
  split.
  { unfold expirySlots, push.
    destruct (years u >? 0); destruct (months u >? 0);
      destruct (days u >? 0); destruct (hours u >? 0);
      destruct (minutes u >? 0); simpl; lia. }
  split.
  { intros n unit. unfold unitKey.
    destruct (n =? 1); destruct unit; reflexivity. }
  split.
  { intros slots. unfold getTooltipText.
    destruct (diff now other second <=? 60); [reflexivity|].
    rewrite length_map. fold slots. destruct slots; reflexivity. }
  split; [reflexivity|].
  split; [|reflexivity].
  intros after earlier later slots. unfold useRelativeExpiryDate.
  fold after. fold earlier. fold later. rewrite length_map. fold slots.
  destruct after; cbn [negb andb].
  - now rewrite append_empty_r.
  - f_equal. destruct slots as [|sl rest] eqn:E; [|reflexivity].
    cbn [List.length Z.of_nat Z.eqb andb].
    now rewrite (expirySlots_nil _ E).
Qed.

Lemma relative_time_units_witness :
  let now := UTC.utc 2021 3 4 0 0 0 in
  let last := UTC.utc 2021 3 3 19 0 0 in
  let next := UTC.utc 2021 3 6 5 0 0 in
  getTooltipText UTC.instant UTC.diff UTC.add UTC.keys (Some last) now
  = "5 time.hours time.ago"
  /\ useRelativeExpiryDate UTC.instant UTC.diff UTC.add UTC.isAfter
       UTC.isBefore UTC.keys (Some last) now
     = {| status := "expired"; time := "5 time.hours time.ago" |}
  /\ useRelativeExpiryDate UTC.instant UTC.diff UTC.add UTC.isAfter
       UTC.isBefore UTC.keys (Some next) now
     = {| status := "expires"; time := "2 time.days" |}.
Proof.
  cbv zeta.
  pose proof (relative_time_units UTC.instant UTC.diff UTC.add UTC.isAfter
                UTC.isBefore UTC.keys (UTC.utc 2021 3 4 0 0 0)
                (UTC.utc 2021 3 3 19 0 0) (mkUnits 0 0 0 5 0 0))
    as (_ & _ & _ & _ & _ & _ & Htip & _ & Hexp & _).
  pose proof (relative_time_units UTC.instant UTC.diff UTC.add UTC.isAfter
                UTC.isBefore UTC.keys (UTC.utc 2021 3 4 0 0 0)
                (UTC.utc 2021 3 6 5 0 0) (mkUnits 0 0 2 5 0 0))
    as (_ & _ & _ & _ & _ & _ & _ & _ & Hnext & _).
  cbv zeta in Htip, Hexp, Hnext.
  split; [rewrite Htip; vm_compute; reflexivity|].
  split; [rewrite Hexp; vm_compute; reflexivity|].
  rewrite Hnext. vm_compute. reflexivity.
Defined.

(** The claim as worded fails: one year, two months and three days ago
    is shown with three units by both formatters, and the tooltip shows
    hours next to days. *)
Lemma three_units_are_listed :
  let now := UTC.utc 2021 3 4 0 0 0 in
  let last := UTC.utc 2020 1 1 0 0 0 in
  let recent := UTC.utc 2021 2 28 19 0 0 in
  tooltipSlots (breakDown UTC.instant UTC.diff UTC.add now last)
  = [(1, year); (2, month); (3, day)]
  /\ getTooltipText UTC.instant UTC.diff UTC.add UTC.keys (Some last) now
     = "1 time.year, 2 time.months, 3 time.days time.ago"
  /\ time (useRelativeExpiryDate UTC.instant UTC.diff UTC.add UTC.isAfter
             UTC.isBefore UTC.keys (Some last) now)
     = "1 time.year, 2 time.months, 3 time.days time.ago"
  /\ ~ (List.length
          (tooltipSlots (breakDown UTC.instant UTC.diff UTC.add now last))
        <= 2)%nat
  /\ getTooltipText UTC.instant UTC.diff UTC.add UTC.keys (Some recent) now
     = "3 time.days, 5 time.hours time.ago".
Proof.
  cbv zeta. repeat split; try (vm_compute; reflexivity).
  vm_compute. intros H.
  repeat match type of H with (S _ <= S _)%nat => apply le_S_n in H end.
  inversion H.
Qed.

End RelativeTimeProps.

(** ** More on the pagination window and its controls *)

Module PaginationMore.
Import Pagination PaginationProps.

(** The active page and every page within two steps of it are listed. *)
Theorem window_shows_current_and_neighbours currentPage totalPages x :
  0 <= currentPage < totalPages ->
  0 <= x < totalPages ->
  currentPage - delta <= x <= currentPage + delta ->
  In x (getPaginationRange currentPage totalPages).
Proof.
  unfold getPaginationRange, pushRange, delta. intros Hcp Hx Hnear.
  destruct (Z.leb_spec totalPages 5).
  - rewrite pushFrom_In. lia.
  - set (e := if currentPage - 2 <=? 1 then _ else _).
    set (s := if currentPage + 2 >=? totalPages - 2 then _ else _).
    assert (Hse : x = 0 \/ x = totalPages - 1 \/ s <= x <= e).
    { subst s e.
      destruct (Z.leb_spec (currentPage - 2) 1);
        destruct (Z.geb_spec (currentPage + 2) (totalPages - 2)); lia. }
    rewrite !in_app_iff, pushFrom_In.
    destruct Hse as [-> | [-> | Hse]].
    + left; now left.
    + do 4 right. destruct (Z.gtb_spec totalPages 1); [now left | lia].
    + right; right; left. lia.
Qed.

Lemma window_shows_current_and_neighbours_witness :
  In 10 (getPaginationRange 10 20) /\ In 12 (getPaginationRange 10 20)
  /\ In 8 (getPaginationRange 10 20).
Proof.
  repeat split;
    apply window_shows_current_and_neighbours; unfold delta; lia.
Defined.

(** Whatever page is current, a listed entry is the marker or the
    index of an existing page. *)
Theorem window_entries_exist currentPage totalPages x :
  In x (getPaginationRange currentPage totalPages) ->
  x = ELLIPSIS \/ 0 <= x < totalPages.
Proof.
  unfold getPaginationRange, pushRange, delta.
  destruct (Z.leb_spec totalPages 5).
  - rewrite pushFrom_In. lia.
  - rewrite !in_app_iff, pushFrom_In. simpl.
    intros [[<-|[]] | [Hi | [Hi | [Hi | Hi]]]].
    + lia.
    + destruct (_ >? 1); simpl in Hi; intuition.
    + destruct (Z.geb_spec (currentPage + 2) (totalPages - 2));
        destruct (Z.leb_spec (currentPage - 2) 1); lia.
    + destruct (_ <? _); simpl in Hi; intuition.
    + destruct (Z.gtb_spec totalPages 1); simpl in Hi; [|tauto].
      destruct Hi as [<-|[]]. lia.
Qed.

Lemma window_entries_exist_witness :
  nth_error (getPaginationRange 10 20) 2 = Some 8 /\ 0 <= 8 < 20.
Proof.
  split; [reflexivity|].
  destruct (window_entries_exist 10 20 8
              ltac:(vm_compute; right; right; left; reflexivity))
    as [E | H]; [discriminate E | exact H].
Defined.

(** Up to seven pages every page is listed and there is no ellipsis,
    whatever page is current. *)
Theorem window_up_to_seven_lists_all currentPage totalPages :
  totalPages <= 7 ->
  getPaginationRange currentPage totalPages
  = map Z.of_nat (seq 0 (Z.to_nat totalPages)).
Proof.
  intros H7. rewrite <- (pushFrom_seq 0).
  unfold getPaginationRange, pushRange, delta.
  destruct (Z.leb_spec totalPages 5).
  - f_equal. lia.
  - set (e := if currentPage - 2 <=? 1 then _ else _).
    set (s := if currentPage + 2 >=? totalPages - 2 then _ else _).
    assert (Hse : s = 1 /\ e = totalPages - 2).
    { subst s e.
      destruct (Z.leb_spec (currentPage - 2) 1);
        destruct (Z.geb_spec (currentPage + 2) (totalPages - 2)); lia. }
    destruct Hse as [-> ->].
    assert (Ht : totalPages = 6 \/ totalPages = 7) by lia.
    destruct Ht as [-> | ->]; reflexivity.
Qed.

Lemma window_up_to_seven_lists_all_witness :
  getPaginationRange 3 7 = [0; 1; 2; 3; 4; 5; 6].
Proof. exact (window_up_to_seven_lists_all 3 7 ltac:(lia)). Defined.

(** From eight pages on the window has eight or nine entries. *)
Theorem window_width_stable currentPage totalPages :
  8 <= totalPages ->
  0 <= currentPage < totalPages ->
  List.length (getPaginationRange currentPage totalPages) = 8%nat
  \/ List.length (getPaginationRange currentPage totalPages) = 9%nat.
Proof.
  intros H8 Hcp. unfold getPaginationRange, pushRange, delta.
  destruct (Z.leb_spec totalPages 5); [lia|].
  set (e := if currentPage - 2 <=? 1 then _ else _).
  set (s := if currentPage + 2 >=? totalPages - 2 then _ else _).
  rewrite !length_app, pushFrom_length.
  destruct (Z.ltb_spec e (totalPages - 2)); destruct (Z.gtb_spec s 1);
    destruct (Z.gtb_spec totalPages 1); subst s e;
    destruct (Z.leb_spec (currentPage - 2) 1);
    destruct (Z.geb_spec (currentPage + 2) (totalPages - 2));
    simpl List.length; lia.
Qed.

Lemma window_width_stable_witness :
  List.length (getPaginationRange 0 8) = 8%nat
  /\ List.length (getPaginationRange 10 20) = 9%nat.
Proof.
  split.
  - destruct (window_width_stable 0 8 ltac:(lia) ltac:(lia)) as [H|H];
      [exact H | discriminate H].
  - destruct (window_width_stable 10 20 ltac:(lia) ltac:(lia)) as [H|H];
      [discriminate H | exact H].
Defined.

End PaginationMore.

(** ** Users table: handlers, effects and the location hash *)

Module UsersViewProps.
Import JS JSProps UsersTable UsersTableProps UsersView.

Lemma sameText_spec a b : sameText a b = true <-> a = b.
Proof.
  destruct a as [x|], b as [y|]; simpl; try (split; congruence).
  rewrite String.eqb_eq. split; congruence.
Qed.

Lemma sameStatus_spec a b : sameStatus a b = true <-> a = b.
Proof.
  destruct a as [x|], b as [y|]; simpl; try (split; congruence).
  rewrite String.eqb_eq. split; [|congruence].
  destruct x, y; simpl; congruence.
Qed.

Lemma sameValue_spec a b : sameValue a b = true <-> a = b.
Proof.
  destruct a as [x|], b as [y|]; simpl; try (split; congruence).
  rewrite Z.eqb_eq. split; congruence.
Qed.

Lemma sameList_spec {A} (eq : A -> A -> bool) :
  (forall x y, eq x y = true <-> x = y) ->
  forall l1 l2, sameList eq l1 l2 = true <-> l1 = l2.
Proof.
  intros Heq. induction l1 as [|x l1 IH]; intros [|y l2]; simpl;
    try (split; congruence).
  rewrite andb_true_iff, Heq, IH. split; [intros [-> ->] | intros [= -> ->]];
    auto.
Qed.

Lemma sameJSON_spec {A} (eq : A -> A -> bool) :
  (forall x y, eq x y = true <-> x = y) ->
  forall a b, sameJSON eq a b = true <-> a = b.
Proof.
  intros Heq [l1|] [l2|]; simpl; try (split; congruence).
  rewrite (sameList_spec eq Heq). split; congruence.
Qed.

(** "Set it when it differs" leaves the new value in place either way. *)
Lemma adopt_if_differs {A B} (same : A -> A -> bool) (new old : A)
    (k : A -> B) :
  (forall x y, same x y = true <-> x = y) ->
  (if negb (same new old) then k new else k old) = k new.
Proof.
  intros H. destruct (same new old) eqn:E; simpl; [|reflexivity].
  apply H in E. now subst.
Qed.

Lemma strictEq_true a b : strictEq a b = true -> a = b.
Proof.
  destruct a, b; simpl; try discriminate. intros E.
  apply Z.eqb_eq in E. now subst.
Qed.

Lemma adoptSort_result u f :
  adoptSort u f f = Filters.with_sort f (sort u).
Proof.
  unfold adoptSort. destruct (String.eqb_spec (sort u) (Filters.sort f)) as [E|];
    simpl; [|reflexivity].
  rewrite E. now destruct f.
Qed.

Lemma adoptStatus_result u f prev :
  Filters.status prev = Filters.status f ->
  adoptStatus u f prev = with_status prev (status u).
Proof.
  intros Hp. unfold adoptStatus.
  destruct (sameStatus (status u) (Filters.status f)) eqn:E; simpl;
    [|reflexivity].
  apply sameStatus_spec in E. rewrite E, <- Hp. now destruct prev.
Qed.

Lemma adoptAdmin_result u f prev :
  Filters.admin prev = Filters.admin f ->
  adoptAdmin u f prev = with_admin prev (admin u).
Proof.
  intros Hp. unfold adoptAdmin.
  destruct (sameJSON String.eqb (admin u) (Filters.admin f)) eqn:E; simpl;
    [|reflexivity].
  apply (sameJSON_spec _ String.eqb_eq) in E. rewrite E, <- Hp.
  now destruct prev.
Qed.

Lemma adoptGroup_result u f prev :
  Filters.group prev = Filters.group f ->
  adoptGroup u f prev = with_group prev (group u).
Proof.
  intros Hp. unfold adoptGroup.
  destruct (sameJSON sameValue (group u) (Filters.group f)) eqn:E; simpl;
    [|reflexivity].
  apply (sameJSON_spec _ sameValue_spec) in E. rewrite E, <- Hp.
  now destruct prev.
Qed.

Lemma adoptSearch_result u f prev :
  Filters.search prev = Filters.search f ->
  Filters.proxy_id prev = Filters.proxy_id f ->
  Filters.is_protocol prev = Filters.is_protocol f ->
  adoptSearch u f prev
  = with_searchFields prev
      (fst (fst (adoptedSearch f u))) (snd (fst (adoptedSearch f u)))
      (snd (adoptedSearch f u)).
Proof.
  intros H1 H2 H3. unfold adoptSearch, adoptedSearch.
  destruct (negb (sameText (search u) (Filters.search f))
            && negb (sameText (search u) (Filters.proxy_id f))).
  - now destruct (isProtocol u).
  - simpl. rewrite <- H1, <- H2, <- H3. now destruct prev.
Qed.

Lemma adoptPage_result v pg lim :
  (if negb (lim =? itemsPerPage v)
   then set_itemsPerPage
          (if negb (strictEq pg (currentPage v)) then set_page v pg else v)
          lim
   else if negb (strictEq pg (currentPage v)) then set_page v pg else v)
  = mkView pg lim (filters v) (isSorting v).
Proof.
  destruct v as [cp ipp fv srt]; simpl.
  destruct (Z.eqb_spec lim ipp) as [El|El];
    destruct (strictEq pg cp) eqn:Ep; simpl;
    try (apply strictEq_true in Ep); unfold set_itemsPerPage, set_page;
    simpl; congruence.
Qed.

(** What a hash change leaves behind: the page, the page size, the sort
    key, the status, the admins and the groups of the query, and its
    search term when that is not the one already searched for. *)
Lemma handleHashChange_result v sp :
  let u := parseURLParams sp (itemsPerPage v) in
  let f := filters v in
  handleHashChange v sp
  = mkView (page u) (limit u)
      (Filters.mk (Filters.limit f) (sort u) (Filters.load_sub f)
         (Filters.offset f)
         (fst (fst (adoptedSearch f u))) (snd (fst (adoptedSearch f u)))
         (snd (adoptedSearch f u))
         (status u) (admin u) (group u))
      (isSorting v).
Proof.
  intros u f. unfold handleHashChange. fold u. fold f.
  rewrite adoptSort_result.
  rewrite adoptSearch_result by reflexivity.
  rewrite adoptStatus_result by reflexivity.
  rewrite adoptAdmin_result by reflexivity.
  rewrite adoptGroup_result by reflexivity.
  cbv zeta. rewrite adoptPage_result. reflexivity.
Qed.

Lemma sameText_refl a : sameText a a = true.
Proof. now apply sameText_spec. Qed.

(** The default page size only decides the page size. *)
Lemma parse_default_only_limit sp d d' :
  limit (parseURLParams sp d) = limit (parseURLParams sp d') ->
  parseURLParams sp d = parseURLParams sp d'.
Proof.
  intros H. unfold parseURLParams in *. cbn [limit] in H.
  f_equal. exact H.
Qed.

(** Parsing with the parsed page size as the default changes nothing. *)
Lemma parse_limit_idem sp d :
  parseURLParams sp (limit (parseURLParams sp d)) = parseURLParams sp d.
Proof.
  apply parse_default_only_limit.
  unfold parseURLParams. cbn [limit].
  set (x := URLSearchParams.get sp "limit").
  unfold orElse.
  destruct (orUndefined x) as [s|].
  - destruct (parseInt s) as [l|]; [|reflexivity].
    destruct (l >? 0); reflexivity.
  - rewrite !parseInt_toString.
    destruct (d >? 0) eqn:E; rewrite ?parseInt_toString, ?E; reflexivity.
Qed.

Lemma adoptedSearch_settled f u :
  let S := fst (fst (adoptedSearch f u)) in
  let P := snd (fst (adoptedSearch f u)) in
  negb (sameText (search u) S) && negb (sameText (search u) P) = false.
Proof.
  unfold adoptedSearch.
  destruct (negb (sameText (search u) (Filters.search f))
            && negb (sameText (search u) (Filters.proxy_id f))) eqn:E.
  - destruct (isProtocol u); simpl; rewrite sameText_refl; simpl;
      [apply andb_false_r | reflexivity].
  - simpl. exact E.
Qed.

(** A hash change applied twice is the hash change applied once: the
    handler reaches a state it does not move from, for every state and
    every query. *)
Theorem hashchange_idempotent v sp :
  handleHashChange (handleHashChange v sp) sp = handleHashChange v sp.
Proof.
  rewrite (handleHashChange_result v sp). cbv zeta.
  set (u := parseURLParams sp (itemsPerPage v)).
  set (f := filters v).
  rewrite handleHashChange_result. cbv zeta.
  cbn [itemsPerPage filters isSorting].
  replace (parseURLParams sp (limit u)) with u
    by (symmetry; apply parse_limit_idem).
  cbn [Filters.limit Filters.load_sub Filters.offset].
  pose proof (adoptedSearch_settled f u) as Hs. cbv zeta in Hs.
  set (S := fst (fst (adoptedSearch f u))) in *.
  set (P := snd (fst (adoptedSearch f u))) in *.
  set (IP := snd (adoptedSearch f u)) in *.
  unfold adoptedSearch.
  cbn [Filters.search Filters.proxy_id Filters.is_protocol].
  rewrite Hs. reflexivity.
Qed.

Lemma hashchange_idempotent_witness :
  let v := getInitialStateFromURL (parseURLParams [] 20) in
  let sp := [("page", "3"); ("search", "bob"); ("is_protocol", "true")] in
  currentPage (handleHashChange v sp) = Int 2
  /\ Filters.proxy_id (filters (handleHashChange v sp)) = Some "bob"
  /\ handleHashChange (handleHashChange v sp) sp = handleHashChange v sp.
Proof.
  cbv zeta. split; [reflexivity|]. split; [reflexivity|].
  apply hashchange_idempotent.
Defined.

Lemma nonEmpty_listOf {A} (x : option (list A)) :
  x <> Some [] -> nonEmpty (listOf x) = x.
Proof. destruct x as [[|a l]|]; simpl; congruence. Qed.

(** The hash change triggered by the table's own write-back finds
    nothing to change: for a state that meets the invariants of the list
    state, with numbers that are safe integers, and has no empty array
    or doubly empty search, handling the query the effect has just
    written gives the state back. *)
Theorem own_url_is_fixed_point usersPerPage v :
  safeView v ->
  Filters.admin (filters v) <> Some [] ->
  Filters.group (filters v) <> Some [] ->
  (Filters.search (filters v) <> Some ""
   \/ Filters.proxy_id (filters v) <> Some "") ->
  handleHashChange v (writeURLParams usersPerPage v) = v.
Proof.
  intros S Hae Hge Hboth.
  destruct (UsersTableProps.safeView_invariants v S)
    as (Hp & Hl & Hs & Ha & Hg).
  rewrite handleHashChange_result. cbv zeta.
  assert (E : parseURLParams (writeURLParams usersPerPage v) (itemsPerPage v)
              = parseURLParams (writeURLParams usersPerPage v) usersPerPage).
  { apply parse_default_only_limit.
    rewrite hashchange_limit by exact Hl.
    now rewrite parse_write_view. }
  rewrite E, parse_write_view by assumption.
  cbn [page limit sort search status admin group isProtocol].
  rewrite !nonEmpty_listOf by assumption.
  assert (Hsame : negb (sameText (activeSearch (filters v))
                          (Filters.search (filters v)))
                  && negb (sameText (activeSearch (filters v))
                             (Filters.proxy_id (filters v))) = false).
  { unfold activeSearch, orUndefined.
    destruct (Filters.proxy_id (filters v)) as [[|c pid]|];
      destruct (Filters.search (filters v)) as [[|c' s]|]; simpl;
      rewrite ?String.eqb_refl, ?Ascii.eqb_refl; simpl;
      rewrite ?andb_false_r; try reflexivity.
    destruct Hboth as [H|H]; now elim H. }
  unfold adoptedSearch.
  cbn [page limit sort search status admin group isProtocol].
  rewrite Hsame. cbn [fst snd].
  destruct v as [cp ipp f srt]. destruct f. simpl in *. now subst.
Qed.

Lemma own_url_is_fixed_point_witness :
  let v := getInitialStateFromURL
             (parseURLParams [("page", "3"); ("search", "bob");
                              ("admin", "root"); ("group", "7")] 20) in
  writeURLParams 20 v
  = [("page", "3"); ("search", "bob"); ("admin", "root"); ("group", "7")]
  /\ handleHashChange v (writeURLParams 20 v) = v.
Proof.
  cbv zeta. split; [reflexivity|].
  apply own_url_is_fixed_point; simpl.
  - constructor.
    + exists 2. split; [reflexivity | vm_compute; split; discriminate].
    + vm_compute. split; [reflexivity | discriminate].
    + discriminate.
    + repeat constructor.
    + constructor; [vm_compute; split; discriminate | constructor].
  - discriminate.
  - discriminate.
  - left; discriminate.
Defined.


(** *** The offset follows the page *)

Lemma handleHashChange_offset v sp :
  Filters.offset (filters (handleHashChange v sp)) = Filters.offset (filters v)
  /\ Filters.limit (filters (handleHashChange v sp))
     = Filters.limit (filters v).
Proof. rewrite handleHashChange_result. split; reflexivity. Qed.

Lemma handle_keeps_offset v ev :
  offsetFollowsPage v ->
  currentPage (handle v ev) = currentPage v ->
  itemsPerPage (handle v ev) = itemsPerPage v ->
  offsetFollowsPage (handle v ev).
Proof.
  intros [Ho Hl] Hp Hi. unfold offsetFollowsPage. rewrite Hp, Hi.
  destruct ev; cbn [handle] in *.
  - (* TypeSearch *)
    unfold handleFilterChange in *. cbn [searchChange p_search] in *.
    destruct (negb (sameText (Some term) (Filters.search (filters v)))
              && negb (sameText (Some term) (Filters.proxy_id (filters v)))).
    + cbn in Hp. rewrite <- Hp. cbn.
      destruct (Filters.is_protocol (filters v)); cbn; split; auto.
    + cbn. split; auto.
  - cbn in Hp. rewrite <- Hp. cbn. split; auto.
  - cbn in Hp. rewrite <- Hp. cbn. split; auto.
  - cbn in Hp. rewrite <- Hp. cbn. split; auto.
  - unfold handlePageChange in *.
    destruct (strictEq newPage (currentPage v)); cbn; split; auto.
  - cbn. split; auto.
  - unfold handleSort in *. destruct (isSorting v); cbn; split; auto.
  - cbn. split; auto.
  - destruct (handleHashChange_offset v searchParams) as [-> ->].
    split; auto.
Qed.

(** In every state the table reaches, the fetch offset is the page
    index times the page size and the fetch limit is the page size. *)
Theorem offset_follows_page v :
  reachable v -> offsetFollowsPage v.
Proof.
  induction 1 as [sp d | v ev R IH].
  - split; reflexivity.
  - unfold step.
    destruct (sameValue (currentPage (handle v ev)) (currentPage v)
              && (itemsPerPage (handle v ev) =? itemsPerPage v)) eqn:E.
    + apply andb_true_iff in E. destruct E as [E1 E2].
      apply sameValue_spec in E1. apply Z.eqb_eq in E2.
      now apply handle_keeps_offset.
    + split; reflexivity.
Qed.

Lemma offset_follows_page_witness :
  let v0 := getInitialStateFromURL (parseURLParams [("limit", "30")] 20) in
  let v1 := step v0 (ChangePage (Int 4)) in
  let v2 := step v1 (TypeSearch "bob") in
  reachable v2
  /\ Filters.offset (filters v1) = Int 120
  /\ currentPage v2 = Int 0 /\ Filters.offset (filters v2) = Int 0
  /\ Filters.limit (filters v2) = 30.
Proof.
  cbv zeta.
  assert (R : reachable
                (step (step (getInitialStateFromURL
                               (parseURLParams [("limit", "30")] 20))
                         (ChangePage (Int 4))) (TypeSearch "bob")))
    by (repeat constructor).
  split; [exact R|].
  pose proof (offset_follows_page _ R) as [Ho Hl].
  split; [reflexivity|]. split; [reflexivity|].
  split; [exact Ho | exact Hl].
Defined.

(** *** Mount and hash change *)

(** The same protocol-search query gives different filters at mount and
    on a later hash change: at mount the term is put in both [search]
    and [proxy_id], a hash change puts it in [proxy_id] only. *)
Theorem protocol_search_mount_vs_hashchange sp d v term :
  search (parseURLParams sp d) = Some term ->
  search (parseURLParams sp (itemsPerPage v)) = Some term ->
  isProtocol (parseURLParams sp d) = true ->
  Filters.search (filters v) <> Some term ->
  Filters.proxy_id (filters v) <> Some term ->
  let mounted := filters (getInitialStateFromURL (parseURLParams sp d)) in
  let changed := filters (handleHashChange v sp) in
  Filters.search mounted = Some term
  /\ Filters.proxy_id mounted = Some term
  /\ Filters.search changed = None
  /\ Filters.proxy_id changed = Some term
  /\ Filters.is_protocol changed = true.
Proof.
  intros Hs Hs' Hp N1 N2 mounted changed.
  assert (Ht : truthy term = true).
  { unfold parseURLParams in Hs. cbn [search] in Hs.
    eapply orUndefined_Some; exact Hs. }
  subst mounted changed. rewrite handleHashChange_result. cbv zeta.
  cbn [filters getInitialStateFromURL Filters.search Filters.proxy_id
       Filters.is_protocol].
  rewrite Hp, Hs. rewrite (orUndefined_truthy _ Ht).
  split; [reflexivity|]. split; [reflexivity|].
  unfold adoptedSearch. rewrite Hs'.
  assert (Hp' : isProtocol (parseURLParams sp (itemsPerPage v)) = true)
    by exact Hp.
  rewrite Hp'.
  destruct (sameText (Some term) (Filters.search (filters v))) eqn:E1;
    [apply sameText_spec in E1; now elim N1|].
  destruct (sameText (Some term) (Filters.proxy_id (filters v))) eqn:E2;
    [apply sameText_spec in E2; now elim N2|].
  repeat split.
Qed.

Lemma protocol_search_mount_vs_hashchange_witness :
  let sp := [("search", "vless-1"); ("is_protocol", "true")] in
  let blank := getInitialStateFromURL (parseURLParams [] 20) in
  Filters.search (filters (getInitialStateFromURL (parseURLParams sp 20)))
  = Some "vless-1"
  /\ Filters.search (filters (handleHashChange blank sp)) = None
  /\ Filters.proxy_id (filters (handleHashChange blank sp)) = Some "vless-1".
Proof.
  cbv zeta.
  pose proof (protocol_search_mount_vs_hashchange
                [("search", "vless-1"); ("is_protocol", "true")] 20
                (getInitialStateFromURL (parseURLParams [] 20)) "vless-1"
                eq_refl eq_refl eq_refl
                ltac:(discriminate) ltac:(discriminate))
    as (H1 & _ & H3 & H4 & _).
  split; [exact H1|]. split; [exact H3 | exact H4].
Defined.

(** *** The query of a state with nothing to say *)

Lemma one_if_nil {A} (b : bool) (x : A) :
  (if b then [x] else []) = [] <-> b = false.
Proof. destruct b; split; congruence. Qed.

Lemma none_if_nil {A} (b : bool) (x : A) :
  (if b then [] else [x]) = [] <-> b = true.
Proof. destruct b; split; congruence. Qed.

Lemma one_of_option_nil {A B} (o : option A) (f : A -> B) :
  match o with Some a => [f a] | None => [] end = [] <-> o = None.
Proof. destruct o; split; congruence. Qed.

Lemma app_nil_iff {A} (l l' : list A) :
  l ++ l' = [] <-> l = [] /\ l' = [].
Proof.
  split; [apply app_eq_nil | intros [-> ->]; reflexivity].
Qed.

Lemma map_nil_iff {A B} (f : A -> B) l : map f l = [] <-> l = [].
Proof. destruct l; simpl; split; congruence. Qed.

Lemma sort_is_default_iff srt :
  truthy srt && negb (String.eqb srt DEFAULT_SORT) = false
  <-> srt = "" \/ srt = DEFAULT_SORT.
Proof.
  destruct srt as [|c r].
  - simpl. split; auto.
  - cbn [truthy andb].
    destruct (String.eqb_spec (String c r) DEFAULT_SORT) as [E|N]; simpl.
    + split; auto.
    + split; [discriminate|]. intros [H|H]; [discriminate | contradiction].
Qed.

(** The write-back effect produces the empty query exactly for a state
    on its first page with the preferred page size, the default (or an
    empty) sort key, no search term, no protocol flag, no status and no
    admin or group. *)
Theorem empty_query_iff_defaults usersPerPage v :
  writeURLParams usersPerPage v = [] <->
  gt (currentPage v) (Int 0) = false
  /\ itemsPerPage v = usersPerPage
  /\ (Filters.sort (filters v) = "" \/ Filters.sort (filters v) = DEFAULT_SORT)
  /\ activeSearch (filters v) = None
  /\ protocolFlag (filters v) = false
  /\ Filters.status (filters v) = None
  /\ listOf (Filters.admin (filters v)) = []
  /\ listOf (Filters.group (filters v)) = [].
Proof.
  rewrite writeURLParams_layout. unfold queryLayout, URLSearchParams.t.
  rewrite !app_nil_iff.
  rewrite !one_if_nil, none_if_nil, !map_nil_iff, sort_is_default_iff.
  rewrite (one_of_option_nil (activeSearch (filters v))
             (fun s => ("search", s))).
  rewrite (one_of_option_nil (Filters.status (filters v))
             (fun st => ("status", statusString st))).
  rewrite Z.eqb_eq. tauto.
Qed.

Lemma empty_query_iff_defaults_witness :
  writeURLParams 20 (getInitialStateFromURL (parseURLParams [] 20)) = []
  /\ writeURLParams 20
       (getInitialStateFromURL (parseURLParams [("sort", "")] 20)) = [].
Proof.
  split.
  - apply (proj2 (empty_query_iff_defaults 20 _)).
    repeat split; try reflexivity. now right.
  - apply (proj2 (empty_query_iff_defaults 20 _)).
    repeat split; try reflexivity. now right.
Defined.

(** *** The location hash *)

Import HashURL.

Lemma cut_path_has_no_mark s q :
  cut (append (fst (cut s)) (String "?" q)) = (fst (cut s), Some q).
Proof.
  induction s as [|c r IH]; simpl.
  - reflexivity.
  - destruct (Ascii.eqb c "?") eqn:E; simpl.
    + reflexivity.
    + destruct (cut r) as [before after] eqn:Er. simpl in *.
      rewrite E, IH. reflexivity.
Qed.

Lemma cut_path_alone s : cut (fst (cut s)) = (fst (cut s), None).
Proof.
  induction s as [|c r IH]; simpl.
  - reflexivity.
  - destruct (Ascii.eqb c "?") eqn:E; simpl.
    + reflexivity.
    + destruct (cut r) as [before after] eqn:Er. simpl in *.
      rewrite E, IH. reflexivity.
Qed.

(** What [updateURLParams] writes is what [getSearchParams] reads: the
    query comes back as it was given, whatever the hash held before and
    whatever the query holds, and the path before the [?] is kept. *)
Theorem hash_query_round_trip hash query :
  queryOf (newHash hash query) = query
  /\ hashPath (newHash hash query) = hashPath hash
  /\ (forall query', newHash (newHash hash query) query' = newHash hash query').
Proof.
  assert (H : queryOf (newHash hash query) = query
              /\ hashPath (newHash hash query) = hashPath hash).
  { unfold newHash, queryOf, hashPath.
    destruct query as [|c q]; cbn [truthy].
    - now rewrite cut_path_alone.
    - now rewrite (cut_path_has_no_mark hash (String c q)). }
  destruct H as [H1 H2]. repeat split; auto.
  intros query'. unfold newHash at 1 3. fold (newHash hash query).
  now rewrite H2.
Qed.

Example hash_examples :
  newHash "#/users?page=2" "page=3&sort=-expire" = "#/users?page=3&sort=-expire"
  /\ newHash "#/users?page=2" "" = "#/users"
  /\ queryOf "#/users?search=a?b" = "search=a?b"
  /\ queryOf "#/users" = "".
Proof. repeat split; reflexivity. Qed.

(** *** Pagination controls *)

(** A click on the pagination controls of a page in range asks for a
    page in range. *)
Theorem pager_target_in_range currentPage totalPages isLoading c q :
  0 <= currentPage < totalPages ->
  Pager.target currentPage totalPages isLoading c = Some q ->
  0 <= q < totalPages.
Proof.
  intros Hcp. destruct c as [| |i]; simpl.
  - destruct (Z.eqb_spec currentPage 0); simpl; [discriminate|].
    destruct isLoading; [discriminate|]. intros [= <-]. lia.
  - destruct (Z.eqb_spec currentPage (totalPages - 1)); simpl;
      [discriminate|].
    destruct (totalPages =? 0); simpl; [discriminate|].
    destruct isLoading; [discriminate|]. intros [= <-]. lia.
  - destruct (nth_error _ i) as [pageNumber|] eqn:E; [|discriminate].
    apply nth_error_In, PaginationMore.window_entries_exist in E.
    destruct (Z.eqb_spec pageNumber Pagination.ELLIPSIS); simpl;
      [discriminate|].
    destruct isLoading; [discriminate|]. intros [= <-].
    destruct E as [E|E]; [contradiction | exact E].
Qed.

Lemma pager_target_in_range_witness :
  Pager.target 10 20 false (Pager.Link 2) = Some 8
  /\ Pager.target 10 20 false (Pager.Link 1) = None
  /\ Pager.target 19 20 false Pager.Next = None
  /\ 0 <= 8 < 20.
Proof.
  repeat split; try reflexivity;
    apply (pager_target_in_range 10 20 false (Pager.Link 2) 8);
    try lia; reflexivity.
Defined.

(** *** The badge on the filter button *)

(** The badge is shown exactly when its count is positive, and the
    count is the number of active facets, at most three. *)
Theorem filter_badge_consistent f :
  (hasActiveAdvanceFilters f = true <-> 0 < getActiveFiltersCount f)
  /\ 0 <= getActiveFiltersCount f <= 3.
Proof.
  unfold hasActiveAdvanceFilters, getActiveFiltersCount.
  destruct (Filters.admin f) as [[|a l]|];
    destruct (Filters.group f) as [[|g l']|];
    destruct (Filters.status f); simpl; split; try lia;
    split; intros H; try reflexivity; try lia; discriminate.
Qed.

Lemma filter_badge_consistent_witness :
  let f :=
    Filters.mk 20 "-created_at" true (Int 0) None None false (Some active)
      (Some ["ops"]) None in
  hasActiveAdvanceFilters f = true /\ 0 < getActiveFiltersCount f.
Proof.
  cbv zeta.
  destruct (filter_badge_consistent
              (Filters.mk 20 "-created_at" true (Int 0) None None false
                 (Some active) (Some ["ops"]) None)) as [[H _] _].
  split; [reflexivity | apply H; reflexivity].
Defined.

End UsersViewProps.

(** ** Debounced search: any sequence of calls *)

Module DebouncedLogProps.
Import JS DebouncedSearch DebouncedLog Seqs.

Lemma Subsequence_refl {A} (l : list A) : Subsequence l l.
Proof. induction l; constructor; assumption. Qed.

Lemma Subsequence_app {A} (a b c d : list A) :
  Subsequence a b -> Subsequence c d -> Subsequence (a ++ c) (b ++ d).
Proof.
  intros H1 H2. induction H1 as [l | x l1 l2 _ IH | x l1 l2 _ IH].
  - simpl. induction l as [|y l IHl]; [exact H2 | now apply sub_skip].
  - simpl. now apply sub_take.
  - simpl. now apply sub_skip.
Qed.

Lemma Subsequence_trans {A} (a b c : list A) :
  Subsequence a b -> Subsequence b c -> Subsequence a c.
Proof.
  intros H1 H2. revert a H1.
  induction H2 as [l | x l1 l2 _ IH | x l1 l2 _ IH]; intros a H1.
  - inversion H1; subst. constructor.
  - inversion H1; subst.
    + constructor.
    + apply sub_take. now apply IH.
    + apply sub_skip. now apply IH.
  - apply sub_skip. now apply IH.
Qed.

Lemma Subsequence_length {A} (a b : list A) :
  Subsequence a b -> (List.length a <= List.length b)%nat.
Proof. induction 1; simpl; lia. Qed.

Lemma Subsequence_In {A} (a b : list A) x :
  Subsequence a b -> In x a -> In x b.
Proof.
  induction 1 as [l | y l1 l2 _ IH | y l1 l2 _ IH]; simpl.
  - intros [].
  - intros [E | H]; [now left | right; now apply IH].
  - intros H. right. now apply IH.
Qed.

(** A call first lets a due timer run, which commits what was held
    back, or leaves the log alone. *)
Lemma call_log delay now value h :
  let h1 := handleSearchChange delay now value h in
  heldBack h1 = [committedValue (now, value)]
  /\ exists d, commitLog h1 = commitLog h ++ d /\ Subsequence d (heldBack h).
Proof.
  cbv zeta. split; [reflexivity|].
  unfold handleSearchChange, advance, heldBack.
  destruct (pending h) as [[v due]|].
  - destruct (due <=? now).
    + exists [orUndefined (Some v)]. split; [reflexivity | apply Subsequence_refl].
    + exists []. cbn [commitLog]. rewrite app_nil_r. split; [reflexivity | constructor].
  - exists []. cbn [commitLog]. rewrite app_nil_r. split; [reflexivity | constructor].
Qed.

Lemma run_log delay : forall calls h,
  exists c,
    commitLog (run delay calls h) = commitLog h ++ c
    /\ Subsequence (c ++ heldBack (run delay calls h))
         (heldBack h ++ map committedValue calls).
Proof.
  induction calls as [|[now value] rest IH]; intros h.
  - exists []. simpl. rewrite !app_nil_r. split; [reflexivity | apply Subsequence_refl].
  - cbn [run map].
    destruct (call_log delay now value h) as (Hh & d & Hd & Hs).
    destruct (IH (handleSearchChange delay now value h)) as (c & Hc & Hsub).
    exists (d ++ c). split.
    + now rewrite Hc, Hd, app_assoc.
    + rewrite <- app_assoc. apply Subsequence_app; [exact Hs|].
      now rewrite Hh in Hsub.
Qed.

Lemma run_last delay : forall calls now value h,
  let h' := run delay (calls ++ [(now, value)]) h in
  pending h' = Some (value, now + delay) /\ search h' = value.
Proof.
  induction calls as [|[t v] rest IH]; intros now value h.
  - split; reflexivity.
  - cbn [app run]. apply IH.
Qed.

Lemma advance_log T h :
  exists d, commitLog (advance T h) = commitLog h ++ d
            /\ Subsequence d (heldBack h)
            /\ heldBack (advance T h) = (if (List.length d =? 0)%nat
                                         then heldBack h else []).
Proof.
  unfold advance, heldBack. destruct (pending h) as [[v due]|] eqn:E.
  - destruct (due <=? T).
    + exists [orUndefined (Some v)].
      repeat split; [apply Subsequence_refl].
    + exists []. rewrite app_nil_r, E. repeat split. constructor.
  - exists []. rewrite app_nil_r, E. repeat split. constructor.
Qed.

(** Whatever the rhythm of the [setSearch] calls, what the hook has
    committed by any later instant [T] is a selection, in order, of the
    values of the calls (each as [value || undefined]): at most one
    commit per call and none of a value that was not typed.  The input
    echoes the last call, and once the delay has passed after the last
    call, the last commit and [debouncedSearch] are the value of that
    call. *)
Theorem commits_follow_the_calls delay calls now value h0 T :
  pending h0 = None ->
  let all := calls ++ [(now, value)] in
  let h := advance T (run delay all h0) in
  search h = value
  /\ (exists c,
        commitLog h = commitLog h0 ++ c
        /\ Subsequence c (map committedValue all)
        /\ (now + delay <= T ->
            last c None = committedValue (now, value)
            /\ c <> []
            /\ debouncedSearch h = committedValue (now, value)
            /\ pending h = None)).
Proof.
  intros Hp all h.
  destruct (run_last delay calls now value h0) as [Rp Rs].
  fold all in Rp, Rs.
  destruct (run_log delay all h0) as (c & Hc & Hsub).
  assert (Hh0 : heldBack h0 = []) by (unfold heldBack; now rewrite Hp).
  rewrite Hh0 in Hsub. cbn [app] in Hsub.
  assert (Hheld : heldBack (run delay all h0) = [committedValue (now, value)])
    by (unfold heldBack; now rewrite Rp).
  rewrite Hheld in Hsub.
  split.
  { subst h. unfold advance. rewrite Rp.
    destruct (now + delay <=? T); [exact Rs | exact Rs]. }
  subst h. unfold advance. rewrite Rp.
  destruct (Z.leb_spec (now + delay) T) as [Hle | Hlt].
  - exists (c ++ [committedValue (now, value)]).
    cbn [commit commitLog debouncedSearch pending].
    split; [now rewrite Hc, app_assoc|].
    split; [exact Hsub|].
    intros _. split; [apply last_last|].
    split; [now destruct c|]. split; reflexivity.
  - exists c. split; [exact Hc|]. split.
    + assert (S0 : Subsequence (c ++ []) (c ++ [committedValue (now, value)])).
      { apply Subsequence_app; [apply Subsequence_refl | constructor]. }
      rewrite app_nil_r in S0.
      exact (Subsequence_trans _ _ _ S0 Hsub).
    + intros Hle. lia.
Qed.

Lemma commits_follow_the_calls_witness :
  pending (init "") = None
  /\ search (advance 2000
       (run 300 ([(0, "a"); (400, "ab"); (500, "")] ++ [(600, "abc")])
          (init ""))) = "abc".
Proof.
  split; [reflexivity|].
  apply (commits_follow_the_calls 300 [(0, "a"); (400, "ab"); (500, "")]
           600 "abc" (init "") 2000).
  reflexivity.
Defined.

End DebouncedLogProps.

(** ** Nodes list: the pages of a local search *)

Module NodesPagesProps.
Import JS JSProps NodesList NodeFilters.

Lemma chunks_concat {A} n : forall k (l : list A),
  (List.length l <= k * n)%nat ->
  List.concat (map (fun i => firstn n (skipn (i * n) l)) (seq 0 k)) = l.
Proof.
  induction k as [|k IH]; intros l Hl.
  - destruct l; [reflexivity | simpl in Hl; lia].
  - cbn [seq map List.concat]. rewrite <- seq_shift, map_map.
    cbn [Nat.mul skipn].
    transitivity (firstn n l ++ skipn n l); [|apply firstn_skipn].
    f_equal.
    etransitivity; [|apply (IH (skipn n l)); rewrite length_skipn; lia].
    f_equal. apply map_ext. intros i. f_equal.
    rewrite skipn_skipn. f_equal. lia.
Qed.

Lemma ceil_pages len :
  0 <= len ->
  let pages := - ((- len) / NODES_PER_PAGE) in
  0 <= pages /\ len <= pages * NODES_PER_PAGE
  /\ (pages - 1) * NODES_PER_PAGE < len \/ (len = 0 /\ pages = 0).
Proof.
  intros Hlen. cbv zeta. unfold NODES_PER_PAGE.
  pose proof (Z.div_mod (- len) 15 ltac:(lia)) as E.
  pose proof (Z.mod_pos_bound (- len) 15 ltac:(lia)) as B.
  destruct (Z.eq_dec len 0) as [->|N]; [right; split; reflexivity|].
  left. lia.
Qed.

Lemma pages_same_list st p :
  filteredNodes (set_currentPage st p) = filteredNodes st.
Proof. reflexivity. Qed.

(** While the list is searched in memory, the pages the component can
    show, numbered [0 .. calculatedTotalPages - 1], hold the filtered
    nodes one after the other: put together they are the filtered list,
    with no node lost or shown twice; each of them holds at least one
    node and at most 15, and each but the last exactly 15. *)
Theorem local_pages_partition st :
  shouldUseLocalSearch st = true ->
  truthy (localSearchTerm st) = true ->
  List.concat (map (fun p => paginatedNodes (set_currentPage st p))
            (pageIndices (calculatedTotalPages st)))
  = filteredNodes st
  /\ (forall p, 0 <= p < calculatedTotalPages st ->
        let shown := Z.of_nat (List.length (paginatedNodes (set_currentPage st p))) in
        0 < shown <= NODES_PER_PAGE
        /\ (p < calculatedTotalPages st - 1 -> shown = NODES_PER_PAGE)).
Proof.
  intros HL HT.
  assert (Epage : forall p, 0 <= p ->
            paginatedNodes (set_currentPage st p)
            = firstn 15 (skipn (Z.to_nat p * 15) (filteredNodes st))).
  { intros p Hp. unfold paginatedNodes.
    change (shouldUseLocalSearch (set_currentPage st p))
      with (shouldUseLocalSearch st).
    change (localSearchTerm (set_currentPage st p)) with (localSearchTerm st).
    rewrite HL, HT. cbn [andb]. cbv zeta.
    rewrite pages_same_list.
    change (currentPage (set_currentPage st p)) with p.
    now rewrite sliceArray_page by (unfold NODES_PER_PAGE; lia). }
  assert (Etot : totalNodes st = Z.of_nat (List.length (filteredNodes st))).
  { unfold totalNodes. now rewrite HL, HT. }
  unfold calculatedTotalPages. rewrite Etot.
  set (l := filteredNodes st) in *.
  pose proof (ceil_pages (Z.of_nat (List.length l)) ltac:(lia)) as C.
  cbv zeta in C. set (pages := - (- Z.of_nat (List.length l) / NODES_PER_PAGE)) in *.
  unfold NODES_PER_PAGE in C.
  split.
  - unfold pageIndices. rewrite map_map.
    rewrite (map_ext _ (fun i => firstn 15 (skipn (i * 15) l))).
    + apply chunks_concat. lia.
    + intros i. rewrite Epage by lia. now rewrite Nat2Z.id.
  - intros p Hp. cbv zeta. rewrite Epage by lia.
    rewrite length_firstn, length_skipn. unfold NODES_PER_PAGE. lia.
Qed.

Lemma local_pages_partition_witness :
  let st := handleFilterChange Samples.loaded (Samples.typed "tok") in
  shouldUseLocalSearch st = true
  /\ truthy (localSearchTerm st) = true
  /\ List.concat (map (fun p => paginatedNodes (set_currentPage st p))
                    (pageIndices (calculatedTotalPages st)))
     = filteredNodes st.
Proof.
  cbv zeta.
  split; [reflexivity|]. split; [reflexivity|].
  apply (local_pages_partition
           (handleFilterChange Samples.loaded (Samples.typed "tok")));
    reflexivity.
Defined.

(** The badge on the filter button of the nodes list is shown exactly
    when its number is not zero; the number is at most 2; what the
    advanced-search form submits is counted field by field (a status
    list that is empty and a core id 0 count as unset), and clearing
    the advanced search hides the badge while the search text stays. *)
Theorem node_filter_badge st v_status v_core_id :
  let shows s := hasActiveAdvanceFilters (filters s) in
  let count s := getActiveFiltersCount (filters s) in
  shows st = (0 <? count st)
  /\ 0 <= count st <= 2
  /\ count (handleAdvanceSearchSubmit st v_status v_core_id)
     = (match v_status with Some (_ :: _) => 1 | _ => 0 end)
       + (match v_core_id with
          | Some c => if c =? 0 then 0 else 1
          | None => 0
          end)
  /\ shows (handleClearAdvanceSearch st) = false
  /\ search (filters (handleClearAdvanceSearch st)) = search (filters st).
Proof.
  cbv zeta. unfold hasActiveAdvanceFilters, getActiveFiltersCount.
  repeat split.
  - destruct (status (filters st)) as [[|x l]|], (core_id (filters st));
      reflexivity.
  - destruct (status (filters st)) as [[|x l]|], (core_id (filters st));
      cbv zeta; lia.
  - destruct (status (filters st)) as [[|x l]|], (core_id (filters st));
      cbv zeta; lia.
  - destruct v_status as [[|x l]|], v_core_id as [c|]; cbn;
      try destruct (c =? 0); reflexivity.
Qed.

End NodesPagesProps.

(** ** Relative time with one unit *)

Module RelativeTimeShortProps.
Import JS RelativeTime RelativeTimeShort.

Section Agreement.

Variable instant : Type.
Variable diff : instant -> instant -> TimeUnit -> Z.
Variable add : instant -> Z -> TimeUnit -> instant.
Variable t : string -> string.

Lemma append_assoc_r (a b c : string) :
  append (append a b) c = append a (append b c).
Proof. induction a as [|x a IH]; simpl; [reflexivity | now rewrite IH]. Qed.

Lemma breakDown_nonneg later earlier :
  let u := breakDown instant diff add later earlier in
  0 <= years u /\ 0 <= months u /\ 0 <= days u
  /\ 0 <= hours u /\ 0 <= minutes u /\ 0 <= seconds u.
Proof. cbv zeta. unfold breakDown; cbn. repeat split; apply Z.abs_nonneg. Qed.

Lemma first_slot_cases u :
  let s := hd (seconds u, second) (tooltipSlots u) in
  s = (if years u >? 0 then (years u, year)
       else if months u >? 0 then (months u, month)
       else if days u >? 0 then (days u, day)
       else if hours u >? 0 then (hours u, hour)
       else if minutes u >? 0 then (minutes u, minute)
       else (seconds u, second)).
Proof.
  cbv zeta. unfold tooltipSlots, push.
  destruct (years u >? 0), (months u >? 0), (days u >? 0), (hours u >? 0),
    (minutes u >? 0), (seconds u >? 0); reflexivity.
Qed.

(** The one-unit texts of the users list ([OnlineStatus], the activity
    dialog's [formatTimeAgo] and the short [getOnlineTimeText] of the
    username column) show the unit the [OnlineBadge] tooltip lists
    first, and the seconds where the tooltip lists nothing; the three
    components agree with the tooltip on when a user counts as online
    or as never seen, and a tooltip that lists a single unit reads as
    the status text does. *)
Theorem one_unit_texts_lead_the_tooltip lastOnline currentTime :
  let tooltip := getTooltipText instant diff add t lastOnline currentTime in
  let status := onlineStatusText instant diff add t lastOnline currentTime in
  let short := getOnlineTimeText instant diff add lastOnline currentTime in
  match lastOnline with
  | None => status = t "notConnectedYet" /\ tooltip = status /\ short = None
  | Some lastOnlineTime =>
      let ago := formatTimeAgo instant diff add t lastOnlineTime currentTime in
      if diff currentTime lastOnlineTime second <=? 60
      then status = t "online" /\ tooltip = status /\ short = None
           /\ ago = t "justNow"
      else
        let u := breakDown instant diff add currentTime lastOnlineTime in
        let s := hd (seconds u, second) (tooltipSlots u) in
        (status = append (renderSlot t s) (append " " (t "time.ago"))
         /\ ago = status)
        /\ short = Some (append (toString (fst s)) (unitLetter (snd s)))
        /\ (List.length (tooltipSlots u) = 1%nat -> tooltip = status)
  end.
Proof.
  cbv zeta. destruct lastOnline as [lo|]; [|repeat split].
  unfold getTooltipText, onlineStatusText, getOnlineTimeText, formatTimeAgo.
  destruct (diff currentTime lo second <=? 60); [repeat split|].
  cbv zeta. set (u := breakDown instant diff add currentTime lo).
  pose proof (first_slot_cases u) as F. cbv zeta in F.
  split; [split; [|reflexivity]|split].
  - rewrite F. unfold timeAgoText, renderSlot.
    destruct (years u >? 0); [now rewrite !append_assoc_r|].
    destruct (months u >? 0); [now rewrite !append_assoc_r|].
    destruct (days u >? 0); [now rewrite !append_assoc_r|].
    destruct (hours u >? 0); [now rewrite !append_assoc_r|].
    destruct (minutes u >? 0); now rewrite !append_assoc_r.
  - rewrite F. unfold shortText.
    destruct (years u >? 0); [reflexivity|].
    destruct (months u >? 0); [reflexivity|].
    destruct (days u >? 0); [reflexivity|].
    destruct (hours u >? 0); [reflexivity|].
    destruct (minutes u >? 0); reflexivity.
  - intros L1. rewrite length_map, L1. cbn [Z.of_nat Pos.of_succ_nat Z.eqb].
    destruct (tooltipSlots u) as [|s [|s' l]] eqn:E; try discriminate L1.
    cbn [hd] in F. cbn [map join]. rewrite F. unfold timeAgoText, renderSlot.
    destruct (years u >? 0); [now rewrite !append_assoc_r|].
    destruct (months u >? 0); [now rewrite !append_assoc_r|].
    destruct (days u >? 0); [now rewrite !append_assoc_r|].
    destruct (hours u >? 0); [now rewrite !append_assoc_r|].
    destruct (minutes u >? 0); now rewrite !append_assoc_r.
Qed.

End Agreement.

Lemma one_unit_texts_lead_the_tooltip_witness :
  let now := UTC.utc 2021 3 4 0 0 0 in
  let last := UTC.utc 2021 3 3 19 0 0 in
  onlineStatusText UTC.instant UTC.diff UTC.add UTC.keys (Some last) now
  = "5 time.hours time.ago"
  /\ getOnlineTimeText UTC.instant UTC.diff UTC.add (Some last) now
     = Some "5h"
  /\ getTooltipText UTC.instant UTC.diff UTC.add UTC.keys (Some last) now
     = onlineStatusText UTC.instant UTC.diff UTC.add UTC.keys (Some last) now.
Proof.
  cbv zeta.
  pose proof (one_unit_texts_lead_the_tooltip UTC.instant UTC.diff UTC.add
                UTC.keys (Some (UTC.utc 2021 3 3 19 0 0))
                (UTC.utc 2021 3 4 0 0 0)) as H.
  cbv beta iota zeta in H.
  assert (Hd : (UTC.diff (UTC.utc 2021 3 4 0 0 0) (UTC.utc 2021 3 3 19 0 0)
                  second <=? 60) = false) by (vm_compute; reflexivity).
  rewrite Hd in H. destruct H as ((Hs & _) & Hsh & Ht).
  split; [rewrite Hs; vm_compute; reflexivity|].
  split; [rewrite Hsh; vm_compute; reflexivity|].
  apply Ht. vm_compute. reflexivity.
Defined.

End RelativeTimeShortProps.

(** ** Days and seconds *)

Module DateUtilsProps.
Import DateUtils.

Lemma roundDiv_bounds s :
  let d := roundDiv s SECONDS_A_DAY in
  d * SECONDS_A_DAY - 43200 <= s < d * SECONDS_A_DAY + 43200.
Proof.
  cbv zeta. unfold roundDiv, SECONDS_A_DAY.
  change (24 * 60 * 60) with 86400. change (2 * 86400) with 172800.
  pose proof (Z.div_mod (2 * s + 86400) 172800 ltac:(lia)) as E.
  pose proof (Z.mod_pos_bound (2 * s + 86400) 172800 ltac:(lia)) as B.
  lia.
Qed.

(** On whole numbers within the safe integers, a number of days turned
    into seconds and back is the same number of days, as long as its
    seconds are a safe integer (0 days and no value both give no
    value); a safe number of seconds turned into days is off by at most
    half a day, half days going up; and a duration of less than half a
    day turns into 0 days, which turned back into seconds is no value
    at all. *)
Theorem days_seconds_round_trip :
  (forall d, JS.safeInteger (d * SECONDS_A_DAY) ->
             secondsToDays (daysToSeconds (Some d))
             = if d =? 0 then None else Some d)
  /\ secondsToDays (daysToSeconds None) = None
  /\ (forall s d, JS.safeInteger s -> secondsToDays (Some s) = Some d ->
        s <> 0 /\ d * SECONDS_A_DAY - 43200 <= s < d * SECONDS_A_DAY + 43200)
  /\ (forall s, s <> 0 -> - 43200 <= s < 43200 ->
        secondsToDays (Some s) = Some 0
        /\ daysToSeconds (secondsToDays (Some s)) = None).
Proof.
  split; [|split; [reflexivity|split]].
  - intros d _. unfold daysToSeconds, secondsToDays.
    destruct (Z.eqb_spec d 0) as [->|N]; [reflexivity|].
    destruct (Z.eqb_spec (d * SECONDS_A_DAY) 0) as [E|_];
      [unfold SECONDS_A_DAY in E; lia|].
    f_equal. unfold roundDiv, SECONDS_A_DAY.
    change (24 * 60 * 60) with 86400. change (2 * 86400) with 172800.
    symmetry. apply (Z.div_unique _ _ d 86400); lia.
  - intros s d _. unfold secondsToDays.
    destruct (Z.eqb_spec s 0) as [->|N]; [discriminate|].
    intros E. injection E as <-. split; [exact N | apply roundDiv_bounds].
  - intros s N B. unfold secondsToDays.
    destruct (Z.eqb_spec s 0) as [E|_]; [contradiction|].
    assert (E0 : roundDiv s SECONDS_A_DAY = 0).
    { unfold roundDiv, SECONDS_A_DAY.
      change (24 * 60 * 60) with 86400. change (2 * 86400) with 172800.
      symmetry. apply (Z.div_unique _ _ 0 (2 * s + 86400)); lia. }
    rewrite E0. split; reflexivity.
Qed.

Lemma days_seconds_round_trip_witness :
  secondsToDays (daysToSeconds (Some 30)) = Some 30
  /\ secondsToDays (Some 3600) = Some 0
  /\ daysToSeconds (secondsToDays (Some 3600)) = None.
Proof.
  destruct days_seconds_round_trip as (H1 & _ & _ & H4).
  split; [|apply (H4 3600); lia].
  apply (H1 30). vm_compute. split; discriminate.
Defined.

End DateUtilsProps.

(** ** The selector panel *)

Module SelectorPanelProps.
Import JS SelectorPanel.

Lemma includesId_spec selected id :
  includesId selected id = true <-> In id selected.
Proof.
  unfold includesId. rewrite existsb_exists. split.
  - intros (x & Hx & E). apply Z.eqb_eq in E. now subst.
  - intros H. exists id. split; [exact H | apply Z.eqb_refl].
Qed.

Lemma toggle_In selected id x :
  In x (handleItemToggle selected id)
  <-> (x = id /\ ~ In id selected) \/ (x <> id /\ In x selected).
Proof.
  unfold handleItemToggle.
  destruct (includesId selected id) eqn:E.
  - apply includesId_spec in E. rewrite filter_In, negb_true_iff, Z.eqb_neq.
    split.
    + intros [H N]. right. now split.
    + intros [[-> N] | [N H]]; [contradiction | now split].
  - assert (N : ~ In id selected).
    { intros H. apply includesId_spec in H. congruence. }
    rewrite in_app_iff. simpl. split.
    + intros [H | [<- | []]].
      * right. split; [|exact H]. intros ->. contradiction.
      * left. now split.
    + intros [[-> _] | [_ H]]; [right; now left | now left].
Qed.

Lemma toggle_includes selected id x :
  includesId (handleItemToggle selected id) x
  = xorb (includesId selected x) (x =? id).
Proof.
  apply eq_true_iff_eq. rewrite includesId_spec, toggle_In.
  destruct (Z.eqb_spec x id) as [->|N].
  - destruct (includesId selected id) eqn:E; simpl.
    + apply includesId_spec in E. split; [|discriminate].
      intros [[_ H] | [H _]]; contradiction.
    + split; [reflexivity|]. intros _. left. split; [reflexivity|].
      intros H. apply includesId_spec in H. congruence.
  - rewrite xorb_false_r, includesId_spec. split.
    + intros [[H _] | [_ H]]; [contradiction | exact H].
    + intros H. right. now split.
Qed.

Lemma toggle_NoDup selected id :
  NoDup selected -> NoDup (handleItemToggle selected id).
Proof.
  intros H. unfold handleItemToggle.
  destruct (includesId selected id) eqn:E.
  - now apply NoDup_filter.
  - apply NoDup_app; [exact H | repeat constructor; intros [] |].
    intros x Hx [<- | []]. apply includesId_spec in Hx. congruence.
Qed.

(** Clicking items of the selector: after any run of clicks an id is
    selected exactly when it was selected before and clicked an even
    number of times, or was not and clicked an odd number of times; a
    selection without repeated ids stays without repeated ids. *)
Theorem toggles_flip_membership clicks : forall selected,
  (forall id,
     includesId (toggles selected clicks) id
     = xorb (includesId selected id)
         (Nat.odd (count_occ Z.eq_dec clicks id)))
  /\ (NoDup selected -> NoDup (toggles selected clicks)).
Proof.
  unfold toggles.
  induction clicks as [|c clicks IH]; intros selected.
  - split; [|trivial]. intros id. simpl. now rewrite xorb_false_r.
  - cbn [fold_left]. destruct (IH (handleItemToggle selected c)) as [I1 I2].
    split.
    + intros id. rewrite I1, toggle_includes. cbn [count_occ].
      destruct (Z.eq_dec c id) as [->|N].
      * rewrite Z.eqb_refl, Nat.odd_succ, <- Nat.negb_odd.
        destruct (includesId selected id),
          (Nat.odd (count_occ Z.eq_dec clicks id)); reflexivity.
      * destruct (Z.eqb_spec id c) as [->|_]; [contradiction|].
        now rewrite xorb_false_r.
    + intros H. apply I2. now apply toggle_NoDup.
Qed.

Lemma toggles_flip_membership_witness :
  includesId (toggles [4; 9] [7; 9; 7; 7]) 7 = true
  /\ NoDup (toggles [4; 9] [7; 9; 7; 7]).
Proof.
  destruct (toggles_flip_membership [7; 9; 7; 7] [4; 9]) as [H1 H2].
  split.
  - rewrite H1. reflexivity.
  - apply H2. repeat constructor; simpl; intuition lia.
Defined.

Lemma includes_empty s : includes s "" = true.
Proof. destruct s; reflexivity. Qed.

Lemma selectAll_In items id :
  In id (handleSelectAll items)
  <-> id <> -1 /\ exists item, In item items /\ itemId item = id.
Proof.
  unfold handleSelectAll. rewrite filter_In, in_map_iff, negb_true_iff, Z.eqb_neq.
  split.
  - intros [(item & E & H) N]. split; [exact N|]. now exists item.
  - intros [N (item & H & E)]. split; [now exists item | exact N].
Qed.

(** "Select all" selects every item of the panel, also those the search
    box hides, except an item whose id is -1; after it the button is
    highlighted ([allFilteredSelected]) exactly when the search shows at
    least one item and no shown item has the id -1.  After "deselect
    all" it is never highlighted, and an empty search shows every
    item. *)
Theorem select_all_ignores_search items searchKey search :
  let shown := filteredItems items searchKey search in
  (forall id, In id (handleSelectAll items)
              <-> id <> -1 /\ exists item, In item items /\ itemId item = id)
  /\ allFilteredSelected items searchKey search (handleSelectAll items)
     = negb (Z.of_nat (List.length shown) =? 0)
       && forallb (fun item => negb (itemId item =? -1)) shown
  /\ allFilteredSelected items searchKey search handleDeselectAll = false
  /\ filteredItems items searchKey "" = items.
Proof.
  cbv zeta. split; [intros id; apply selectAll_In|]. split; [|split].
  - unfold allFilteredSelected.
    set (shown := filteredItems items searchKey search).
    f_equal.
    + destruct shown; reflexivity.
    + assert (Hsub : forall item, In item shown -> In item items).
      { intros item H. unfold shown, filteredItems in H.
        now apply filter_In in H. }
      induction shown as [|item shown IH]; [reflexivity|].
      cbn [forallb]. rewrite IH by (intros i Hi; apply Hsub; now right).
      f_equal. apply eq_true_iff_eq.
      rewrite includesId_spec, selectAll_In, negb_true_iff, Z.eqb_neq.
      split; [tauto|]. intros N. split; [exact N|].
      exists item. split; [apply Hsub; now left | reflexivity].
  - unfold allFilteredSelected, handleDeselectAll.
    destruct (filteredItems items searchKey search); [reflexivity|].
    cbn [forallb includesId existsb]. now rewrite andb_false_r.
  - unfold filteredItems. change (toLowerCase "") with "".
    induction items as [|item items IH]; [reflexivity|].
    cbn [filter]. rewrite includes_empty. now rewrite IH.
Qed.

Lemma select_all_ignores_search_witness :
  In 7 (handleSelectAll [User 7 "bob"; User (-1) "ghost"])
  /\ allFilteredSelected [User 7 "bob"; User (-1) "ghost"] KUsername "gh"
       (handleSelectAll [User 7 "bob"; User (-1) "ghost"]) = false.
Proof.
  destruct (select_all_ignores_search [User 7 "bob"; User (-1) "ghost"]
              KUsername "gh") as (H1 & H2 & _).
  split.
  - apply H1. split; [lia|]. exists (User 7 "bob"). split; [now left | reflexivity].
  - rewrite H2. reflexivity.
Defined.

End SelectorPanelProps.

(** ** Form errors *)

Module FormErrorsProps.
Import JS FormErrors.

Lemma Value_nested_ind (P : Value -> Prop) :
  P VUndefined -> P VNull -> (forall b, P (VBool b)) ->
  (forall n, P (VNumber n)) -> (forall s, P (VString s)) ->
  (forall items, Forall P items -> P (VArray items)) ->
  (forall props, Forall (fun kv => P (snd kv)) props -> P (VObject props)) ->
  forall v, P v.
Proof.
  intros H1 H2 H3 H4 H5 HA HO.
  fix IH 1. intros v. destruct v as [| |b|n|s|items|props].
  - exact H1.
  - exact H2.
  - apply H3.
  - apply H4.
  - apply H5.
  - apply HA. induction items as [|item items IHi]; constructor.
    + apply IH.
    + exact IHi.
  - apply HO. induction props as [|[k v] props IHp]; constructor.
    + apply IH.
    + exact IHp.
Qed.

Lemma extract_array_cons item rest :
  extractFirstMessage (VArray (item :: rest))
  = match extractFirstMessage item with
    | Some msg => if truthy msg then Some msg
                  else extractFirstMessage (VArray rest)
    | None => extractFirstMessage (VArray rest)
    end.
Proof. reflexivity. Qed.

Lemma extract_object props :
  extractFirstMessage (VObject props)
  = match getProp props "message" with
    | Some (VString message) =>
        if truthy message then Some message
        else extractFirstMessage (VArray (map snd props))
    | _ => extractFirstMessage (VArray (map snd props))
    end.
Proof.
  assert (K : forall l : list (string * Value),
            (fix each (l : list (string * Value)) : option string :=
               match l with
               | [] => None
               | (_, v) :: rest =>
                   match extractFirstMessage v with
                   | Some msg => if truthy msg then Some msg else each rest
                   | None => each rest
                   end
               end) l
            = extractFirstMessage (VArray (map snd l))).
  { induction l as [|[k v] l IHl]; [reflexivity|].
    cbn [map snd]. rewrite extract_array_cons, <- IHl. reflexivity. }
  rewrite <- K. reflexivity.
Qed.

Lemma truthy_iff s : truthy s = true <-> s <> "".
Proof. destruct s; simpl; split; congruence. Qed.

Lemma extract_array_sound l m :
  Forall (fun v => forall m, extractFirstMessage v = Some m ->
                     m <> "" /\ exists w, Within v w /\ carries w m) l ->
  extractFirstMessage (VArray l) = Some m ->
  m <> "" /\ exists item w, In item l /\ Within item w /\ carries w m.
Proof.
  intros IH. induction IH as [|item items Hitem _ IHi]; [discriminate|].
  rewrite extract_array_cons.
  assert (Rest : extractFirstMessage (VArray items) = Some m ->
                 m <> "" /\ exists i w, In i (item :: items) /\ Within i w
                                        /\ carries w m).
  { intros E'. destruct (IHi E') as (N & i & w & Hi & Hw & C).
    split; [exact N|]. exists i, w. split; [now right | now split]. }
  destruct (extractFirstMessage item) as [msg|] eqn:Ei; [|exact Rest].
  destruct (truthy msg) eqn:T; [|exact Rest].
  intros E. injection E as <-. destruct (Hitem msg eq_refl) as (N & w & Hw & C).
  split; [exact N|]. exists item, w. split; [now left | now split].
Qed.

Lemma extract_sound : forall v m,
  extractFirstMessage v = Some m ->
  m <> "" /\ exists w, Within v w /\ carries w m.
Proof.
  induction v as [| |b|n|s|items IH|props IH] using Value_nested_ind;
    intros m E; try (destruct b); try (destruct n as [[| |]|]);
    try (destruct s); try discriminate E.
  - destruct (extract_array_sound items m IH E) as (N & item & w & Hi & Hw & C).
    split; [exact N|]. exists w. split; [|exact C].
    now apply (within_item items item).
  - rewrite extract_object in E.
    assert (Keys : extractFirstMessage (VArray (map snd props)) = Some m ->
                   m <> "" /\ exists w, Within (VObject props) w /\ carries w m).
    { intros E'.
      assert (IH' : Forall (fun v => forall m, extractFirstMessage v = Some m ->
                              m <> "" /\ exists w, Within v w /\ carries w m)
                      (map snd props)) by now apply Forall_map.
      destruct (extract_array_sound _ m IH' E') as (N & item & w & Hi & Hw & C).
      split; [exact N|]. exists w. split; [|exact C].
      apply in_map_iff in Hi. destruct Hi as ([k v] & Ev & Hin).
      cbn [snd] in Ev. subst v.
      now apply (within_prop props k item). }
    destruct (getProp props "message") as [[| |b|n|s|items|props']|] eqn:G;
      try (now apply Keys).
    destruct (truthy s) eqn:T; [|now apply Keys].
    injection E as <-. apply truthy_iff in T. split; [exact T|].
    exists (VObject props). split; [constructor|].
    exists props. repeat split; assumption.
Qed.

Lemma extract_array_found items item m :
  In item items -> extractFirstMessage item = Some m ->
  exists m', extractFirstMessage (VArray items) = Some m'.
Proof.
  intros Hin E. induction items as [|x items IH]; [destruct Hin|].
  rewrite extract_array_cons.
  destruct Hin as [->|Hin].
  - rewrite E. destruct (extract_sound item m E) as [N _].
    apply truthy_iff in N. rewrite N. now exists m.
  - destruct (extractFirstMessage x) as [msg|]; [|now apply IH].
    destruct (truthy msg); [now exists msg | now apply IH].
Qed.

Lemma extract_complete v w m :
  Within v w -> carries w m -> exists m', extractFirstMessage v = Some m'.
Proof.
  intros Hw C. induction Hw as [v | items item w Hin Hw IH | props k v w Hin Hw IH].
  - destruct C as (props & -> & G & N). rewrite extract_object, G.
    apply truthy_iff in N. rewrite N. now exists m.
  - destruct (IH C) as [m' E]. now apply (extract_array_found items item m').
  - destruct (IH C) as [m' E]. rewrite extract_object.
    assert (K : exists m'', extractFirstMessage (VArray (map snd props)) = Some m'').
    { apply (extract_array_found _ v m'); [|exact E].
      apply in_map_iff. now exists (k, v). }
    destruct (getProp props "message") as [[| |b|n|s|items|props']|];
      try exact K.
    destruct (truthy s); [now exists s | exact K].
Qed.

(** [extractFirstMessage] returns a message exactly when some object of
    the error tree, at any depth under array entries and object
    properties, has a non-empty string [message]; what it returns is
    such a message and is never empty, and a message of the top object
    itself is the one returned. *)
Theorem first_message_found errors :
  (forall m, extractFirstMessage errors = Some m ->
     m <> "" /\ exists w, Within errors w /\ carries w m)
  /\ (extractFirstMessage errors = None
      <-> forall w m, Within errors w -> ~ carries w m)
  /\ (forall m, carries errors m -> extractFirstMessage errors = Some m).
Proof.
  split; [apply extract_sound|]. split.
  - split.
    + intros E w m Hw C. destruct (extract_complete errors w m Hw C) as [m' E'].
      congruence.
    + intros H. destruct (extractFirstMessage errors) as [m|] eqn:E;
        [|reflexivity].
      destruct (extract_sound errors m E) as (_ & w & Hw & C).
      now elim (H w m).
  - intros m (props & -> & G & N). rewrite extract_object, G.
    apply truthy_iff in N. now rewrite N.
Qed.

Lemma first_message_found_witness :
  let errors :=
    VObject
      [("applications",
        VArray
          [VUndefined;
           VObject
             [("icon_url",
               VObject [("type", VString "custom");
                        ("message", VString "Invalid URL")])]])] in
  extractFirstMessage errors = Some "Invalid URL"
  /\ "Invalid URL" <> "".
Proof.
  cbv zeta. split; [reflexivity|].
  refine (proj1 (proj1 (first_message_found
           (VObject
              [("applications",
                VArray
                  [VUndefined;
                   VObject
                     [("icon_url",
                       VObject [("type", VString "custom");
                                ("message", VString "Invalid URL")])]])]))
            "Invalid URL" _)).
  reflexivity.
Defined.

End FormErrorsProps.

(** ** The subscription clients dialog *)

Module SubscriptionClientsProps.
Import JS SubscriptionClients.

Lemma lowerChar_idem c : lowerChar (lowerChar c) = lowerChar c.
Proof.
  destruct c as [[] [] [] [] [] [] [] []]; reflexivity.
Qed.

Lemma toLowerCase_idem s : toLowerCase (toLowerCase s) = toLowerCase s.
Proof.
  induction s as [|c s IH]; [reflexivity|].
  cbn [toLowerCase]. now rewrite lowerChar_idem, IH.
Qed.

(** One test of the chain of [detectOS] at a time. *)
Ltac next_test :=
  match goal with
  | |- context [if ?c then _ else _] => destruct c eqn:?; cbv beta iota
  end.

Lemma detectOS_named userAgent clientInfo :
  includesString osNames (detectOS userAgent clientInfo) = true.
Proof.
  unfold detectOS. cbv zeta. set (ua := toLowerCase userAgent).
  repeat (next_test; [reflexivity|]).
  unfold detectOSFromClient. destruct clientInfo as [ci|]; [|reflexivity].
  destruct (isKnownClient ci); [|reflexivity]. cbv zeta.
  repeat (next_test; [reflexivity|]).
  reflexivity.
Qed.

Lemma named_badges os :
  includesString osNames os = true -> os <> "Unknown" ->
  getOSBadgeColor os <> DEFAULT_BADGE.
Proof.
  unfold includesString. rewrite existsb_exists.
  intros (x & Hx & E) N. apply String.eqb_eq in E. subst x.
  unfold osNames, distributions in Hx. cbn [app In] in Hx.
  repeat (destruct Hx as [<- | Hx]; [vm_compute; discriminate|]).
  destruct Hx as [<- | []]. now elim N.
Qed.

(** The user agent comes first: whenever the user agent alone names a
    system, what is known of the client app is not looked at.  The
    detection does not depend on the case of the letters of the user
    agent or of the client name, and every name it gives other than
    "Unknown" has a badge colour of its own. *)
Theorem detectOS_user_agent_first userAgent clientInfo :
  (detectOS userAgent None <> "Unknown" ->
   detectOS userAgent clientInfo = detectOS userAgent None)
  /\ detectOS (toLowerCase userAgent) clientInfo = detectOS userAgent clientInfo
  /\ (forall n known,
        detectOS userAgent (Some (mkClientInfo (toLowerCase n) known))
        = detectOS userAgent (Some (mkClientInfo n known)))
  /\ (detectOS userAgent clientInfo <> "Unknown" ->
      getOSBadgeColor (detectOS userAgent clientInfo) <> DEFAULT_BADGE)
  /\ getOSBadgeColor "Unknown" = DEFAULT_BADGE.
Proof.
  split; [|split; [|split; [|split]]].
  - unfold detectOS. cbv zeta. set (ua := toLowerCase userAgent).
    repeat (next_test; [intros _; reflexivity|]).
    intros H. now elim H.
  - unfold detectOS. now rewrite toLowerCase_idem.
  - intros n known. unfold detectOS, detectOSFromClient. cbn [name isKnownClient].
    now rewrite toLowerCase_idem.
  - apply named_badges, detectOS_named.
  - reflexivity.
Qed.

Lemma detectOS_user_agent_first_witness :
  detectOS "v2rayNG/1.8.5 (Linux; Android 13)"
    (Some (mkClientInfo "Shadowrocket" true)) = "Android"
  /\ getOSBadgeColor "Android" <> DEFAULT_BADGE.
Proof.
  destruct (detectOS_user_agent_first "v2rayNG/1.8.5 (Linux; Android 13)"
              (Some (mkClientInfo "Shadowrocket" true)))
    as (H1 & _ & _ & H4 & _).
  split.
  - rewrite H1; [vm_compute; reflexivity | vm_compute; discriminate].
  - assert (E : detectOS "v2rayNG/1.8.5 (Linux; Android 13)"
                  (Some (mkClientInfo "Shadowrocket" true)) = "Android")
      by (vm_compute; reflexivity).
    rewrite E in H4. apply H4. discriminate.
Defined.

(** The distribution keywords are tested first and as plain substrings:
    a user agent in which the letters "arch" occur anywhere (as in
    "aarch64" or "search") is reported as a Linux distribution, never
    as Android, iOS, Windows or macOS, whatever else it names; and the
    "Linux" answer is given only to a user agent that does not name
    Android. *)
Theorem arch_keyword_shadows_platforms userAgent clientInfo :
  (includes (toLowerCase userAgent) "arch" = true ->
   In (detectOS userAgent clientInfo) distributions)
  /\ (includes (toLowerCase userAgent) "android" = true ->
      In (detectOS userAgent clientInfo)
         (distributions ++ ["Manjaro"; "Gentoo"; "Slackware"; "iOS"; "Android"])).
Proof.
  split.
  - unfold detectOS. cbv zeta. set (ua := toLowerCase userAgent).
    intros H. unfold distributions.
    do 6 (next_test; [simpl; tauto|]).
    rewrite H. simpl. tauto.
  - unfold detectOS. cbv zeta. set (ua := toLowerCase userAgent).
    intros H. unfold distributions.
    do 11 (next_test; [simpl; tauto|]).
    rewrite H. simpl. tauto.
Qed.

Lemma arch_keyword_shadows_platforms_witness :
  detectOS "SFA/1.8.0 (Android 13; aarch64)" None = "Arch"
  /\ In (detectOS "SFA/1.8.0 (Android 13; aarch64)" None) distributions.
Proof.
  split; [vm_compute; reflexivity|].
  apply (arch_keyword_shadows_platforms "SFA/1.8.0 (Android 13; aarch64)" None).
  vm_compute. reflexivity.
Defined.

Lemma ceil20 count :
  0 <= count ->
  let pages := - ((- count) / itemsPerPage) in
  0 <= pages /\ (pages - 1) * itemsPerPage < count \/ (count = 0 /\ pages = 0).
Proof.
  intros H. cbv zeta. unfold itemsPerPage.
  pose proof (Z.div_mod (- count) 20 ltac:(lia)) as E.
  pose proof (Z.mod_pos_bound (- count) 20 ltac:(lia)) as B.
  destruct (Z.eq_dec count 0) as [->|N]; [right; split; reflexivity|].
  left. lia.
Qed.

Lemma click_keeps subUpdateList p c :
  0 <= p /\ (p = 0 \/ p < totalPages subUpdateList) ->
  0 <= click subUpdateList p c
  /\ (click subUpdateList p c = 0
      \/ click subUpdateList p c < totalPages subUpdateList).
Proof.
  intros [H0 H1].
  destruct c; unfold click, handleNextPage, handlePrevPage, hasNextPage,
    hasPrevPage.
  - destruct (Z.ltb_spec p (totalPages subUpdateList - 1)); lia.
  - destruct (Z.gtb_spec p 0); lia.
Qed.

(** The dialog never asks for a page past the list: whatever is clicked
    after it opens, the page index stays at 0 or below the number of
    pages, so the offset it requests, page times 20, is 0 or lies
    inside the list. *)
Theorem subscription_page_in_list count clicks :
  0 <= count ->
  let page := pageAfter (Some count) clicks in
  0 <= page
  /\ (page = 0 \/ page < totalPages (Some count))
  /\ (page * itemsPerPage = 0 \/ page * itemsPerPage < count).
Proof.
  intros Hc. cbv zeta.
  assert (Inv : 0 <= pageAfter (Some count) clicks
                /\ (pageAfter (Some count) clicks = 0
                    \/ pageAfter (Some count) clicks < totalPages (Some count))).
  { unfold pageAfter.
    assert (G : forall p, 0 <= p /\ (p = 0 \/ p < totalPages (Some count)) ->
                0 <= fold_left (click (Some count)) clicks p
                /\ (fold_left (click (Some count)) clicks p = 0
                    \/ fold_left (click (Some count)) clicks p
                       < totalPages (Some count))).
    { induction clicks as [|c clicks IH]; intros p Hp; [exact Hp|].
      cbn [fold_left]. apply IH. now apply click_keeps. }
    apply G. lia. }
  destruct Inv as [I0 I1]. split; [exact I0|]. split; [exact I1|].
  pose proof (ceil20 count Hc) as C. cbv zeta in C.
  unfold totalPages in I1. unfold itemsPerPage in *. lia.
Qed.

Lemma subscription_page_in_list_witness :
  pageAfter (Some 45) [ClickNext; ClickNext; ClickNext; ClickNext] = 2
  /\ 0 <= pageAfter (Some 45) [ClickNext; ClickNext; ClickNext; ClickNext].
Proof.
  split; [reflexivity|].
  apply (subscription_page_in_list 45
           [ClickNext; ClickNext; ClickNext; ClickNext]).
  lia.
Defined.

End SubscriptionClientsProps.

(** ** The bulk wizard *)

Module BulkFlowProps.
Import JS BulkFlow.

Lemma roundDiv_exact n d : 0 < d -> DateUtils.roundDiv (n * d) d = n.
Proof.
  intros H. unfold DateUtils.roundDiv. symmetry.
  apply (Z.div_unique _ _ n d); lia.
Qed.

(** An expiry of a whole amount: the step-1 gate of the wizard lets the
    user on exactly when the effect has stored a number of seconds; for
    an amount above 0 whose seconds are a safe integer, that number is
    the amount times the seconds of the unit, the payload carries it as
    a non-zero integer, positive to add and negative to subtract; and
    the summary reads the amount and unit back as entered, as long as
    the amount is below the next unit (60 seconds or minutes, 24 hours,
    30 days). *)
Theorem expire_settings n unit :
  canProceedExpireStep1 (Some n)
  = canProceedExpireStep2 (expireSecondsEffect (Some n) unit)
  /\ (0 < n ->
      n * match unit with
          | seconds => 1 | minutes => 60 | hours => 3600
          | days => 86400 | months => 2592000
          end <= MAX_SAFE_INTEGER ->
      exists s,
        expireSecondsEffect (Some n) unit = Some s
        /\ s = n * match unit with
                   | seconds => 1 | minutes => 60 | hours => 3600
                   | days => 86400 | months => 2592000
                   end
        /\ expirePayloadAmount add (Some s) = Some (Int s) /\ 0 < s
        /\ expirePayloadAmount subtract (Some s) = Some (Int (- s))
        /\ - s < 0
        /\ (n < match unit with
                | seconds | minutes => 60 | hours => 24 | days => 30
                | months => n + 1
                end ->
            formatTime s
            = append (toString n)
                match unit with
                | seconds => "s" | minutes => "m" | hours => "h"
                | days => "d" | months => "mo"
                end)).
Proof.
  split.
  - unfold canProceedExpireStep1, canProceedExpireStep2, expireSecondsEffect.
    destruct (Z.gtb_spec n 0), (Z.leb_spec n 0); try lia; reflexivity.
  - intros Hn _. unfold expireSecondsEffect.
    destruct (Z.leb_spec n 0); [lia|]. cbv zeta.
    eexists. split; [reflexivity|].
    split; [destruct unit; lia|].
    split; [reflexivity|]. split; [destruct unit; lia|].
    split; [reflexivity|]. split; [destruct unit; lia|].
    intros Hlim. unfold formatTime. destruct unit.
    + destruct (Z.ltb_spec n 60); [reflexivity | lia].
    + destruct (Z.ltb_spec (n * 60) 60); [lia|].
      destruct (Z.ltb_spec (n * 60) 3600); [|lia].
      now rewrite roundDiv_exact.
    + destruct (Z.ltb_spec (n * 3600) 60); [lia|].
      destruct (Z.ltb_spec (n * 3600) 3600); [lia|].
      destruct (Z.ltb_spec (n * 3600) 86400); [|lia].
      now rewrite roundDiv_exact.
    + destruct (Z.ltb_spec (n * 86400) 60); [lia|].
      destruct (Z.ltb_spec (n * 86400) 3600); [lia|].
      destruct (Z.ltb_spec (n * 86400) 86400); [lia|].
      destruct (Z.ltb_spec (n * 86400) 2592000); [|lia].
      now rewrite roundDiv_exact.
    + destruct (Z.ltb_spec (n * 2592000) 60); [lia|].
      destruct (Z.ltb_spec (n * 2592000) 3600); [lia|].
      destruct (Z.ltb_spec (n * 2592000) 86400); [lia|].
      destruct (Z.ltb_spec (n * 2592000) 2592000); [lia|].
      now rewrite roundDiv_exact.
Qed.

Lemma expire_settings_witness :
  exists s,
    expireSecondsEffect (Some 12) hours = Some s
    /\ s = 12 * 3600
    /\ expirePayloadAmount add (Some s) = Some (Int s) /\ 0 < s
    /\ expirePayloadAmount subtract (Some s) = Some (Int (- s))
    /\ - s < 0
    /\ (12 < 24 -> formatTime s = "12h").
Proof.
  apply (expire_settings 12 hours); [lia | vm_compute; discriminate].
Defined.

(** Removing users from groups is never applied to everyone by
    accident: [handleApply] opens the confirmation dialog for a group
    removal only when something is selected, and the dialog then asks
    about that number of targets, not about ALL.  For every other
    operation the dialog always opens, and it asks about ALL exactly
    when no group, user or admin is selected. *)
Theorem removal_needs_targets operationType groupsOperation sel :
  (operationType = groups -> groupsOperation = gremove ->
   handleApply operationType groupsOperation sel = true ->
   isApplyToAll operationType sel = false
   /\ 0 < totalTargets operationType sel)
  /\ (operationType <> groups ->
      handleApply operationType groupsOperation sel = true
      /\ (isApplyToAll operationType sel = true
          <-> selectedGroups sel = [] /\ selectedUsers sel = []
              /\ selectedAdmins sel = [])).
Proof.
  assert (L0 : forall l : list Z, len l = 0 <-> l = []).
  { intros l. unfold len. destruct l; simpl; split; try lia; congruence. }
  assert (LP : forall l : list Z, 0 <= len l) by (intros; unfold len; lia).
  split.
  - intros -> ->. unfold handleApply, isApplyToAll, totalTargets.
    rewrite negb_true_iff, !Z.eqb_neq.
    pose proof (LP (selectedGroups sel)). pose proof (LP (selectedUsers sel)).
    pose proof (LP (selectedAdmins sel)).
    pose proof (LP (selectedHasGroups sel)).
    intros Hopen. split; [apply Z.eqb_neq|]; lia.
  - intros N. split; [destruct operationType, groupsOperation; try reflexivity;
                      now elim N|].
    unfold isApplyToAll, totalTargets. rewrite Z.eqb_eq.
    rewrite <- !L0.
    pose proof (LP (selectedGroups sel)). pose proof (LP (selectedUsers sel)).
    pose proof (LP (selectedAdmins sel)).
    destruct operationType; try (now elim N); lia.
Qed.

Lemma removal_needs_targets_witness :
  isApplyToAll groups (mkTargets [] [5] [] []) = false
  /\ 0 < totalTargets groups (mkTargets [] [5] [] []).
Proof.
  apply (removal_needs_targets groups gremove (mkTargets [] [5] [] []));
    reflexivity.
Defined.

End BulkFlowProps.

(** ** Thousands separators *)

Module FormatByteProps.
Import JS JSProps FormatByte.

Lemma digitRun_all s : allDigits s = true -> digitRun s = String.length s.
Proof.
  induction s as [|c s IH]; [reflexivity|]. simpl.
  intros H. apply andb_prop in H. destruct H as [H1 H2].
  now rewrite H1, IH.
Qed.

Lemma allDigits_app a b :
  allDigits (append a b) = allDigits a && allDigits b.
Proof.
  induction a as [|c a IH]; [reflexivity|]. simpl. now rewrite IH, andb_assoc.
Qed.

Lemma length_append a b :
  String.length (append a b) = (String.length a + String.length b)%nat.
Proof. induction a as [|c a IH]; simpl; [reflexivity | now rewrite IH]. Qed.

Lemma digit_word c : isDigit c = true -> isWordChar c = true.
Proof. unfold isWordChar. now intros ->. Qed.

Lemma lookahead_plus3 a b :
  allDigits a = true -> a <> "" -> allDigits b = true ->
  String.length b = 3%nat ->
  lookahead (append a b) = lookahead a.
Proof.
  intros Ha Na Hb Lb. unfold lookahead.
  rewrite !digitRun_all by (rewrite ?allDigits_app, ?Ha, ?Hb; reflexivity).
  rewrite length_append, Lb.
  destruct a as [|c a]; [contradiction|]. cbn [String.length].
  replace (S (String.length a) + 3)%nat with (S (String.length a) + 1 * 3)%nat by lia.
  rewrite Nat.Div0.mod_add. reflexivity.
Qed.

Lemma three_digits_tail c b :
  isDigit c = true -> allDigits b = true -> String.length b = 3%nat ->
  replaceFrom (Some c) b = append "," b.
Proof.
  intros Hc Hb Lb.
  destruct b as [|b1 [|b2 [|b3 [|b4 b]]]]; try discriminate Lb.
  cbn [allDigits] in Hb.
  apply andb_prop in Hb. destruct Hb as [H1 Hb].
  apply andb_prop in Hb. destruct Hb as [H2 Hb].
  apply andb_prop in Hb. destruct Hb as [H3 _].
  cbn [replaceFrom]. unfold notWordBoundary, lookahead. cbn [digitRun].
  rewrite !(digit_word _ Hc), !(digit_word _ H1), !(digit_word _ H2),
    !(digit_word _ H3), H1, H2, H3.
  reflexivity.
Qed.

Lemma append_assoc (a b c : string) :
  append (append a b) c = append a (append b c).
Proof. induction a as [|x a IH]; simpl; [reflexivity | now rewrite IH]. Qed.

Lemma split_off_three : forall a b prev,
  allDigits a = true -> a <> "" -> allDigits b = true ->
  String.length b = 3%nat ->
  replaceFrom prev (append a b)
  = append (replaceFrom prev a) (append "," b).
Proof.
  induction a as [|c a IH]; intros b prev Ha Na Hb Lb; [contradiction|].
  pose proof (lookahead_plus3 (String c a) b Ha Na Hb Lb) as Hl.
  cbn [allDigits] in Ha. apply andb_prop in Ha. destruct Ha as [Hc Ha].
  change (append (String c a) b) with (String c (append a b)) in *.
  cbn [replaceFrom]. rewrite Hl.
  change (notWordBoundary prev (String c (append a b)))
    with (notWordBoundary prev (String c a)).
  rewrite append_assoc. f_equal. cbn [append]. f_equal.
  destruct a as [|c' a'].
  - cbn [append replaceFrom]. unfold notWordBoundary at 1.
    rewrite (digit_word _ Hc).
    cbn [Bool.eqb andb]. now apply three_digits_tail.
  - apply IH; [exact Ha | discriminate | exact Hb | exact Lb].
Qed.

Lemma string_of_uint_digits u :
  allDigits (NilEmpty.string_of_uint u) = true.
Proof. induction u; simpl; auto. Qed.

Ltac app_step :=
  match goal with
  | |- context [Decimal.app (?k ?l) ?d] =>
      replace (Decimal.app (k l) d) with (k (Decimal.app l d))
        by (apply DecimalFacts.to_list_inj; rewrite DecimalFacts.app_spec; simpl;
            now rewrite DecimalFacts.app_spec)
  end.

Lemma string_of_uint_app d1 d2 :
  NilEmpty.string_of_uint (Decimal.app d1 d2)
  = append (NilEmpty.string_of_uint d1) (NilEmpty.string_of_uint d2).
Proof.
  induction d1; [now rewrite DecimalFacts.app_nil_l | ..];
    app_step; simpl; now rewrite IHd1.
Qed.

Lemma of_uint_acc_app d1 d2 : forall acc,
  Pos.of_uint_acc (Decimal.app d1 d2) acc
  = Pos.of_uint_acc d2 (Pos.of_uint_acc d1 acc).
Proof.
  induction d1; intros acc; [now rewrite DecimalFacts.app_nil_l | ..];
    app_step; simpl; apply IHd1.
Qed.

Lemma of_uint_app d1 d2 q :
  Pos.of_uint d1 = N.pos q ->
  Pos.of_uint (Decimal.app d1 d2) = N.pos (Pos.of_uint_acc d2 q).
Proof.
  induction d1; intros H; simpl in H; [discriminate | ..];
    app_step; simpl; try (now apply IHd1);
    rewrite of_uint_acc_app; injection H as ->; reflexivity.
Qed.

Lemma digit_cases a :
  0 <= a <= 9 ->
  a = 0 \/ a = 1 \/ a = 2 \/ a = 3 \/ a = 4 \/ a = 5 \/ a = 6 \/ a = 7
  \/ a = 8 \/ a = 9.
Proof. lia. Qed.

Lemma mkdigit_acc a l acc :
  0 <= a <= 9 ->
  exists acc', Pos.of_uint_acc (mkdigit a l) acc = Pos.of_uint_acc l acc'
               /\ Z.pos acc' = a + 10 * Z.pos acc.
Proof.
  intros H. apply digit_cases in H.
  repeat (destruct H as [-> | H]; [eexists; split; [reflexivity | lia]|]).
  subst a. eexists; split; [reflexivity | lia].
Qed.

Lemma mkdigit_string a l :
  0 <= a <= 9 ->
  NilEmpty.string_of_uint (mkdigit a l)
  = String (digitChar a) (NilEmpty.string_of_uint l).
Proof.
  intros H. apply digit_cases in H.
  repeat (destruct H as [-> | H]; [reflexivity|]). now subst a.
Qed.

Lemma mkdigit_isDigit a : 0 <= a <= 9 -> isDigit (digitChar a) = true.
Proof.
  intros H. apply digit_cases in H.
  repeat (destruct H as [-> | H]; [reflexivity|]). now subst a.
Qed.

Lemma three_parts r :
  0 <= r < 1000 ->
  0 <= r / 100 <= 9 /\ 0 <= r / 10 mod 10 <= 9 /\ 0 <= r mod 10 <= 9
  /\ r = 100 * (r / 100) + 10 * (r / 10 mod 10) + r mod 10.
Proof.
  intros H.
  pose proof (Z.div_mod r 10 ltac:(lia)).
  pose proof (Z.mod_pos_bound r 10 ltac:(lia)).
  pose proof (Z.div_mod (r / 10) 10 ltac:(lia)).
  pose proof (Z.mod_pos_bound (r / 10) 10 ltac:(lia)).
  assert (E : r / 100 = r / 10 / 10)
    by (rewrite Z.div_div by lia; reflexivity).
  lia.
Qed.

Lemma threeDigits_spec r :
  0 <= r < 1000 ->
  NilEmpty.string_of_uint (digits3 r) = threeDigits r
  /\ allDigits (threeDigits r) = true
  /\ String.length (threeDigits r) = 3%nat.
Proof.
  intros H. destruct (three_parts r H) as (A & B & C & _).
  unfold digits3, threeDigits. rewrite !mkdigit_string by assumption.
  split; [reflexivity|]. split; [|reflexivity].
  cbn [allDigits]. now rewrite !mkdigit_isDigit.
Qed.

Lemma nzhead_no_D0 u v : Decimal.nzhead u <> D0 v.
Proof. induction u; simpl; try discriminate. exact IHu. Qed.

Lemma to_uint_head p :
  match Pos.to_uint p with Nil | D0 _ => False | _ => True end.
Proof.
  pose proof (DecimalPos.Unsigned.to_of (Pos.to_uint p)) as E.
  rewrite DecimalPos.Unsigned.of_to in E. simpl N.to_uint in E.
  pose proof (DecimalPos.Unsigned.to_uint_nonzero p) as N0.
  pose proof (DecimalPos.Unsigned.to_uint_nonnil p) as N1.
  destruct (Pos.to_uint p) as [|u| | | | | | | | | ]; try exact I.
  - now elim N1.
  - unfold unorm in E. simpl nzhead in E.
    pose proof (nzhead_no_D0 u) as Hz.
    destruct (nzhead u) eqn:En; try discriminate E.
    + injection E as E'. subst u. now elim N0.
    + now elim (Hz u0).
Qed.

Lemma toString_pos p :
  toString (Z.pos p) = NilEmpty.string_of_uint (Pos.to_uint p).
Proof.
  unfold toString. simpl Z.to_int. unfold NilZero.string_of_int.
  apply nilzero_nonnil, DecimalPos.Unsigned.to_uint_nonnil.
Qed.

Lemma toString_thousands z :
  1000 <= z ->
  toString z = append (toString (z / 1000)) (threeDigits (z mod 1000)).
Proof.
  intros Hz.
  pose proof (Z.div_mod z 1000 ltac:(lia)) as E.
  pose proof (Z.mod_pos_bound z 1000 ltac:(lia)) as B.
  assert (Hq : 1 <= z / 1000) by (apply Z.div_le_lower_bound; lia).
  destruct z as [|p|p]; try lia.
  destruct (Z.pos p / 1000) as [|q|q] eqn:Eq; try lia.
  set (r := Z.pos p mod 1000) in *.
  destruct (threeDigits_spec r B) as (S3 & _ & _).
  destruct (three_parts r B) as (A & Bb & C & R).
  rewrite !toString_pos, <- S3, <- string_of_uint_app. f_equal.
  assert (Eof : Pos.of_uint (Decimal.app (Pos.to_uint q) (digits3 r)) = N.pos p).
  { rewrite (of_uint_app _ _ q) by apply DecimalPos.Unsigned.of_to.
    f_equal. unfold digits3.
    destruct (mkdigit_acc (r / 100)
                (mkdigit (r / 10 mod 10) (mkdigit (r mod 10) Nil)) q A)
      as (a1 & F1 & E1).
    destruct (mkdigit_acc (r / 10 mod 10) (mkdigit (r mod 10) Nil) a1 Bb)
      as (a2 & F2 & E2).
    destruct (mkdigit_acc (r mod 10) Nil a2 C) as (a3 & F3 & E3).
    rewrite F1, F2, F3. cbn [Pos.of_uint_acc]. lia. }
  pose proof (DecimalPos.Unsigned.to_of
                (Decimal.app (Pos.to_uint q) (digits3 r))) as T.
  rewrite Eof in T. simpl N.to_uint in T. rewrite T.
  pose proof (to_uint_head q) as Hh.
  destruct (Pos.to_uint q); try contradiction; app_step; reflexivity.
Qed.

Lemma small_numbers_checked :
  forallb (fun n => String.eqb (numberWithCommas (Some (Z.of_nat n)))
                      (toString (Z.of_nat n)))
          (seq 0 1000) = true.
Proof. vm_compute. reflexivity. Qed.

Lemma replaceFrom_prev prev prev' s :
  match prev with Some c => isWordChar c | None => false end
  = match prev' with Some c => isWordChar c | None => false end ->
  replaceFrom prev s = replaceFrom prev' s.
Proof.
  intros E. destruct s as [|c s]; cbn [replaceFrom]; unfold notWordBoundary;
    now rewrite E.
Qed.

(** [numberWithCommas] writes a whole number within the safe integers
    with a comma before every group of three digits counted from the
    right: a number below 1000 is left as it is, a larger one is the
    text of its thousands, a comma, and its last three digits; the sign
    of a negative number stays in front, and [null] or [undefined]
    reads "0". *)
Theorem thousands_separators z :
  numberWithCommas None = "0"
  /\ (0 <= z < 1000 -> numberWithCommas (Some z) = toString z)
  /\ (1000 <= z <= MAX_SAFE_INTEGER ->
      numberWithCommas (Some z)
      = append (numberWithCommas (Some (z / 1000)))
          (append "," (threeDigits (z mod 1000))))
  /\ (- MAX_SAFE_INTEGER <= z < 0 ->
      numberWithCommas (Some z) = append "-" (numberWithCommas (Some (- z)))).
Proof.
  split; [reflexivity|]. split; [|split].
  - intros H. pose proof small_numbers_checked as C.
    rewrite forallb_forall in C.
    specialize (C (Z.to_nat z)). rewrite Z2Nat.id in C by lia.
    apply String.eqb_eq, C, in_seq. lia.
  - intros [H _]. unfold numberWithCommas.
    rewrite (toString_thousands z H).
    pose proof (Z.mod_pos_bound z 1000 ltac:(lia)) as B.
    destruct (threeDigits_spec (z mod 1000) B) as (_ & D3 & L3).
    assert (Hq : 1 <= z / 1000) by (apply Z.div_le_lower_bound; lia).
    apply split_off_three; [| |exact D3|exact L3].
    + destruct (z / 1000) as [|q|q]; try lia.
      rewrite toString_pos. apply string_of_uint_digits.
    + apply truthy_nonempty, toString_truthy.
  - intros [_ H]. destruct z as [|p|p]; try lia.
    change (- Z.neg p) with (Z.pos p). unfold numberWithCommas.
    assert (E : toString (Z.neg p) = String "-" (toString (Z.pos p))).
    { rewrite toString_pos. unfold toString. simpl Z.to_int.
      unfold NilZero.string_of_int.
      now rewrite (nilzero_nonnil _ (DecimalPos.Unsigned.to_uint_nonnil p)). }
    rewrite E. cbn [replaceFrom]. unfold notWordBoundary at 1.
    unfold lookahead at 1. cbn [digitRun].
    change (isDigit "-") with false. change (isWordChar "-") with false.
    cbn [Bool.eqb andb Nat.ltb Nat.leb append]. f_equal.
    now apply replaceFrom_prev.
Qed.

Lemma thousands_separators_witness :
  1000 <= 1234567 <= MAX_SAFE_INTEGER
  /\ numberWithCommas (Some 1234567) = "1,234,567".
Proof.
  assert (B : 1000 <= 1234567 <= MAX_SAFE_INTEGER)
    by (vm_compute; split; discriminate).
  split; [exact B|].
  rewrite (proj1 (proj2 (proj2 (thousands_separators 1234567))) B).
  vm_compute. reflexivity.
Defined.

End FormatByteProps.

(** ** The date picker *)

Module DatePickerProps.
Import DatePicker.

Lemma day_start d : dateOnly d <= d < dateOnly d + MS_PER_DAY.
Proof.
  unfold dateOnly, MS_PER_DAY.
  pose proof (Z.div_mod d 86400000 ltac:(lia)).
  pose proof (Z.mod_pos_bound d 86400000 ltac:(lia)). lia.
Qed.

Lemma time_of_day_nonneg d :
  0 <= getHours d * 3600000 + getMinutes d * 60000 + getSeconds d * 1000
       + getMilliseconds d.
Proof.
  unfold getHours, getMinutes, getSeconds, getMilliseconds.
  pose proof (Z.mod_pos_bound (d / 3600000) 24 ltac:(lia)).
  pose proof (Z.mod_pos_bound (d / 60000) 60 ltac:(lia)).
  pose proof (Z.mod_pos_bound (d / 1000) 60 ltac:(lia)).
  pose proof (Z.mod_pos_bound d 1000 ltac:(lia)). lia.
Qed.

Lemma dateOnly_lt a b : dateOnly a < dateOnly b -> dateOnly a + MS_PER_DAY <= dateOnly b.
Proof. unfold dateOnly, MS_PER_DAY. lia. Qed.

Lemma dateOnly_idem d : dateOnly (dateOnly d) = dateOnly d.
Proof.
  unfold dateOnly, MS_PER_DAY. now rewrite Z.div_mul by lia.
Qed.

(** The time of day the getters read is the instant less the start of
    its day. *)
Lemma time_of_day d :
  getHours d * 3600000 + getMinutes d * 60000 + getSeconds d * 1000
  + getMilliseconds d
  = d - dateOnly d.
Proof.
  unfold getHours, getMinutes, getSeconds, getMilliseconds, dateOnly,
    MS_PER_DAY.
  replace (d / 60000) with (d / 1000 / 60)
    by (rewrite Z.div_div by lia; reflexivity).
  replace (d / 3600000) with (d / 1000 / 60 / 60)
    by (rewrite !Z.div_div by lia; reflexivity).
  replace (d / 86400000) with (d / 1000 / 60 / 60 / 24)
    by (rewrite !Z.div_div by lia; reflexivity).
  pose proof (Z.div_mod d 1000 ltac:(lia)).
  pose proof (Z.div_mod (d / 1000) 60 ltac:(lia)).
  pose proof (Z.div_mod (d / 1000 / 60) 60 ltac:(lia)).
  pose proof (Z.div_mod (d / 1000 / 60 / 60) 24 ltac:(lia)).
  lia.
Qed.

(** Reading back a time that was set on a day. *)
Lemma set_then_get k h m sec ms :
  0 <= h < 24 -> 0 <= m < 60 -> 0 <= sec < 60 -> 0 <= ms < 1000 ->
  let d := k * MS_PER_DAY + (h * 3600000 + m * 60000 + sec * 1000 + ms) in
  dateOnly d = k * MS_PER_DAY
  /\ getHours d = h /\ getMinutes d = m /\ getSeconds d = sec
  /\ getMilliseconds d = ms.
Proof.
  intros Hh Hm Hs Hms. cbv zeta.
  unfold dateOnly, getHours, getMinutes, getSeconds, getMilliseconds,
    MS_PER_DAY.
  set (d := k * 86400000 + (h * 3600000 + m * 60000 + sec * 1000 + ms)).
  assert (E1 : d / 86400000 = k).
  { symmetry.
    apply (Z.div_unique d 86400000 k
             (h * 3600000 + m * 60000 + sec * 1000 + ms)); subst d; lia. }
  assert (E2 : d / 3600000 = k * 24 + h).
  { symmetry.
    apply (Z.div_unique d 3600000 (k * 24 + h) (m * 60000 + sec * 1000 + ms));
      subst d; lia. }
  assert (E3 : d / 60000 = k * 1440 + h * 60 + m).
  { symmetry.
    apply (Z.div_unique d 60000 (k * 1440 + h * 60 + m) (sec * 1000 + ms));
      subst d; lia. }
  assert (E4 : d / 1000 = k * 86400 + h * 3600 + m * 60 + sec).
  { symmetry.
    apply (Z.div_unique d 1000 (k * 86400 + h * 3600 + m * 60 + sec) ms);
      subst d; lia. }
  rewrite E1, E2, E3, E4.
  split; [reflexivity|].
  split; [symmetry; apply (Z.mod_unique _ 24 k h); lia|].
  split; [symmetry; apply (Z.mod_unique _ 60 (k * 24 + h) m); lia|].
  split; [symmetry; apply (Z.mod_unique _ 60 (k * 1440 + h * 60 + m) sec); lia|].
  symmetry.
  apply (Z.mod_unique d 1000 (k * 86400 + h * 3600 + m * 60 + sec) ms);
    subst d; lia.
Qed.

Lemma dateOnly_within a t :
  0 <= t < MS_PER_DAY -> dateOnly (dateOnly a + t) = dateOnly a.
Proof.
  intros H. unfold dateOnly, MS_PER_DAY in *. f_equal.
  symmetry. apply (Z.div_unique _ 86400000 (a / 86400000) t); lia.
Qed.

(** With no [minDate], the date picker never stores an instant that is
    already past: a day picked before today is replaced by today, today
    is stored as its last millisecond (23:59:59.999), and a later day is
    stored on that day, at the time of day of the date held before
    (when there is one and no time is shown), or of now.  Nothing is
    stored for no date.  The time field gives the held date its hours
    and minutes, seconds and milliseconds staying as they are, and when
    that instant lies on today's date before now, now is stored in its
    place; so a date of today is never moved into the past. *)
Theorem picked_date_not_past internalDate showTime now selectedDate :
  let kept :=
    match internalDate, showTime with
    | Some i, false => i
    | _, _ => now
    end in
  match handleDateSelect None internalDate showTime now (Some selectedDate)
  with
  | Some d =>
      now <= d
      /\ (dateOnly selectedDate <= dateOnly now ->
          d = dateOnly now + (MS_PER_DAY - 1))
      /\ (dateOnly now < dateOnly selectedDate ->
          d = dateOnly selectedDate + (kept - dateOnly kept)
          /\ dateOnly d = dateOnly selectedDate)
  | None => False
  end
  /\ handleDateSelect None internalDate showTime now None = None
  /\ (forall i hours minutes,
        0 <= hours < 24 -> 0 <= minutes < 60 ->
        exists newDate,
          dateOnly newDate = dateOnly i
          /\ getHours newDate = hours
          /\ getMinutes newDate = minutes
          /\ getSeconds newDate = getSeconds i
          /\ getMilliseconds newDate = getMilliseconds i
          /\ handleTimeChange (Some i) now (Some (hours, minutes))
             = Some (if sameDay newDate now && (newDate <? now)
                     then now else newDate))
  /\ (forall value,
        match handleTimeChange internalDate now value with
        | Some d => sameDay d now = true -> now <= d
        | None => internalDate = None \/ value = None
        end).
Proof.
  cbv zeta. split; [|split; [reflexivity|split]].
  - unfold handleDateSelect. cbv zeta.
    pose proof (day_start now) as Hn.
    pose proof (day_start selectedDate) as Hs.
    destruct (Z.ltb_spec (dateOnly selectedDate) (dateOnly now)) as [Hlt | Hge].
    + rewrite Z.eqb_refl. unfold setHours.
      change (23 * 3600000 + 59 * 60000 + 59 * 1000 + 999)
        with (MS_PER_DAY - 1).
      unfold MS_PER_DAY in *. repeat split; lia.
    + destruct (Z.eqb_spec (dateOnly selectedDate) (dateOnly now)) as [E | N].
      * unfold setHours. rewrite E.
        change (23 * 3600000 + 59 * 60000 + 59 * 1000 + 999)
          with (MS_PER_DAY - 1).
        unfold MS_PER_DAY in *. repeat split; lia.
      * assert (Hgt : dateOnly now < dateOnly selectedDate) by lia.
        pose proof (dateOnly_lt _ _ Hgt) as Hnext.
        assert (G : forall i,
                  let d := setHours selectedDate (getHours i) (getMinutes i)
                             (getSeconds i) (getMilliseconds i) in
                  now <= d
                  /\ (dateOnly selectedDate <= dateOnly now ->
                      d = dateOnly now + (MS_PER_DAY - 1))
                  /\ (dateOnly now < dateOnly selectedDate ->
                      d = dateOnly selectedDate + (i - dateOnly i)
                      /\ dateOnly d = dateOnly selectedDate)).
        { intros i. cbv zeta. unfold setHours. rewrite time_of_day.
          pose proof (day_start i) as Hi.
          split; [lia|]. split; [lia|]. intros _.
          split; [reflexivity|]. apply dateOnly_within. lia. }
        destruct internalDate as [i|]; [destruct showTime|]; apply G.
  - intros i hours minutes Hh Hm.
    exists (setHours i hours minutes (getSeconds i) (getMilliseconds i)).
    assert (Bs : 0 <= getSeconds i < 60)
      by (unfold getSeconds; apply Z.mod_pos_bound; lia).
    assert (Bm : 0 <= getMilliseconds i < 1000)
      by (unfold getMilliseconds; apply Z.mod_pos_bound; lia).
    pose proof (set_then_get (i / MS_PER_DAY) hours minutes (getSeconds i)
                  (getMilliseconds i) Hh Hm Bs Bm) as G.
    cbv zeta in G. unfold setHours.
    change (dateOnly i) with (i / MS_PER_DAY * MS_PER_DAY) at 1 2 3 4 5 6.
    destruct G as (G1 & G2 & G3 & G4 & G5).
    repeat split; try assumption.
  - intros value. unfold handleTimeChange.
    destruct internalDate as [i|]; [|now left].
    destruct value as [[hours minutes]|]; [|now right].
    set (newDate := setHours i hours minutes (getSeconds i) (getMilliseconds i)).
    destruct (sameDay newDate now) eqn:S; cbn [andb].
    + destruct (Z.ltb_spec newDate now); intros _; lia.
    + intros S'. congruence.
Qed.

Lemma picked_date_not_past_witness :
  handleDateSelect None None false 1700000000000 (Some 1600000000000)
  = Some 1700006399999
  /\ 1700000000000 <= 1700006399999.
Proof.
  pose proof (picked_date_not_past None false 1700000000000 1600000000000)
    as [H _].
  vm_compute in H. destruct H as (H1 & _).
  split; [vm_compute; reflexivity | exact H1].
Defined.

End DatePickerProps.
